(** * A shallow embedding of the download queue of the video bot

    The development follows the Python sources:
    - [db.py]           the SQLite wrapper (tables [users] and [downloads]);
    - [queue_worker.py] the scheduler loop and the executor;
    - [utils.py]        [download_video] and its error classes;
    - [bot.py]          submission, the progress observer and delivery.

    Tables.  A table is the list of its rows in rowid order; an
    [UPDATE ... WHERE] maps over the rows, a [SELECT ... WHERE] filters
    them, and [ORDER BY] is a stable sort of the selected rows (SQLite
    leaves the order of rows with equal keys open; here they keep the order
    of the scan).  The [users] table is only ever read through its primary
    key and is a finite map.  Text columns are strings and are compared the
    way SQLite compares TEXT, byte by byte.

    Threads.  Every method of [Database] runs under one lock, so each call
    is one atomic step on the database.  The system is a state machine over
    events: a submission, one iteration of the scheduler loop, a progress
    write, the return of the fetch, the end of a job's observer, the two
    clean-ups.  The executor is split where it waits for the fetch, so that
    other threads can run in between; the scheduler thread runs the
    executor itself and does not iterate meanwhile.

    Environment.  What the program reads from outside is an argument of the
    event: the clocks ([datetime.now()], [datetime('now')],
    CURRENT_TIMESTAMP), what yt-dlp did, whether the chat API accepted a
    file.  [config.py] is not part of the sources read here; its constants
    are the fields of [Config]. *)

From Stdlib Require Import ZArith QArith_base String Ascii List Bool Lia.
From Stdlib Require Import Sorting.Sorted Sorting.Permutation.
From stdpp Require Import base option list gmap strings.

Import ListNotations.
Local Open Scope string_scope.
Local Open Scope Z_scope.

(** ** Data model (db.py, [init_db]) *)

(** The values the program writes to, or compares with, [downloads.status]. *)
Inductive Status : Type :=
| pending
| downloading
| converting
| sending
| completed
| failed.

Definition Status_eqb (a b : Status) : bool :=
  match a, b with
  | pending, pending | downloading, downloading | converting, converting
  | sending, sending | completed, completed | failed, failed => true
  | _, _ => false
  end.

#[global] Instance Status_eq_dec : EqDecision Status.
Proof. intros a b; unfold Decision; decide equality. Defined.

(** A row of [users]. *)
Record User : Type := mkUser {
  u_user_id : Z;
  u_username : option string;
  u_first_name : option string;
  u_joined_at : string;
  u_priority_until : option string;
  u_total_downloads : Z;
  u_total_bytes_downloaded : Z
}.

(** A row of [downloads]. *)
Record Job : Type := mkJob {
  download_id : Z;
  user_id : Z;
  video_url : string;
  video_title : option string;
  file_path : option string;
  file_size_bytes : option Z;
  format : option string;
  status : Status;
  progress : Z;
  speed_mbps : option Q;
  eta_seconds : option Z;
  created_at : string;
  completed_at : option string;
  error_message : option string
}.

(** The database: both tables and the AUTOINCREMENT counter of [downloads]
    (the largest rowid ever handed out). *)
Record Database : Type := mkDb {
  users : gmap Z User;
  downloads : list Job;
  seq_downloads : Z
}.

Definition empty_db : Database :=
  {| users := ∅; downloads := []; seq_downloads := 0 |}.

Definition with_downloads (db : Database) (rows : list Job) : Database :=
  {| users := users db; downloads := rows; seq_downloads := seq_downloads db |}.

Definition with_users (db : Database) (us : gmap Z User) : Database :=
  {| users := us; downloads := downloads db; seq_downloads := seq_downloads db |}.

(** [UPDATE downloads SET ... WHERE download_id = ?]: every row with that
    key is rewritten; when there is none the statement changes nothing. *)
Definition update_where_id (id : Z) (f : Job -> Job) (rows : list Job) : list Job :=
  List.map (fun r => if download_id r =? id then f r else r) rows.

(** [SELECT * FROM downloads WHERE download_id = ?] with [fetchone]. *)
Definition select_by_id (id : Z) (rows : list Job) : option Job :=
  List.find (fun r => download_id r =? id) rows.

(** ** Users (db.py) *)

(** [add_or_update_user]: INSERT, or on conflict COALESCE the two names.
    [now] is CURRENT_TIMESTAMP, the default of [joined_at]. *)
Definition coalesce {A} (a b : option A) : option A :=
  match a with Some _ => a | None => b end.

Definition add_or_update_user (uid : Z) (username first_name : option string)
    (now : string) (db : Database) : Database :=
  match users db !! uid with
  | None =>
      with_users db (<[uid := mkUser uid username first_name now None 0 0]> (users db))
  | Some u =>
      with_users db (<[uid := mkUser (u_user_id u)
                                (coalesce username (u_username u))
                                (coalesce first_name (u_first_name u))
                                (u_joined_at u) (u_priority_until u)
                                (u_total_downloads u) (u_total_bytes_downloaded u)]>
                       (users db))
  end.

Definition set_priority_until (p : option string) (u : User) : User :=
  mkUser (u_user_id u) (u_username u) (u_first_name u) (u_joined_at u) p
         (u_total_downloads u) (u_total_bytes_downloaded u).

(** [UPDATE users SET priority_until = ? WHERE user_id = ?], the statement
    behind [set_priority], [admin_remove_priority] and
    [confirm_priority_purchase]. *)
Definition update_priority_until (uid : Z) (p : option string) (db : Database) : Database :=
  with_users db (alter (set_priority_until p) uid (users db)).

(** ** Downloads (db.py) *)

(** [add_download]: the new row takes the next rowid; every column that the
    INSERT does not name takes its default. *)
Definition add_download (uid : Z) (url : string) (title fmt : option string)
    (now : string) (db : Database) : Z * Database :=
  let id := seq_downloads db + 1 in
  let row := {| download_id := id; user_id := uid; video_url := url;
                video_title := title; file_path := None; file_size_bytes := None;
                format := fmt; status := pending; progress := 0;
                speed_mbps := None; eta_seconds := None; created_at := now;
                completed_at := None; error_message := None |} in
  (id, {| users := users db; downloads := downloads db ++ [row]; seq_downloads := id |}).

Definition get_download (id : Z) (db : Database) : option Job :=
  select_by_id id (downloads db).

Definition set_progress (p : Z) (speed : option Q) (eta : option Z) (r : Job) : Job :=
  {| download_id := download_id r; user_id := user_id r; video_url := video_url r;
     video_title := video_title r; file_path := file_path r;
     file_size_bytes := file_size_bytes r; format := format r; status := status r;
     progress := p; speed_mbps := speed; eta_seconds := eta;
     created_at := created_at r; completed_at := completed_at r;
     error_message := error_message r |}.

Definition update_download_progress (id : Z) (p : Z) (speed : option Q)
    (eta : option Z) (db : Database) : Database :=
  with_downloads db (update_where_id id (set_progress p speed eta) (downloads db)).

(** The SET clause of [update_download_status]: five columns are assigned,
    whatever the row held before. *)
Definition set_status (s : Status) (path : option string) (size : option Z)
    (err : option string) (done_at : option string) (r : Job) : Job :=
  {| download_id := download_id r; user_id := user_id r; video_url := video_url r;
     video_title := video_title r; file_path := path; file_size_bytes := size;
     format := format r; status := s; progress := progress r;
     speed_mbps := speed_mbps r; eta_seconds := eta_seconds r;
     created_at := created_at r; completed_at := done_at; error_message := err |}.

(** [update_download_status].  [now] is [datetime.now().isoformat()]; the
    three optional arguments default to [None]. *)
Definition update_download_status (id : Z) (s : Status) (path : option string)
    (size : option Z) (err : option string) (now : string) (db : Database) : Database :=
  let done_at := if Status_eqb s completed then Some now else None in
  with_downloads db (update_where_id id (set_status s path size err done_at) (downloads db)).

(** [count_active_downloads]:
    COUNT( * ) WHERE status IN ('downloading', 'converting', 'sending'). *)
Definition is_active (s : Status) : bool :=
  match s with
  | downloading | converting | sending => true
  | _ => false
  end.

Definition count_active_downloads (db : Database) : Z :=
  Z.of_nat (List.length (List.filter (fun r => is_active (status r)) (downloads db))).

(** ** Ordering the pending queue (db.py, [get_all_pending_downloads]) *)

(** SQLite compares two TEXT values byte by byte ([memcmp]). *)
Definition text_gtb (a b : string) : bool := String.ltb b a.

(** The first ORDER BY term:
    CASE WHEN u.priority_until = 'INFINITE'
           OR (u.priority_until IS NOT NULL AND u.priority_until > datetime('now'))
         THEN 0 ELSE 1 END.
    [now] is the text [datetime('now')] evaluates to. *)
Definition priority_rank (now : string) (u : User) : Z :=
  match u_priority_until u with
  | Some p => if String.eqb p "INFINITE" || text_gtb p now then 0 else 1
  | None => 1
  end.

(** FROM downloads d JOIN users u ON d.user_id = u.user_id
    WHERE d.status = 'pending', in rowid order of [downloads]. *)
Definition pending_join (db : Database) : list (Job * User) :=
  List.flat_map
    (fun d => if Status_eqb (status d) pending
              then match users db !! user_id d with
                   | Some u => [(d, u)]
                   | None => []
                   end
              else [])
    (downloads db).

(** The ORDER BY comparison: rank first, then [d.created_at]. *)
Definition order_le (now : string) (a b : Job * User) : bool :=
  let ra := priority_rank now (snd a) in
  let rb := priority_rank now (snd b) in
  (ra <? rb) || ((ra =? rb) && String.leb (created_at (fst a)) (created_at (fst b))).

Section OrderBy.
Context {A : Type} (le : A -> A -> bool).

Fixpoint insert_row (x : A) (l : list A) : list A :=
  match l with
  | [] => [x]
  | y :: l' => if le x y then x :: l else y :: insert_row x l'
  end.

(** A stable sort: rows with equal keys keep the order of the scan. *)
Fixpoint order_by (l : list A) : list A :=
  match l with
  | [] => []
  | x :: l' => insert_row x (order_by l')
  end.
End OrderBy.

(** [get_all_pending_downloads]; the Python code copies nine columns of
    each row into a dict, here the row itself is returned. *)
Definition get_all_pending_downloads (now : string) (db : Database) : list Job :=
  List.map fst (order_by (order_le now) (pending_join db)).

(** ** The result cache (db.py, [get_completed_download_by_url_format]) *)

(** Ordering of a nullable TEXT column: NULL sorts below every value. *)
Definition opt_text_ltb (a b : option string) : bool :=
  match a, b with
  | None, Some _ => true
  | Some x, Some y => String.ltb x y
  | _, _ => false
  end.

Definition opt_string_eqb (a : option string) (b : string) : bool :=
  match a with Some x => String.eqb x b | None => false end.

(** WHERE video_url = ? AND format = ? AND status = 'completed'
    AND file_path IS NOT NULL. *)
Definition cache_match (url fmt : string) (r : Job) : bool :=
  String.eqb (video_url r) url && opt_string_eqb (format r) fmt
  && Status_eqb (status r) completed && bool_decide (is_Some (file_path r)).

(** ORDER BY completed_at DESC LIMIT 1: the row with the largest
    [completed_at], the earliest such row of the scan on a tie. *)
Definition newer (best : option Job) (r : Job) : option Job :=
  match best with
  | None => Some r
  | Some b => if opt_text_ltb (completed_at b) (completed_at r) then Some r else best
  end.

Definition get_completed_download_by_url_format (url fmt : string) (db : Database)
    : option Job :=
  List.fold_left newer (List.filter (cache_match url fmt) (downloads db)) None.

(** ** The fetch capability (utils.py, [download_video]) *)

(** Texts.  A Python [str] is held as the bytes of its UTF-8 encoding.
    [str.lower] follows the Unicode case mapping, which is not spelled out
    here: wherever the program lowers a text, the lowered text is an input,
    as the readings of the clocks are. *)

(** [needle in hay] on Python strings: in UTF-8 a character sequence
    occurs in a text exactly when its bytes occur in the bytes of the
    text. *)
Fixpoint contains (needle hay : string) : bool :=
  String.prefix needle hay ||
  match hay with
  | EmptyString => false
  | String _ hay' => contains needle hay'
  end.

(** What the yt-dlp call inside [download_video] does. *)
Inductive YtDlp : Type :=
| yt_done (newest : option (string * Z))
    (** [extract_info] returned; [newest] is the most recent media file of
        the user's directory with its size, if the glob finds one *)
| yt_download_error (msg msg_lower : string)
    (** [DownloadError]; [msg] is [str(e)] and [msg_lower] the value of
        [error_msg.lower()] *)
| yt_exception (msg : string).       (** any other [Exception] *)

(** The triple [download_video] returns; of the metadata dict only the
    ["error"] key is read by the caller. *)
Record FetchResult : Type := mkFetch {
  fetch_success : bool;
  fetch_path : option string;
  fetch_error : option string
}.

Definition download_video (y : YtDlp) : FetchResult :=
  match y with
  | yt_done (Some (p, _)) => mkFetch true (Some p) None
  | yt_done None => mkFetch false None None
  | yt_download_error msg m =>
      if contains "geo" m || contains "blocked" m
      then mkFetch false None (Some "video_geo_blocked")
      else if contains "private" m
      then mkFetch false None (Some "video_private")
      else if contains "unavailable" m
      then mkFetch false None (Some "video_unavailable")
      else mkFetch false None (Some msg)
  | yt_exception msg => mkFetch false None (Some msg)
  end.

(** The five user-facing categories ([_update_progress_loop], the branch
    for a failed job), computed from the stored [error_message];
    [error_lower] is the value of [error_msg.lower()]. *)
Inductive ErrorCategory : Type :=
| geo_restricted
| private_video
| unavailable
| timeout
| other.

Definition friendly_error (error_msg error_lower : string) : ErrorCategory :=
  if contains "geo_blocked" error_msg || contains "geo" error_lower
  then geo_restricted
  else if contains "private" error_msg || contains "private" error_lower
  then private_video
  else if contains "unavailable" error_msg || contains "unavailable" error_lower
  then unavailable
  else if contains "timeout" error_lower
  then timeout
  else other.

(** ** The running system *)

(** The two constants of [config.py] the queue depends on. *)
Record Config : Type := mkConfig {
  MAX_CONCURRENT_DOWNLOADS : Z;
  MAX_FILE_SIZE_MB : Z
}.

(** What a delivery attempt handed to the chat front end. *)
Inductive Delivery : Type :=
| not_delivered_file_missing
| not_delivered_empty_file
| not_delivered_no_progress_message
| delivered_link (path : string)
| delivered_inline (path : string)
| inline_failed (path : string)
| delivery_crashed.

(** What became of a submission ([handle_download_callback]). *)
Inductive Submission : Type :=
| not_your_link
| link_lost
| from_cache (j : Job) (d : Delivery)
| queued (id : Z).

(** An exception raised inside the [try] block of [_process_download]. *)
Inductive Exc : Type :=
| TimeoutExpired
| OtherException (msg : string).

(** The shared state: the database, the storage directory (path to size),
    the [progress_messages] dict, the live observer threads, and the row
    the worker thread is busy with between admission and its last write.
    Three logs record what left the system: the deliveries, the answers to
    submissions, and the "Processing download N" lines of the executor. *)
Record World : Type := mkWorld {
  db : Database;
  files : gmap string Z;
  progress_messages : gmap Z (Z * Z);
  observers : gset Z;
  worker_job : option Job;
  deliveries : list (Z * Delivery);
  submissions : list Submission;
  processing_log : list Z
}.

Definition initial_world : World :=
  {| db := empty_db; files := ∅; progress_messages := ∅; observers := ∅;
     worker_job := None; deliveries := []; submissions := [];
     processing_log := [] |}.

Definition with_db (w : World) (d : Database) : World :=
  {| db := d; files := files w; progress_messages := progress_messages w;
     observers := observers w; worker_job := worker_job w;
     deliveries := deliveries w; submissions := submissions w;
     processing_log := processing_log w |}.

Definition with_files (w : World) (f : gmap string Z) : World :=
  {| db := db w; files := f; progress_messages := progress_messages w;
     observers := observers w; worker_job := worker_job w;
     deliveries := deliveries w; submissions := submissions w;
     processing_log := processing_log w |}.

Definition with_worker_job (w : World) (j : option Job) : World :=
  {| db := db w; files := files w; progress_messages := progress_messages w;
     observers := observers w; worker_job := j;
     deliveries := deliveries w; submissions := submissions w;
     processing_log := processing_log w |}.

Definition log_delivery (id : Z) (d : Delivery) (w : World) : World :=
  {| db := db w; files := files w; progress_messages := progress_messages w;
     observers := observers w; worker_job := worker_job w;
     deliveries := deliveries w ++ [(id, d)]; submissions := submissions w;
     processing_log := processing_log w |}.

Definition log_processing (id : Z) (w : World) : World :=
  {| db := db w; files := files w; progress_messages := progress_messages w;
     observers := observers w; worker_job := worker_job w;
     deliveries := deliveries w; submissions := submissions w;
     processing_log := processing_log w ++ [id] |}.

Definition log_submission (s : Submission) (w : World) : World :=
  {| db := db w; files := files w; progress_messages := progress_messages w;
     observers := observers w; worker_job := worker_job w;
     deliveries := deliveries w; submissions := submissions w ++ [s];
     processing_log := processing_log w |}.

(** [Path(p).exists()] *)
Definition path_exists (w : World) (p : string) : bool :=
  bool_decide (is_Some (files w !! p)).

(** Python truthiness of an optional string: neither [None] nor empty. *)
Definition truthy (s : option string) : option string :=
  match s with
  | Some "" => None
  | _ => s
  end.

Section System.
Context (cfg : Config).

(** MAX_FILE_SIZE_MB * 1024 * 1024 *)
Definition inline_threshold : Z := MAX_FILE_SIZE_MB cfg * 1024 * 1024.

(** *** Delivery (bot.py) *)

(** [_send_completed_download(user_id, download)].  [download] is the row
    the observer read; [send_ok] tells whether the calls into the chat API
    of the inline branch go through; [now] is the clock read by
    [update_download_status].  The storage directory is taken to be
    reliable: unlinking an existing file removes it. *)
Definition _send_completed_download (download : Job) (send_ok : bool)
    (now : string) (w : World) : Delivery * World :=
  let id := download_id download in
  match truthy (file_path download) with
  | None => (not_delivered_file_missing, w)
  | Some p =>
      if negb (path_exists w p) then (not_delivered_file_missing, w)
      else if bool_decide (file_size_bytes download = Some 0)
      then (not_delivered_empty_file, w)
      else
        let w1 := with_db w (update_download_status id sending None None None now (db w)) in
        match progress_messages w1 !! id with
        | None => (not_delivered_no_progress_message, w1)
        | Some _ =>
            match file_size_bytes download with
            | None => (delivery_crashed, w1)
            | Some file_size =>
                if file_size >? inline_threshold
                then (delivered_link p, w1)
                else if send_ok
                then (delivered_inline p, with_files w1 (delete p (files w1)))
                else (inline_failed p, w1)
            end
        end
  end.

(** [_send_cached_file(user_id, download, chat_id)]: the same choice
    between link and inline hand-off, without any write. *)
Definition _send_cached_file (download : Job) (send_ok : bool) (w : World) : Delivery :=
  match truthy (file_path download) with
  | None => not_delivered_file_missing
  | Some p =>
      if negb (path_exists w p) then not_delivered_file_missing
      else match file_size_bytes download with
           | None => delivery_crashed
           | Some file_size =>
               if file_size =? 0 then not_delivered_empty_file
               else if file_size >? inline_threshold then delivered_link p
               else if send_ok then delivered_inline p
               else inline_failed p
           end
  end.

(** *** Submission (bot.py, [handle_download_callback]) *)

(** The arguments of a submission: who pressed the button, the user id
    and format encoded in the callback data, the entry of [url_cache],
    the chat and the id of the progress message, and the clock. *)
Record Request : Type := mkRequest {
  req_from_user : Z;
  req_user_id : Z;
  req_format : string;
  req_url : option string;
  req_chat_id : Z;
  req_message_id : Z;
  req_send_ok : bool;
  req_now : string
}.

Definition handle_download_callback (r : Request) (w : World) : Submission * World :=
  if negb (req_from_user r =? req_user_id r) then (not_your_link, w)
  else
    match truthy (req_url r) with
    | None => (link_lost, w)
    | Some url =>
        let miss :=
          let '(id, d) := add_download (req_user_id r) url None (Some (req_format r))
                                       (req_now r) (db w) in
          (queued id,
           {| db := d; files := files w;
              progress_messages :=
                <[id := (req_chat_id r, req_message_id r)]> (progress_messages w);
              observers := {[id]} ∪ observers w;
              worker_job := worker_job w;
              deliveries := deliveries w; submissions := submissions w;
   processing_log := processing_log w |}) in
        match get_completed_download_by_url_format url (req_format r) (db w) with
        | None => miss
        | Some cached =>
            match truthy (file_path cached) with
            | None => miss
            | Some p =>
                if path_exists w p
                then (from_cache cached (_send_cached_file cached (req_send_ok r) w), w)
                else miss
            end
        end
    end.

(** *** The executor (queue_worker.py, [_process_download]) *)

Definition exc_message (e : Exc) : string :=
  match e with
  | TimeoutExpired => "Download timeout"
  | OtherException msg => msg
  end.

(** First half: log the job, create the user's directory ([mkdir_exc] is
    the exception it raises, if any) and mark the row as downloading.  On
    an exception the handlers mark the row as failed and the worker is
    free again. *)
Definition process_download_begin (download : Job) (mkdir_exc : option Exc)
    (now : string) (w0 : World) : World :=
  let id := download_id download in
  let w := log_processing id w0 in
  match mkdir_exc with
  | Some e =>
      with_db w (update_download_status id failed None None (Some (exc_message e)) now (db w))
  | None =>
      with_worker_job
        (with_db w (update_download_status id downloading None None None now (db w)))
        (Some download)
  end.

(** The progress callback, when enough time has passed since its last
    write. *)
Definition progress_callback (pct : Z) (speed : option Q) (eta : option Z)
    (w : World) : World :=
  match worker_job w with
  | None => w
  | Some download =>
      with_db w (update_download_progress (download_id download) pct speed eta (db w))
  end.

(** [str(e)] of the [FileNotFoundError] of [Path(p).stat()]. *)
Definition stat_error (p : string) : string :=
  "[Errno 2] No such file or directory: '" ++ p ++ "'".

(** Second half: [download_video] returns and the last status is written. *)
Definition process_download_end (y : YtDlp) (now : string) (w : World) : World :=
  match worker_job w with
  | None => w
  | Some download =>
      let id := download_id download in
      let w1 :=
        match y with
        | yt_done (Some (p, size)) => with_files w (<[p := size]> (files w))
        | _ => w
        end in
      let r := download_video y in
      let final :=
        if negb (fetch_success r)
        then
          let error_msg := default "Download failed" (fetch_error r) in
          update_download_status id failed None None (Some error_msg) now (db w1)
        else
          match truthy (fetch_path r) with
          | None => update_download_status id completed (fetch_path r) (Some 0) None now (db w1)
          | Some p =>
              match files w1 !! p with
              | Some file_size =>
                  update_download_status id completed (Some p) (Some file_size) None now (db w1)
              | None =>
                  update_download_status id failed None None (Some (stat_error p)) now (db w1)
              end
          end in
      with_worker_job (with_db w1 final) None
  end.

(** [_process_download] as one call. *)
Definition _process_download (download : Job) (mkdir_exc : option Exc) (y : YtDlp)
    (now_begin now_end : string) (w : World) : World :=
  process_download_end y now_end (process_download_begin download mkdir_exc now_begin w).

(** *** The scheduler (queue_worker.py, [_run_loop]) *)

(** One iteration of the loop up to the point where the executor waits
    for the fetch; the worker thread runs the executor itself, so there is
    no iteration while a job is in progress.  [now_sql] is
    [datetime('now')], [now] the Python clock. *)
Definition run_loop_tick (now_sql : string) (mkdir_exc : option Exc) (now : string)
    (w : World) : World :=
  match worker_job w with
  | Some _ => w
  | None =>
      let active_count := count_active_downloads (db w) in
      if active_count <? MAX_CONCURRENT_DOWNLOADS cfg
      then match get_all_pending_downloads now_sql (db w) with
           | download :: _ => process_download_begin download mkdir_exc now w
           | [] => w
           end
      else w
  end.

(** *** The observer (bot.py, [_update_progress_loop]) *)

(** The loop of observer [id] only reads; it ends when the row is gone,
    completed or failed, and then hands a completed row to delivery. *)
Definition observer_finish (id : Z) (send_ok : bool) (now : string) (w : World) : World :=
  if bool_decide (id ∈ observers w)
  then
    let w' := {| db := db w; files := files w;
                 progress_messages := progress_messages w;
                 observers := observers w ∖ {[id]};
                 worker_job := worker_job w;
                 deliveries := deliveries w; submissions := submissions w;
   processing_log := processing_log w |} in
    match get_download id (db w) with
    | None => w'
    | Some download =>
        match status download with
        | completed =>
            let '(d, w'') := _send_completed_download download send_ok now w' in
            log_delivery id d w''
        | failed => w'
        | _ => w
        end
    end
  else w.

(** [cleanup_caches]: forget the progress messages when nothing is active. *)
Definition cleanup_caches (w : World) : World :=
  if count_active_downloads (db w) =? 0
  then {| db := db w; files := files w; progress_messages := ∅;
          observers := observers w; worker_job := worker_job w;
          deliveries := deliveries w; submissions := submissions w;
   processing_log := processing_log w |}
  else w.

(** [cleanup_old_files]: the files found too old are unlinked. *)
Definition cleanup_old_files (old : list string) (w : World) : World :=
  with_files w (List.fold_right (fun p f => delete p f) (files w) old).

(** *** Events and runs *)

(** The events cover every statement of the program that writes to
    [downloads] ([add_download], [update_download_status],
    [update_download_progress]) or to [users.priority_until], and the two
    places that remove files or progress messages. *)

Inductive Event : Type :=
| ev_user (uid : Z) (username first_name : option string) (now : string)
| ev_priority (uid : Z) (priority_until : option string)
| ev_submit (r : Request)
| ev_tick (now_sql : string) (mkdir_exc : option Exc) (now : string)
| ev_progress (pct : Z) (speed : option Q) (eta : option Z)
| ev_fetched (y : YtDlp) (now : string)
| ev_observer (id : Z) (send_ok : bool) (now : string)
| ev_cleanup_caches
| ev_cleanup_files (old : list string).

Definition step (w : World) (e : Event) : World :=
  match e with
  | ev_user uid username first_name now =>
      with_db w (add_or_update_user uid username first_name now (db w))
  | ev_priority uid p => with_db w (update_priority_until uid p (db w))
  | ev_submit r =>
      let '(s, w') := handle_download_callback r w in log_submission s w'
  | ev_tick now_sql mkdir_exc now => run_loop_tick now_sql mkdir_exc now w
  | ev_progress pct speed eta => progress_callback pct speed eta w
  | ev_fetched y now => process_download_end y now w
  | ev_observer id send_ok now => observer_finish id send_ok now w
  | ev_cleanup_caches => cleanup_caches w
  | ev_cleanup_files old => cleanup_old_files old w
  end.

Definition run (w : World) (es : list Event) : World := List.fold_left step es w.

Definition reachable (w : World) : Prop := exists es, w = run initial_world es.

End System.

(** ** Clocks *)

(** A naive date and time, as Python's [datetime] and SQLite's date
    functions hold it. *)
Record DateTime : Type := mkDateTime {
  dt_year : Z;
  dt_month : Z;
  dt_day : Z;
  dt_hour : Z;
  dt_minute : Z;
  dt_second : Z;
  dt_microsecond : Z
}.

Definition digit (n : Z) : ascii := ascii_of_nat (48 + Z.to_nat (n mod 10)).

Fixpoint digits (width : nat) (n : Z) (acc : string) : string :=
  match width with
  | O => acc
  | S k => digits k (n / 10) (String (digit n) acc)
  end.

(** The format [%0<width>d] for a number that fits. *)
Definition zero_padded (width : nat) (n : Z) : string := digits width n "".

Arguments digit : simpl never.
Arguments zero_padded : simpl never.

Definition date_text (t : DateTime) : string :=
  zero_padded 4 (dt_year t) ++ "-" ++ zero_padded 2 (dt_month t) ++ "-"
  ++ zero_padded 2 (dt_day t).

Definition time_text (t : DateTime) : string :=
  zero_padded 2 (dt_hour t) ++ ":" ++ zero_padded 2 (dt_minute t) ++ ":"
  ++ zero_padded 2 (dt_second t).

(** [datetime.isoformat()]: a [T] between date and time, and the
    microseconds only when they are not zero. *)
Definition isoformat (t : DateTime) : string :=
  date_text t ++ "T" ++ time_text t
  ++ (if dt_microsecond t =? 0 then "" else "." ++ zero_padded 6 (dt_microsecond t)).

(** SQLite's [datetime('now')] and CURRENT_TIMESTAMP: a space between date
    and time, whole seconds. *)
Definition sqlite_datetime (t : DateTime) : string :=
  date_text t ++ " " ++ time_text t.

(** Chronological order of two instants of the same clock. *)
Definition dt_key (t : DateTime) : list Z :=
  [dt_year t; dt_month t; dt_day t; dt_hour t; dt_minute t; dt_second t;
   dt_microsecond t].

Fixpoint lex_ltb (a b : list Z) : bool :=
  match a, b with
  | x :: a', y :: b' => (x <? y) || ((x =? y) && lex_ltb a' b')
  | [], _ :: _ => true
  | _, _ => false
  end.

Definition dt_ltb (a b : DateTime) : bool := lex_ltb (dt_key a) (dt_key b).

(** [set_priority(user_id, days)]: a negative number of days means the
    sentinel, otherwise the ISO text of [until], which is
    [datetime.now() + timedelta(days)]. *)
Definition set_priority (uid : Z) (days : Z) (until : DateTime) (d : Database) : Database :=
  update_priority_until uid
    (Some (if days <? 0 then "INFINITE" else isoformat until)) d.

(** [admin_remove_priority]: the column is set to NULL. *)
Definition admin_remove_priority (uid : Z) (d : Database) : Database :=
  update_priority_until uid None d.

(** ** The ordering the specification describes *)

(** Three tiers: unbounded priority, then time-bounded priority that has
    not expired at [now], then no priority. *)
Definition spec_tier (now : string) (u : User) : Z :=
  match u_priority_until u with
  | Some p => if String.eqb p "INFINITE" then 0
              else if text_gtb p now then 1 else 2
  | None => 2
  end.


Definition spec_order_le (now : string) (a b : Job * User) : bool :=
  let ra := spec_tier now (snd a) in
  let rb := spec_tier now (snd b) in
  (ra <? rb) || ((ra =? rb) && String.leb (created_at (fst a)) (created_at (fst b))).

(** [listPending] as the specification words it. *)
Definition spec_list_pending (now : string) (d : Database) : list Job :=
  List.map fst (order_by (spec_order_le now) (pending_join d)).

(** The order the code's ORDER BY induces on joined rows: two ranks, and
    the creation time within a rank. *)
Definition two_tier_le (now : string) (a b : Job * User) : Prop :=
  priority_rank now (snd a) < priority_rank now (snd b)
  \/ (priority_rank now (snd a) = priority_rank now (snd b)
      /\ String.leb (created_at (fst a)) (created_at (fst b)) = true).

(** ** The life cycle of a job *)

(** The sequence of the specification:
    pending, downloading, converting, sending, completed; a move is a step
    forward along it, or the entry into failed from one of the first three. *)
Definition spec_status_rank (s : Status) : Z :=
  match s with
  | pending => 0
  | downloading => 1
  | converting => 2
  | sending => 3
  | completed => 4
  | failed => 5
  end.

Definition spec_status_move (a b : Status) : bool :=
  match a, b with
  | failed, failed => true
  | failed, _ => false
  | (pending | downloading | converting), failed => true
  | _, failed => false
  | _, _ => spec_status_rank a <=? spec_status_rank b
  end.

(** The moves the program makes: the executor takes a pending job to
    downloading and a downloading job to completed, it fails a job from
    pending or downloading, and delivery takes a completed job to sending. *)
Definition status_move (a b : Status) : bool :=
  match a, b with
  | pending, downloading | pending, failed
  | downloading, completed | downloading, failed
  | completed, sending => true
  | _, _ => Status_eqb a b
  end.

(** The order in which the program visits the statuses. *)
Definition status_rank (s : Status) : Z :=
  match s with
  | pending => 0
  | downloading => 1
  | converting => 2
  | completed => 3
  | sending => 4
  | failed => 5
  end.

(** Every stored job is still stored afterwards, its status reached by a
    move of the program. *)
Definition db_moves (d d' : Database) : Prop :=
  forall id j, get_download id d = Some j ->
    exists j', get_download id d' = Some j' /\ status_move (status j) (status j') = true.

(** The primary key: distinct, and never above the AUTOINCREMENT counter. *)
Definition keys_ok (d : Database) : Prop :=
  NoDup (List.map download_id (downloads d))
  /\ Forall (fun r => download_id r <= seq_downloads d) (downloads d).

(** What holds of every world the system reaches. *)
Record Inv (w : World) : Prop := mkInv {
  inv_keys : keys_ok (db w);
  inv_worker : forall d, worker_job w = Some d ->
      exists j, get_download (download_id d) (db w) = Some j /\ status j = downloading;
  inv_logged : Forall (fun id => exists j, get_download id (db w) = Some j
                                           /\ status j <> pending)
                 (processing_log w);
  inv_log_once : NoDup (processing_log w)
}.

(** What one event does to the table, the worker and the executor's log. *)
Inductive effect (w w' : World) : Prop :=
| eff_rows_kept :
    downloads (db w') = downloads (db w) ->
    seq_downloads (db w') = seq_downloads (db w) ->
    worker_job w' = worker_job w ->
    processing_log w' = processing_log w ->
    effect w w'
| eff_insert (uid : Z) (url : string) (title fmt : option string) (now : string) :
    db w' = snd (add_download uid url title fmt now (db w)) ->
    worker_job w' = worker_job w ->
    processing_log w' = processing_log w ->
    effect w w'
| eff_progress (id p : Z) (speed : option Q) (eta : option Z) :
    db w' = update_download_progress id p speed eta (db w) ->
    worker_job w' = worker_job w ->
    processing_log w' = processing_log w ->
    effect w w'
| eff_admit (download : Job) (s : Status) (err : option string) (now : string) :
    worker_job w = None ->
    In download (downloads (db w)) ->
    status download = pending ->
    db w' = update_download_status (download_id download) s None None err now (db w) ->
    (s = downloading /\ worker_job w' = Some download
     \/ s = failed /\ worker_job w' = None) ->
    processing_log w' = (processing_log w ++ [download_id download])%list ->
    effect w w'
| eff_finish (download : Job) (s : Status) (path : option string) (size : option Z)
    (err : option string) (now : string) :
    worker_job w = Some download ->
    s = completed \/ s = failed ->
    db w' = update_download_status (download_id download) s path size err now (db w) ->
    worker_job w' = None ->
    processing_log w' = processing_log w ->
    effect w w'
| eff_deliver (download : Job) (now : string) :
    get_download (download_id download) (db w) = Some download ->
    status download = completed ->
    db w' = update_download_status (download_id download) sending None None None now (db w) ->
    worker_job w' = worker_job w ->
    processing_log w' = processing_log w ->
    effect w w'.

(** A job the fetch capability is working on. *)
Definition in_flight (s : Status) : bool :=
  match s with
  | downloading | converting => true
  | _ => false
  end.

(** The only job in flight is the one the worker thread holds. *)
Definition only_worker_in_flight (w : World) : Prop :=
  forall r, In r (downloads (db w)) -> in_flight (status r) = true ->
    exists d, worker_job w = Some d /\ download_id d = download_id r.

(** [r] was not completed before [r']. *)
Definition not_older (r r' : Job) : Prop :=
  opt_text_ltb (completed_at r) (completed_at r') = false.

(** The calendar date of an instant, and a date that a four-digit year and
    two-digit month and day can print. *)
Definition dt_date (t : DateTime) : list Z := [dt_year t; dt_month t; dt_day t].

Definition printable_date (t : DateTime) : Prop :=
  0 <= dt_year t < 10000 /\ 0 <= dt_month t < 100 /\ 0 <= dt_day t < 100.

(** * More of the program *)

From Stdlib Require DecimalString.

(** ** Users and grants (db.py) *)

(** [get_user]: the row of a user, if there is one. *)
Definition get_user (uid : Z) (d : Database) : option User := users d !! uid.

(** SQLite holds an INTEGER in 64 bits; [sqlite3] raises [OverflowError]
    when a Python int outside that range is bound to a statement. *)
Definition fits_sqlite_integer (n : Z) : bool :=
  (- 2 ^ 63 <=? n) && (n <? 2 ^ 63).

(** [admin_give_priority]: make sure the user has a row, then
    [set_priority]; every exception is caught and answered with [False].
    [now] is CURRENT_TIMESTAMP for a new row.  [until] is the value of
    [datetime.now() + timedelta(days=days)], which [set_priority] computes
    for a number of days that is not negative, and [None] when that raises
    [OverflowError] (more days than a [timedelta] holds, or a date after
    the year 9999).  When it is raised the row made by
    [add_or_update_user] is already committed. *)
Definition admin_give_priority (uid : Z) (days : Z) (until : option DateTime)
    (now : string) (d : Database) : bool * Database :=
  if negb (fits_sqlite_integer uid) then (false, d)
  else
    let d1 := add_or_update_user uid None None now d in
    match days <? 0, until with
    | true, _ => (true, update_priority_until uid (Some "INFINITE") d1)
    | false, Some t => (true, set_priority uid days t d1)
    | false, None => (false, d1)
    end.

(** [get_user_active_downloads]:
    WHERE user_id = ? AND status IN ('pending', 'downloading', 'converting',
    'sending') ORDER BY created_at. *)
Definition is_unfinished (s : Status) : bool :=
  match s with
  | pending | downloading | converting | sending => true
  | _ => false
  end.

Definition get_user_active_downloads (uid : Z) (d : Database) : list Job :=
  order_by (fun a b => String.leb (created_at a) (created_at b))
    (List.filter (fun r => (user_id r =? uid) && is_unfinished (status r)) (downloads d)).

(** The row [add_download] inserts. *)
Definition new_job (id uid : Z) (url : string) (title fmt : option string)
    (now : string) : Job :=
  {| download_id := id; user_id := uid; video_url := url; video_title := title;
     file_path := None; file_size_bytes := None; format := fmt; status := pending;
     progress := 0; speed_mbps := None; eta_seconds := None; created_at := now;
     completed_at := None; error_message := None |}.

(** What [add_or_update_user] does to the row of a user who has one. *)
Definition rename_user (username first_name : option string) (u : User) : User :=
  mkUser (u_user_id u) (coalesce username (u_username u))
         (coalesce first_name (u_first_name u))
         (u_joined_at u) (u_priority_until u)
         (u_total_downloads u) (u_total_bytes_downloaded u).

(** ** Runs of the system *)

(** The jobs delivery has marked as sending. *)
Definition count_sending (d : Database) : Z :=
  Z.of_nat (List.length (List.filter (fun r => Status_eqb (status r) sending) (downloads d))).

(** The observer's delivery step ran for these jobs, each of which has a
    row and no observer any more. *)
Definition delivered_ids (w : World) : list Z := List.map fst (deliveries w).

Record DeliveredOnce (w : World) : Prop := mkDeliveredOnce {
  delivered_nodup : NoDup (delivered_ids w);
  delivered_done : Forall (fun id => (id ∉ observers w) /\ id <= seq_downloads (db w))
                     (delivered_ids w)
}.

(** ** Priority purchases (db.py) *)

(** The values the program writes to [priority_purchases.status]. *)
Inductive PurchaseStatus : Type :=
| purchase_pending
| purchase_confirmed
| purchase_rejected.

(** A row of [priority_purchases]. *)
Record Purchase : Type := mkPurchase {
  purchase_id : Z;
  p_user_id : Z;
  amount_usd : option Q;
  p_status : PurchaseStatus;
  p_confirmed_at : option string;
  p_priority_until : option string;
  p_created_at : string
}.

(** The database together with its third table. *)
Record Ledger : Type := mkLedger {
  ledger_db : Database;
  purchases : list Purchase;
  seq_purchases : Z
}.

Definition add_priority_purchase (uid : Z) (amount : Q) (now : string)
    (l : Ledger) : Z * Ledger :=
  let id := seq_purchases l + 1 in
  (id, {| ledger_db := ledger_db l;
          purchases := purchases l
                       ++ [mkPurchase id uid (Some amount) purchase_pending None None now];
          seq_purchases := id |}).

Definition get_priority_purchase (pid : Z) (l : Ledger) : option Purchase :=
  List.find (fun p => purchase_id p =? pid) (purchases l).

Definition is_purchase_pending (p : Purchase) : bool :=
  match p_status p with purchase_pending => true | _ => false end.

(** WHERE status = 'pending' ORDER BY created_at *)
Definition get_pending_priority_purchases (l : Ledger) : list Purchase :=
  order_by (fun a b => String.leb (p_created_at a) (p_created_at b))
    (List.filter is_purchase_pending (purchases l)).

Definition update_purchase (pid : Z) (f : Purchase -> Purchase) (rows : list Purchase)
    : list Purchase :=
  List.map (fun p => if purchase_id p =? pid then f p else p) rows.

(** [confirm_priority_purchase(purchase_id, priority_days)].  [until] is
    [datetime.now() + timedelta(days=priority_days)] and [now] the clock
    read for [confirmed_at].  The user id is read with [fetchone()[0]]: for
    an unknown purchase this raises and nothing is committed ([None]). *)
Definition confirm_priority_purchase (pid : Z) (until : DateTime) (now : string)
    (l : Ledger) : option Ledger :=
  match get_priority_purchase pid l with
  | None => None
  | Some found =>
      Some {| ledger_db :=
                update_priority_until (p_user_id found) (Some (isoformat until)) (ledger_db l);
              purchases :=
                update_purchase pid
                  (fun p => mkPurchase (purchase_id p) (p_user_id p) (amount_usd p)
                              purchase_confirmed (Some now) (Some (isoformat until))
                              (p_created_at p))
                  (purchases l);
              seq_purchases := seq_purchases l |}
  end.

Definition reject_priority_purchase (pid : Z) (l : Ledger) : Ledger :=
  {| ledger_db := ledger_db l;
     purchases :=
       update_purchase pid
         (fun p => mkPurchase (purchase_id p) (p_user_id p) (amount_usd p)
                     purchase_rejected (p_confirmed_at p) (p_priority_until p)
                     (p_created_at p))
         (purchases l);
     seq_purchases := seq_purchases l |}.

(** ** Grants by the administrator (bot.py, [process_give_priority]) *)

(** What became of the text of the message: there is none (a message
    without text, for which [message.text.strip()] raises), [split()] gave
    other than two parts, [int()] raised, or two numbers were read. *)
Inductive GrantInput : Type :=
| grant_no_text
| grant_wrong_format
| grant_not_numbers
| grant_numbers (uid days : Z).

(** What the handler does: nothing, the text of the exception, one of
    three refusals, the grant with the number of days passed on and whether
    the texts sent to the administrator and to the user announce an
    unbounded priority, or the failure text when [admin_give_priority]
    answers [False].  The calls into the chat API are taken to go
    through. *)
Inductive GrantAnswer : Type :=
| grant_ignored
| grant_error
| grant_rejected_format
| grant_rejected_numbers
| grant_rejected_zero
| grant_given (uid days : Z) (announced_unbounded : bool)
| grant_failed.

(** [ADMIN_ID] is a constant of [config.py]; [until] is the expiry
    [set_priority] computes for a grant that is not unbounded, [None] when
    computing it raises. *)
Definition process_give_priority (ADMIN_ID from_user : Z) (input : GrantInput)
    (until : option DateTime) (now : string) (d : Database) : GrantAnswer * Database :=
  if negb (from_user =? ADMIN_ID) then (grant_ignored, d)
  else match input with
       | grant_no_text => (grant_error, d)
       | grant_wrong_format => (grant_rejected_format, d)
       | grant_not_numbers => (grant_rejected_numbers, d)
       | grant_numbers uid days =>
           if days =? 0 then (grant_rejected_zero, d)
           else
             let announced := days <? 0 in
             let '(days, announced) :=
               if (uid =? ADMIN_ID) && (days >? 0) then (-1, true) else (days, announced) in
             let '(ok, d') := admin_give_priority uid days until now d in
             if ok then (grant_given uid days announced, d') else (grant_failed, d')
       end.

(** ** Asking for a user's priority (db.py, [has_priority]) *)

(** [fromisoformat] stands for [datetime.fromisoformat], [None] for its
    [ValueError]; [now] is [datetime.now()]. *)
Definition has_priority (fromisoformat : string -> option DateTime) (uid : Z)
    (now : DateTime) (d : Database) : bool :=
  match users d !! uid with
  | Some u =>
      match truthy (u_priority_until u) with
      | Some p =>
          if String.eqb p "INFINITE" then true
          else match fromisoformat p with
               | Some t => dt_ltb now t
               | None => false
               end
      | None => false
      end
  | None => false
  end.

(** ** Listing the users with priority (db.py, [get_users_with_priority]) *)

(** CASE WHEN priority_until = 'INFINITE' THEN 0 ELSE 1 END *)
Definition sentinel_rank (p : option string) : Z :=
  match p with
  | Some x => if String.eqb x "INFINITE" then 0 else 1
  | None => 1
  end.

(** [priority_until DESC]: NULL is the smallest value. *)
Definition text_desc (a b : option string) : bool :=
  match a, b with
  | _, None => true
  | None, Some _ => false
  | Some x, Some y => String.leb y x
  end.

Definition priority_list_le (a b : User) : bool :=
  let ra := sentinel_rank (u_priority_until a) in
  let rb := sentinel_rank (u_priority_until b) in
  (ra <? rb) || ((ra =? rb) && text_desc (u_priority_until a) (u_priority_until b)).

(** The table in the order of its scan: [user_id] is the INTEGER PRIMARY
    KEY, so the rows come by rising [user_id]. *)
Definition scan_users (d : Database) : list User :=
  List.map snd (order_by (fun a b => fst a <=? fst b) (map_to_list (users d))).

(** The rows the SELECT returns: WHERE priority_until IS NOT NULL. *)
Definition priority_rows (d : Database) : list User :=
  order_by priority_list_le
    (List.filter (fun u => match u_priority_until u with Some _ => true | None => false end)
       (scan_users d)).

(** One dict of the returned list. *)
Record PriorityEntry : Type := mkPriorityEntry {
  pe_user_id : Z;
  pe_username : option string;
  pe_first_name : option string;
  pe_priority_until : option string;
  pe_total_downloads : Z
}.

Definition priority_entry (u : User) : PriorityEntry :=
  mkPriorityEntry (u_user_id u) (u_username u) (u_first_name u)
    (match u_priority_until u with
     | Some p => Some (if String.eqb p "INFINITE" then "∞ Бесконечный" else p)
     | None => None
     end)
    (u_total_downloads u).

Definition get_users_with_priority (d : Database) : list PriorityEntry :=
  List.map priority_entry (priority_rows d).

(** ** Texts and numbers (utils.py, bot.py) *)

(** [str(n)] of a Python int. *)
Definition py_str (n : Z) : string :=
  DecimalString.NilZero.string_of_int (Z.to_int n).

(** The format [{n:02d}]: at least two characters, zeros after the sign. *)
Definition py_02d (n : Z) : string :=
  if n <? 0 then py_str n
  else if n <? 10 then "0" ++ py_str n
  else py_str n.

(** [format_duration] and [format_eta]; [//] and [%] round down. *)
Definition format_duration (seconds : Z) : string :=
  let hours := seconds / 3600 in
  let minutes := (seconds mod 3600) / 60 in
  let secs := seconds mod 60 in
  py_02d hours ++ ":" ++ py_02d minutes ++ ":" ++ py_02d secs.

Definition format_eta (seconds : Z) : string :=
  let hours := seconds / 3600 in
  let minutes := (seconds mod 3600) / 60 in
  let secs := seconds mod 60 in
  if hours >? 0
  then py_02d hours ++ ":" ++ py_02d minutes ++ ":" ++ py_02d secs
  else py_02d minutes ++ ":" ++ py_02d secs.

(** The progress bar of [_update_progress_loop].  [int(progress / 5)]
    rounds the quotient towards zero, and a string repeated a negative
    number of times is empty.  (The quotient is computed in floating point;
    it is the exact one for every progress below 2^50 in absolute value.) *)
Inductive BarCell : Type :=
| full_block
| light_shade.

Definition progress_bar (progress : option Z) : list BarCell :=
  let progress := match progress with Some 0 | None => 0 | Some p => p end in
  let filled := Z.quot progress 5 in
  (List.repeat full_block (Z.to_nat filled)
   ++ List.repeat light_shade (Z.to_nat (20 - filled)))%list.

(** The label [get_video_info] gives to a height. *)
Definition label_of_height (height : Z) : string :=
  if height >=? 2160 then "4K"
  else if height >=? 1440 then "2K"
  else if height >=? 1080 then "1080p"
  else if height >=? 720 then "720p"
  else if height >=? 480 then "480p"
  else if height >=? 360 then "360p"
  else if height >=? 240 then "240p"
  else if height >=? 144 then "144p"
  else py_str height ++ "p".

(** [s[-1:]] and [s[:-1]]. *)
Fixpoint last_char (s : string) : option ascii :=
  match s with
  | EmptyString => None
  | String c EmptyString => Some c
  | String _ s' => last_char s'
  end.

Fixpoint drop_last (s : string) : string :=
  match s with
  | EmptyString => EmptyString
  | String _ EmptyString => EmptyString
  | String c s' => String c (drop_last s')
  end.

(** The height [download_video] asks yt-dlp not to exceed, [None] for the
    audio format.  [int] stands for Python's [int] on a string, [None] for
    its [ValueError]. *)
Definition requested_height (int : string -> option Z) (format_type : string)
    : option Z :=
  if String.eqb format_type "mp3" then None
  else if String.eqb format_type "4K" then Some 2160
  else if String.eqb format_type "2K" then Some 1440
  else match last_char format_type with
       | Some "p"%char =>
           match int (drop_last format_type) with
           | Some height => Some height
           | None => Some 720
           end
       | _ => Some 720
       end.

(** ** The statistics columns of [users] *)

(** A row of [users] as the INSERT of [add_or_update_user] leaves its key
    and its two counters. *)
Definition counters_at_default (uid : Z) (u : User) : Prop :=
  u_user_id u = uid /\ u_total_downloads u = 0 /\ u_total_bytes_downloaded u = 0.

Definition statistics_untouched (d : Database) : Prop :=
  map_Forall counters_at_default (users d).
(** * Concrete scenarios *)

(** A finished job, as the executor leaves it. *)
Definition finished_job : Job :=
  {| download_id := 1; user_id := 7; video_url := "https://example.org/L";
     video_title := None; file_path := Some "storage/7/L.mp4";
     file_size_bytes := Some 60000000; format := Some "720p";
     status := completed; progress := 100; speed_mbps := None;
     eta_seconds := Some 0; created_at := "2026-11-03 09:00:00";
     completed_at := Some "2026-11-03T09:05:00"; error_message := None |}.

Definition finished_db : Database :=
  {| users := ∅; downloads := [finished_job]; seq_downloads := 1 |}.


(** Users and pending jobs for the ordering scenarios.  The clock reads
    13:00 on 3 November 2026. *)
Definition clock_now : DateTime := mkDateTime 2026 11 3 13 0 0 0.

Definition five_days_later : DateTime := mkDateTime 2026 11 8 13 0 0 0.

Definition earlier_today : DateTime := mkDateTime 2026 11 3 9 0 0 0.

Definition user_with (uid : Z) (p : option string) : User :=
  mkUser uid None None "2026-11-01 10:00:00" p 0 0.

Definition pending_job (id uid : Z) (created : string) : Job :=
  {| download_id := id; user_id := uid; video_url := "https://example.org/v";
     video_title := None; file_path := None; file_size_bytes := None;
     format := Some "720p"; status := pending; progress := 0; speed_mbps := None;
     eta_seconds := None; created_at := created; completed_at := None;
     error_message := None |}.

(** Submission order: none, unbounded, five days left. *)
Definition three_users_db : Database :=
  {| users := <[1 := user_with 1 None]>
                (<[2 := user_with 2 (Some "INFINITE")]>
                   (<[3 := user_with 3 (Some (isoformat five_days_later))]> ∅));
     downloads := [pending_job 1 1 "2026-11-03 12:00:00";
                   pending_job 2 2 "2026-11-03 12:00:10";
                   pending_job 3 3 "2026-11-03 12:00:20"];
     seq_downloads := 3 |}.

(** Submission order: five days left, then unbounded. *)
Definition timed_before_unbounded_db : Database :=
  {| users := <[2 := user_with 2 (Some "INFINITE")]>
                (<[3 := user_with 3 (Some (isoformat five_days_later))]> ∅);
     downloads := [pending_job 1 3 "2026-11-03 12:00:00";
                   pending_job 2 2 "2026-11-03 12:00:10"];
     seq_downloads := 2 |}.

(** Two users without priority, each with a pending job. *)
Definition two_users_db : Database :=
  {| users := <[1 := user_with 1 None]> (<[2 := user_with 2 None]> ∅);
     downloads := [pending_job 1 1 "2026-11-03 12:00:00";
                   pending_job 2 2 "2026-11-03 12:30:00"];
     seq_downloads := 2 |}.

(** The day before, at 09:00, user 2 was given priority for one day. *)
Definition expired_db : Database := set_priority 2 1 earlier_today two_users_db.

(** A configuration: two concurrent downloads, inline hand-off up to 50 MB. *)
Definition config_2_50 : Config := {| MAX_CONCURRENT_DOWNLOADS := 2; MAX_FILE_SIZE_MB := 50 |}.

(** A world holding one finished job, its file and its progress message. *)
Definition world_with (j : Job) (size_on_disk : Z) : World :=
  {| db := {| users := ∅; downloads := [j]; seq_downloads := 1 |};
     files := {["storage/7/L.mp4" := size_on_disk]};
     progress_messages := {[1 := (7, 100)]};
     observers := {[1]}; worker_job := None;
     deliveries := []; submissions := []; processing_log := [1] |}.

Definition finished_job_of_size (size : Z) : Job :=
  {| download_id := 1; user_id := 7; video_url := "https://example.org/L";
     video_title := None; file_path := Some "storage/7/L.mp4";
     file_size_bytes := Some size; format := Some "720p";
     status := completed; progress := 100; speed_mbps := None;
     eta_seconds := Some 0; created_at := "2026-11-03 09:00:00";
     completed_at := Some "2026-11-03T09:05:00"; error_message := None |}.

(** A submission by user 7 for [url] in 720p. *)
Definition request_720p (url : string) (message_id : Z) (now : string) : Request :=
  {| req_from_user := 7; req_user_id := 7; req_format := "720p";
     req_url := Some url; req_chat_id := 7; req_message_id := message_id;
     req_send_ok := true; req_now := now |}.

(** User 7 asks for L in 720p; the job is admitted and finishes with a
    60 MB artifact. *)
Definition trace_until_completed : list Event :=
  [ev_user 7 (Some "alice") (Some "Alice") "2026-11-03 08:59:00";
   ev_submit (request_720p "https://example.org/L" 100 "2026-11-03 09:00:00");
   ev_tick "2026-11-03 09:00:01" None "2026-11-03T09:00:01";
   ev_fetched (yt_done (Some ("storage/7/L.mp4", 60000000))) "2026-11-03T09:05:00"].

(** ... and the observer of job 1 hands out the link. *)
Definition trace_until_delivered : list Event :=
  trace_until_completed ++ [ev_observer 1 true "2026-11-03T09:05:01"].

(** Three jobs of user 7; the first is delivered, the second is finished
    but its observer has not yet run when the third is admitted. *)
Definition trace_over_cap : list Event :=
  [ev_user 7 (Some "alice") (Some "Alice") "2026-11-03 08:59:00";
   ev_submit (request_720p "https://example.org/A" 100 "2026-11-03 09:00:00");
   ev_submit (request_720p "https://example.org/B" 101 "2026-11-03 09:00:01");
   ev_submit (request_720p "https://example.org/C" 102 "2026-11-03 09:00:02");
   ev_tick "2026-11-03 09:00:03" None "2026-11-03T09:00:03";
   ev_fetched (yt_done (Some ("storage/7/A.mp4", 60000000))) "2026-11-03T09:05:00";
   ev_observer 1 true "2026-11-03T09:05:01";
   ev_tick "2026-11-03 09:05:02" None "2026-11-03T09:05:02";
   ev_fetched (yt_done (Some ("storage/7/B.mp4", 60000000))) "2026-11-03T09:10:00";
   ev_tick "2026-11-03 09:10:02" None "2026-11-03T09:10:02";
   ev_observer 2 true "2026-11-03T09:10:03"].

(** The row of job 1 as the submission creates it, and as delivery leaves it. *)
Definition job_1_pending : Job :=
  {| download_id := 1; user_id := 7; video_url := "https://example.org/L";
     video_title := None; file_path := None; file_size_bytes := None;
     format := Some "720p"; status := pending; progress := 0; speed_mbps := None;
     eta_seconds := None; created_at := "2026-11-03 09:00:00"; completed_at := None;
     error_message := None |}.

Definition job_1_sending : Job :=
  {| download_id := 1; user_id := 7; video_url := "https://example.org/L";
     video_title := None; file_path := None; file_size_bytes := None;
     format := Some "720p"; status := sending; progress := 0; speed_mbps := None;
     eta_seconds := None; created_at := "2026-11-03 09:00:00"; completed_at := None;
     error_message := None |}.

Definition trace_until_submitted : list Event :=
  [ev_user 7 (Some "alice") (Some "Alice") "2026-11-03 08:59:00";
   ev_submit (request_720p "https://example.org/L" 100 "2026-11-03 09:00:00")].

Definition trace_until_admitted : list Event :=
  trace_until_submitted ++ [ev_tick "2026-11-03 09:00:01" None "2026-11-03T09:00:01"].

(** What goes on after job 1 was delivered: another request, ticks, a
    second download, a clean-up. *)
Definition trace_afterwards : list Event :=
  [ev_submit (request_720p "https://example.org/M" 101 "2026-11-03 09:06:00");
   ev_tick "2026-11-03 09:06:01" None "2026-11-03T09:06:01";
   ev_progress 40 None (Some 30);
   ev_fetched (yt_done (Some ("storage/7/M.mp4", 1000))) "2026-11-03T09:07:00";
   ev_observer 2 true "2026-11-03T09:07:01";
   ev_cleanup_caches;
   ev_observer 1 true "2026-11-03T09:07:02";
   ev_tick "2026-11-03 09:07:03" None "2026-11-03T09:07:03"].

(** The same request, but yt-dlp leaves an empty file behind. *)
Definition trace_empty_artifact : list Event :=
  trace_until_submitted
  ++ [ev_tick "2026-11-03 09:00:01" None "2026-11-03T09:00:01";
      ev_fetched (yt_done (Some ("storage/7/L.mp4", 0))) "2026-11-03T09:05:00"].


(** * More scenarios *)

(** One download at a time, inline hand-off up to 50 MB. *)
Definition config_1_50 : Config := {| MAX_CONCURRENT_DOWNLOADS := 1; MAX_FILE_SIZE_MB := 50 |}.

(** User 1 of [two_users_db] has asked for priority; the request is
    purchase 1. *)
Definition ledger_one_request : Ledger :=
  snd (add_priority_purchase 1 (5 # 1) "2026-11-03 12:45:00"
         {| ledger_db := two_users_db; purchases := []; seq_purchases := 0 |}).

Definition the_request : Purchase :=
  mkPurchase 1 1 (Some (5 # 1)) purchase_pending None None "2026-11-03 12:45:00".

(** A reader of ISO texts that knows one text only. *)
Definition reads_only (t : DateTime) (s : string) : option DateTime :=
  if String.eqb s (isoformat t) then Some t else None.

(** User 2 holds a priority that ran out at 09:00 of the current day. *)
Definition expired_today_db : Database :=
  {| users := <[2 := user_with 2 (Some (isoformat earlier_today))]> ∅;
     downloads := []; seq_downloads := 0 |}.

(** A reader of decimal numerals. *)
Definition read_decimal (s : string) : option Z :=
  Z.of_int <$> DecimalString.NilZero.int_of_string s.
(** * Properties *)

Lemma Status_eqb_eq a b : Status_eqb a b = true <-> a = b.
Proof. destruct a, b; simpl; split; intros H; try reflexivity; discriminate H. Qed.

(** ** Reading a row back after an UPDATE *)

Section UpdateLemmas.
Variable f : Job -> Job.
Hypothesis f_keeps_id : forall r, download_id (f r) = download_id r.

Lemma update_where_id_ids id rows :
  List.map download_id (update_where_id id f rows) = List.map download_id rows.
Proof using f_keeps_id.
  induction rows as [|r rows IH]; simpl; [reflexivity|].
  rewrite IH. destruct (download_id r =? id); now rewrite ?f_keeps_id.
Qed.

Lemma select_update_same id rows :
  select_by_id id (update_where_id id f rows) = f <$> select_by_id id rows.
Proof using f_keeps_id.
  induction rows as [|r rows IH]; simpl; [reflexivity|].
  destruct (download_id r =? id) eqn:E; simpl.
  - now rewrite f_keeps_id, E.
  - now rewrite E.
Qed.

Lemma select_update_other id id' rows :
  id' <> id ->
  select_by_id id' (update_where_id id f rows) = select_by_id id' rows.
Proof using f_keeps_id.
  intros Hne. induction rows as [|r rows IH]; simpl; [reflexivity|].
  destruct (download_id r =? id) eqn:E; simpl.
  - rewrite f_keeps_id. apply Z.eqb_eq in E. rewrite E.
    destruct (id =? id') eqn:E'; [apply Z.eqb_eq in E'; congruence | exact IH].
  - now rewrite IH.
Qed.
End UpdateLemmas.

Lemma get_download_update_status_same id s path size err now d :
  get_download id (update_download_status id s path size err now d)
  = set_status s path size err (if Status_eqb s completed then Some now else None)
      <$> get_download id d.
Proof. unfold get_download, update_download_status; simpl. now apply select_update_same. Qed.

Lemma get_download_update_status_other id id' s path size err now d :
  id' <> id ->
  get_download id' (update_download_status id s path size err now d) = get_download id' d.
Proof.
  intros H. unfold get_download, update_download_status; simpl.
  now apply select_update_other.
Qed.

Lemma get_download_update_progress id id' p speed eta d :
  get_download id' (update_download_progress id p speed eta d)
  = if id' =? id then set_progress p speed eta <$> get_download id' d
    else get_download id' d.
Proof.
  unfold get_download, update_download_progress; simpl.
  destruct (id' =? id) eqn:E.
  - apply Z.eqb_eq in E; subst. now apply select_update_same.
  - apply Z.eqb_neq in E. now apply select_update_other.
Qed.

Lemma select_by_id_In id rows j :
  select_by_id id rows = Some j -> In j rows /\ download_id j = id.
Proof.
  unfold select_by_id. intros H. apply List.find_some in H.
  destruct H as [Hin E]. apply Z.eqb_eq in E. now split.
Qed.

Lemma select_by_id_app id rows extra j :
  select_by_id id rows = Some j -> select_by_id id (rows ++ extra) = Some j.
Proof.
  induction rows as [|r rows IH]; simpl; [discriminate|].
  destruct (download_id r =? id); [trivial | exact IH].
Qed.

(** A row found by scanning is the row [get_download] returns when the
    keys are distinct. *)
Lemma select_by_id_unique rows j :
  NoDup (List.map download_id rows) -> In j rows ->
  select_by_id (download_id j) rows = Some j.
Proof.
  induction rows as [|r rows IH]; simpl; [contradiction|].
  intros Hnd [->|Hin].
  - now rewrite Z.eqb_refl.
  - apply NoDup_cons in Hnd as [Hnotin Hnd].
    destruct (download_id r =? download_id j) eqn:E; [|now apply IH].
    apply Z.eqb_eq in E. exfalso. apply Hnotin. rewrite E.
    apply list_elem_of_In, in_map, Hin.
Qed.

(** ** The order of TEXT values *)

Lemma ascii_compare_refl c : Ascii.compare c c = Eq.
Proof. unfold Ascii.compare. apply N.compare_refl. Qed.

Lemma string_compare_refl s : String.compare s s = Eq.
Proof. induction s as [|c s IH]; simpl; [reflexivity|]. now rewrite ascii_compare_refl. Qed.

Lemma string_leb_refl s : String.leb s s = true.
Proof. unfold String.leb. now rewrite string_compare_refl. Qed.

Lemma string_leb_trans a b c :
  String.leb a b = true -> String.leb b c = true -> String.leb a c = true.
Proof.
  unfold String.leb. revert b c.
  induction a as [|x a IH]; intros [|y b] [|z c]; simpl; try easy.
  unfold Ascii.compare.
  destruct (N.compare_spec (N_of_ascii x) (N_of_ascii y)) as [Hxy|Hxy|Hxy];
    destruct (N.compare_spec (N_of_ascii y) (N_of_ascii z)) as [Hyz|Hyz|Hyz];
    destruct (N.compare_spec (N_of_ascii x) (N_of_ascii z)) as [Hxz|Hxz|Hxz];
    try easy; try lia; intros H1 H2.
  now apply (IH b c).
Qed.

(** A common prefix does not take part in the comparison. *)
Lemma string_compare_app p a b :
  String.compare (p ++ a) (p ++ b) = String.compare a b.
Proof. induction p as [|c p IH]; simpl; [reflexivity|]. now rewrite ascii_compare_refl. Qed.

(** ** The ORDER BY of the pending queue *)

Lemma order_le_total now a b : order_le now a b = true \/ order_le now b a = true.
Proof.
  unfold order_le.
  destruct (Z.lt_trichotomy (priority_rank now (snd a)) (priority_rank now (snd b)))
    as [H|[H|H]].
  - left. apply orb_true_iff. left. now apply Z.ltb_lt.
  - rewrite H, Z.eqb_refl. simpl.
    destruct (String.leb_total (created_at (fst a)) (created_at (fst b))) as [L|L];
      rewrite L; [left|right]; apply orb_true_r.
  - right. apply orb_true_iff. left. now apply Z.ltb_lt.
Qed.

Lemma order_le_trans now a b c :
  order_le now a b = true -> order_le now b c = true -> order_le now a c = true.
Proof.
  unfold order_le. intros H1 H2.
  apply orb_true_iff in H1. apply orb_true_iff in H2. apply orb_true_iff.
  destruct H1 as [H1|H1], H2 as [H2|H2];
    rewrite ?andb_true_iff, ?Z.ltb_lt, ?Z.eqb_eq in *.
  - left. lia.
  - left. lia.
  - left. lia.
  - right. destruct H1 as [E1 L1], H2 as [E2 L2]. split; [lia|].
    eapply string_leb_trans; eassumption.
Qed.

Section OrderByLemmas.
Context {A : Type} (le : A -> A -> bool).
Hypothesis le_total : forall a b, le a b = true \/ le b a = true.
Hypothesis le_trans : forall a b c, le a b = true -> le b c = true -> le a c = true.

Lemma insert_row_perm x l : Permutation (x :: l) (insert_row le x l).
Proof.
  induction l as [|y l IH]; simpl; [reflexivity|].
  destruct (le x y); [reflexivity|].
  rewrite perm_swap. now constructor.
Qed.

Lemma order_by_perm l : Permutation l (order_by le l).
Proof.
  induction l as [|x l IH]; simpl; [reflexivity|].
  rewrite <- insert_row_perm. now constructor.
Qed.

Lemma insert_row_sorted x l :
  StronglySorted (fun a b => le a b = true) l ->
  StronglySorted (fun a b => le a b = true) (insert_row le x l).
Proof using le_total le_trans.
  induction 1 as [|y l Hs IH Hall]; simpl.
  - repeat constructor.
  - destruct (le x y) eqn:E.
    + constructor; [now constructor|].
      constructor; [exact E|].
      eapply Forall_impl; [exact Hall|]. intros z Hz. simpl in Hz.
      eapply le_trans; eassumption.
    + constructor; [exact IH|].
      assert (Hyx : le y x = true) by (destruct (le_total x y); congruence).
      rewrite <- (insert_row_perm x l). now constructor.
Qed.

Lemma order_by_sorted l : StronglySorted (fun a b => le a b = true) (order_by le l).
Proof using le_total le_trans.
  induction l as [|x l IH]; simpl; [constructor|]. now apply insert_row_sorted.
Qed.
End OrderByLemmas.

Lemma pending_join_In d u (D : Database) :
  In (d, u) (pending_join D) <->
  In d (downloads D) /\ status d = pending /\ users D !! user_id d = Some u.
Proof.
  unfold pending_join. rewrite in_flat_map. split.
  - intros (r & Hin & H).
    destruct (Status_eqb (status r) pending) eqn:E; [|contradiction].
    apply Status_eqb_eq in E.
    destruct (users D !! user_id r) as [u'|] eqn:L; [|contradiction].
    destruct H as [H|[]]. inversion H; subst. auto.
  - intros (Hin & Hs & L). exists d. split; [exact Hin|].
    rewrite Hs. simpl. rewrite L. now left.
Qed.

(** The head of the queue is a pending row of the table. *)
Lemma pending_head now (D : Database) d rest :
  get_all_pending_downloads now D = d :: rest ->
  In d (downloads D) /\ status d = pending.
Proof.
  unfold get_all_pending_downloads. intros H.
  assert (Hin : In d (List.map fst (order_by (order_le now) (pending_join D))))
    by (rewrite H; now left).
  apply in_map_iff in Hin as ([d' u] & Hd & Hin). simpl in Hd. subst d'.
  eapply Permutation_in in Hin; [|symmetry; apply order_by_perm].
  apply pending_join_In in Hin. tauto.
Qed.

Lemma order_le_two_tier now a b : order_le now a b = true <-> two_tier_le now a b.
Proof.
  unfold order_le, two_tier_le.
  rewrite orb_true_iff, andb_true_iff, Z.ltb_lt, Z.eqb_eq. tauto.
Qed.

(** ** Dates as text *)

Lemma string_app_assoc (a b c : string) : ((a ++ b) ++ c = a ++ (b ++ c))%string.
Proof.
  induction a as [|x a IH]; [reflexivity|].
  change (String x ((a ++ b) ++ c) = String x (a ++ (b ++ c)))%string.
  f_equal. exact IH.
Qed.

Lemma digits_acc width n acc : digits width n acc = (digits width n "" ++ acc)%string.
Proof.
  revert n acc. induction width as [|k IH]; intros n acc; simpl; [reflexivity|].
  rewrite (IH (n / 10) (String (digit n) acc)), (IH (n / 10) (String (digit n) "")).
  now rewrite string_app_assoc.
Qed.

Lemma zero_padded_S k n :
  zero_padded (S k) n = (zero_padded k (n / 10) ++ String (digit n) "")%string.
Proof. unfold zero_padded. cbn [digits]. apply digits_acc. Qed.

Lemma string_compare_cons x y s s' :
  String.compare (String x s) (String y s')
  = match Ascii.compare x y with Eq => String.compare s s' | c => c end.
Proof. reflexivity. Qed.

Lemma string_cons_app c s t : (String c s ++ t)%string = String c (s ++ t)%string.
Proof. reflexivity. Qed.

Lemma string_nil_app t : ("" ++ t)%string = t.
Proof. reflexivity. Qed.

Lemma digit_code n : N_of_ascii (digit n) = N.of_nat (48 + Z.to_nat (n mod 10)).
Proof.
  unfold digit, ascii_of_nat, N_of_ascii.
  assert (H : (Z.to_nat (n mod 10) < 10)%nat).
  { pose proof (Z.mod_pos_bound n 10 ltac:(lia)). lia. }
  fold (N_of_ascii (ascii_of_N (N.of_nat (48 + Z.to_nat (n mod 10))))).
  apply N_ascii_embedding. lia.
Qed.

Lemma digit_compare a b :
  a mod 10 < b mod 10 -> Ascii.compare (digit a) (digit b) = Lt.
Proof.
  intros H. unfold Ascii.compare. rewrite !digit_code. apply N.compare_lt_iff.
  pose proof (Z.mod_pos_bound a 10 ltac:(lia)).
  pose proof (Z.mod_pos_bound b 10 ltac:(lia)). lia.
Qed.

(** Numbers printed with the same width compare as text the way they
    compare as numbers, whatever follows them. *)
Lemma zero_padded_compare k :
  forall a b s s',
    0 <= a -> 0 <= b -> a < b -> b < 10 ^ Z.of_nat k ->
    String.compare (zero_padded k a ++ s) (zero_padded k b ++ s') = Lt.
Proof.
  induction k as [|k IH]; intros a b s s' Ha Hb Hab Hk.
  - simpl in Hk. lia.
  - rewrite !zero_padded_S, !string_app_assoc, !string_cons_app, !string_nil_app.
    rewrite Nat2Z.inj_succ, Z.pow_succ_r in Hk by lia.
    assert (Hq : a / 10 <= b / 10) by (apply Z.div_le_mono; lia).
    destruct (Z.eq_dec (a / 10) (b / 10)) as [E|NE].
    + rewrite E, string_compare_app, string_compare_cons.
      rewrite digit_compare; [reflexivity|].
      pose proof (Z.div_mod a 10 ltac:(lia)). pose proof (Z.div_mod b 10 ltac:(lia)). lia.
    + apply IH; try lia.
      * apply Z.div_pos; lia.
      * apply Z.div_pos; lia.
      * apply Z.div_lt_upper_bound; lia.
Qed.

Lemma date_text_compare (a b : DateTime) s s' :
  printable_date a -> printable_date b ->
  lex_ltb (dt_date a) (dt_date b) = true ->
  String.compare (date_text a ++ s) (date_text b ++ s') = Lt.
Proof.
  intros (Ya & Ma & Da) (Yb & Mb & Db) H. unfold dt_date in H. cbn [lex_ltb] in H.
  unfold date_text. rewrite !string_app_assoc.
  destruct (Z.ltb_spec (dt_year a) (dt_year b)) as [Hy|Hy].
  { apply zero_padded_compare; simpl Z.of_nat; lia. }
  rewrite orb_false_l in H. apply andb_true_iff in H as [Ey H]. apply Z.eqb_eq in Ey.
  rewrite Ey, string_compare_app, !string_cons_app, !string_nil_app.
  rewrite string_compare_cons, ascii_compare_refl.
  destruct (Z.ltb_spec (dt_month a) (dt_month b)) as [Hm|Hm].
  { apply zero_padded_compare; simpl Z.of_nat; lia. }
  rewrite orb_false_l in H. apply andb_true_iff in H as [Em H]. apply Z.eqb_eq in Em.
  rewrite Em, string_compare_app, ?string_cons_app, ?string_nil_app.
  rewrite string_compare_cons, ascii_compare_refl.
  destruct (Z.ltb_spec (dt_day a) (dt_day b)) as [Hd|Hd].
  { apply zero_padded_compare; simpl Z.of_nat; lia. }
  rewrite orb_false_l, andb_false_r in H. discriminate H.
Qed.

Lemma isoformat_not_sentinel (t : DateTime) : String.eqb (isoformat t) "INFINITE" = false.
Proof.
  apply String.eqb_neq. unfold isoformat, date_text. intros E.
  change 4%nat with (S 3) in E.
  rewrite zero_padded_S in E. change 3%nat with (S 2) in E.
  rewrite zero_padded_S in E. change 2%nat with (S 1) in E at 1.
  rewrite zero_padded_S in E. change 1%nat with (S 0) in E at 1.
  rewrite zero_padded_S in E.
  change (zero_padded 0 (dt_year t / 10 / 10 / 10 / 10)) with "" in E.
  rewrite !string_app_assoc, !string_nil_app, !string_cons_app in E.
  (* the fifth character is a dash in one text and a letter in the other *)
  inversion E.
Qed.

(** Where C5 does hold: a priority that ran out on an earlier day ranks
    like no priority at all. *)
Lemma expired_before_today_rank (u : User) (until now : DateTime) :
  u_priority_until u = Some (isoformat until) ->
  printable_date until -> printable_date now ->
  lex_ltb (dt_date until) (dt_date now) = true ->
  priority_rank (sqlite_datetime now) u = 1
  /\ priority_rank (sqlite_datetime now) u
     = priority_rank (sqlite_datetime now) (set_priority_until None u).
Proof.
  intros Hu Pu Pn Hlt.
  assert (R : priority_rank (sqlite_datetime now) u = 1).
  { unfold priority_rank. rewrite Hu, isoformat_not_sentinel. rewrite orb_false_l.
    unfold text_gtb, String.ltb, isoformat, sqlite_datetime.
    rewrite (String.compare_antisym (date_text now ++ _)).
    rewrite (date_text_compare until now); auto. }
  split; [exact R|]. rewrite R. reflexivity.
Qed.

(** ** Moves of the status *)

Lemma status_move_refl s : status_move s s = true.
Proof. now destruct s. Qed.

Lemma status_move_forward a b : status_move a b = true -> status_rank a <= status_rank b.
Proof. destruct a, b; simpl; intros; try discriminate; lia. Qed.

Lemma status_move_not_pending a b : status_move a b = true -> a <> pending -> b <> pending.
Proof. destruct a, b; simpl; intros; congruence. Qed.

Lemma status_move_sending b : status_move sending b = true -> b = sending.
Proof. destruct b; simpl; intros; congruence. Qed.

Lemma status_move_failed b : status_move failed b = true -> b = failed.
Proof. destruct b; simpl; intros; congruence. Qed.

Lemma db_moves_refl d : db_moves d d.
Proof. intros id j H. exists j. split; [exact H | apply status_move_refl]. Qed.

Lemma db_moves_same_rows d d' : downloads d' = downloads d -> db_moves d d'.
Proof.
  intros E id j H. exists j. split; [|apply status_move_refl].
  unfold get_download in *. now rewrite E.
Qed.

Lemma get_download_update_status id id' s path size err now d :
  get_download id' (update_download_status id s path size err now d)
  = if id' =? id
    then set_status s path size err (if Status_eqb s completed then Some now else None)
           <$> get_download id' d
    else get_download id' d.
Proof.
  destruct (id' =? id) eqn:E.
  - apply Z.eqb_eq in E; subst. apply get_download_update_status_same.
  - apply Z.eqb_neq in E. now apply get_download_update_status_other.
Qed.

(** A status write is a move as soon as it is one for the row it targets. *)
Lemma update_status_moves id s path size err now d :
  (forall j, get_download id d = Some j -> status_move (status j) s = true) ->
  db_moves d (update_download_status id s path size err now d).
Proof.
  intros Hs id' j Hj. rewrite get_download_update_status.
  destruct (id' =? id) eqn:E.
  - apply Z.eqb_eq in E; subst. rewrite Hj. simpl. eexists; split; [reflexivity|].
    simpl. now apply Hs.
  - exists j. split; [exact Hj | apply status_move_refl].
Qed.

Lemma update_progress_moves id p speed eta d :
  db_moves d (update_download_progress id p speed eta d).
Proof.
  intros id' j Hj. rewrite get_download_update_progress.
  destruct (id' =? id); [|exists j; split; [exact Hj | apply status_move_refl]].
  rewrite Hj. simpl. eexists; split; [reflexivity|]. simpl. apply status_move_refl.
Qed.

Lemma add_download_moves uid url title fmt now d :
  db_moves d (snd (add_download uid url title fmt now d)).
Proof.
  intros id j Hj. exists j. split; [|apply status_move_refl].
  unfold get_download in *. simpl. now apply select_by_id_app.
Qed.

(** ** Keys of the table *)

Lemma keys_ok_update_status id s path size err now d :
  keys_ok d -> keys_ok (update_download_status id s path size err now d).
Proof.
  intros [Hn Hf]. unfold keys_ok, update_download_status. simpl. split.
  - now rewrite update_where_id_ids.
  - unfold update_where_id. apply Forall_map. eapply Forall_impl; [exact Hf|].
    intros r Hr. simpl. now destruct (download_id r =? id).
Qed.

Lemma keys_ok_update_progress id p speed eta d :
  keys_ok d -> keys_ok (update_download_progress id p speed eta d).
Proof.
  intros [Hn Hf]. unfold keys_ok, update_download_progress. simpl. split.
  - now rewrite update_where_id_ids.
  - unfold update_where_id. apply Forall_map. eapply Forall_impl; [exact Hf|].
    intros r Hr. simpl. now destruct (download_id r =? id).
Qed.

Lemma keys_ok_add_download uid url title fmt now d :
  keys_ok d -> keys_ok (snd (add_download uid url title fmt now d)).
Proof.
  intros [Hn Hf]. unfold keys_ok. simpl. split.
  - rewrite map_app. simpl. apply NoDup_app. split; [exact Hn|]. split.
    + intros x Hx Hx'. apply list_elem_of_singleton in Hx'. subst x.
      apply list_elem_of_In, in_map_iff in Hx as (r & Hr & Hin).
      rewrite Forall_forall in Hf. apply list_elem_of_In, Hf in Hin. lia.
    + apply NoDup_singleton.
  - apply Forall_app. split.
    + eapply Forall_impl; [exact Hf|]. intros r Hr. simpl in *. lia.
    + constructor; [simpl; lia | constructor].
Qed.

Lemma get_download_unique d j :
  keys_ok d -> In j (downloads d) -> get_download (download_id j) d = Some j.
Proof. intros [Hn _] Hin. now apply select_by_id_unique. Qed.

(** ** What an event can do *)

Section Effects.
Context (cfg : Config).

Lemma effect_refl w : effect w w.
Proof. now apply eff_rows_kept. Qed.

Lemma submit_effect r w :
  effect w (snd (handle_download_callback cfg r w)).
Proof.
  unfold handle_download_callback.
  destruct (negb (req_from_user r =? req_user_id r)); [apply effect_refl|].
  destruct (truthy (req_url r)) as [url|]; [|apply effect_refl].
  assert (Hmiss : effect w
            {| db := snd (add_download (req_user_id r) url None (Some (req_format r))
                            (req_now r) (db w));
               files := files w;
               progress_messages :=
                 <[seq_downloads (db w) + 1 := (req_chat_id r, req_message_id r)]>
                   (progress_messages w);
               observers := {[seq_downloads (db w) + 1]} ∪ observers w;
               worker_job := worker_job w; deliveries := deliveries w;
               submissions := submissions w; processing_log := processing_log w |}).
  { eapply eff_insert; reflexivity. }
  destruct (get_completed_download_by_url_format url (req_format r) (db w))
    as [cached|]; [|exact Hmiss].
  destruct (truthy (file_path cached)) as [p|]; [|exact Hmiss].
  destruct (path_exists w p); [apply effect_refl | exact Hmiss].
Qed.

Lemma begin_effect download exc now w :
  worker_job w = None -> In download (downloads (db w)) -> status download = pending ->
  effect w (process_download_begin download exc now w).
Proof.
  intros Hw Hin Hs. unfold process_download_begin.
  destruct exc as [e|].
  - eapply (eff_admit _ _ download failed); eauto.
  - eapply (eff_admit _ _ download downloading); eauto.
Qed.

Lemma tick_effect now_sql exc now w : effect w (run_loop_tick cfg now_sql exc now w).
Proof.
  unfold run_loop_tick.
  destruct (worker_job w) eqn:Hw; [apply effect_refl|].
  destruct (count_active_downloads (db w) <? MAX_CONCURRENT_DOWNLOADS cfg);
    [|apply effect_refl].
  destruct (get_all_pending_downloads now_sql (db w)) as [|download rest] eqn:Hq;
    [apply effect_refl|].
  apply pending_head in Hq as [Hin Hs]. now apply begin_effect.
Qed.

Lemma progress_effect pct speed eta w : effect w (progress_callback pct speed eta w).
Proof.
  unfold progress_callback. destruct (worker_job w) as [download|] eqn:Hw;
    [|apply effect_refl].
  eapply eff_progress; simpl; eauto.
Qed.

Lemma end_effect y now w : effect w (process_download_end y now w).
Proof.
  unfold process_download_end.
  destruct (worker_job w) as [download|] eqn:Hw; [|apply effect_refl].
  set (w1 := match y with
             | yt_done (Some (p, size)) => with_files w (<[p:=size]> (files w))
             | _ => w
             end).
  assert (Hdb : db w1 = db w) by (subst w1; destruct y as [[[p sz]|]| |]; reflexivity).
  assert (Hlog : processing_log w1 = processing_log w)
    by (subst w1; destruct y as [[[p sz]|]| |]; reflexivity).
  destruct (negb (fetch_success (download_video y))).
  - eapply (eff_finish _ _ download failed); simpl; rewrite ?Hdb, ?Hlog; eauto.
  - destruct (truthy (fetch_path (download_video y))) as [p|].
    + destruct (files w1 !! p).
      * eapply (eff_finish _ _ download completed); simpl; rewrite ?Hdb, ?Hlog; eauto.
      * eapply (eff_finish _ _ download failed); simpl; rewrite ?Hdb, ?Hlog; eauto.
    + eapply (eff_finish _ _ download completed); simpl; rewrite ?Hdb, ?Hlog; eauto.
Qed.

Lemma send_completed_effect download send_ok now w :
  get_download (download_id download) (db w) = Some download ->
  status download = completed ->
  effect w (snd (_send_completed_download cfg download send_ok now w)).
Proof.
  intros Hg Hs. unfold _send_completed_download.
  destruct (truthy (file_path download)) as [p|]; [|apply effect_refl].
  destruct (negb (path_exists w p)); [apply effect_refl|].
  destruct (bool_decide (file_size_bytes download = Some 0)); [apply effect_refl|].
  simpl progress_messages.
  destruct (progress_messages w !! download_id download);
    [|eapply eff_deliver; simpl; eauto].
  destruct (file_size_bytes download) as [file_size|];
    [|eapply eff_deliver; simpl; eauto].
  destruct (file_size >? inline_threshold cfg); [eapply eff_deliver; simpl; eauto|].
  destruct send_ok; eapply eff_deliver; simpl; eauto.
Qed.

(** Only the table, the worker and the log matter. *)
Lemma effect_ext w0 w0' w1 w2 :
  db w0' = db w0 -> worker_job w0' = worker_job w0 ->
  processing_log w0' = processing_log w0 ->
  db w2 = db w1 -> worker_job w2 = worker_job w1 ->
  processing_log w2 = processing_log w1 ->
  effect w0 w1 -> effect w0' w2.
Proof.
  intros D1 D2 D3 E1 E2 E3 H.
  destruct H; [ eapply eff_rows_kept | eapply eff_insert | eapply eff_progress
              | eapply eff_admit | eapply eff_finish | eapply eff_deliver ];
    rewrite ?D1, ?D2, ?D3, ?E1, ?E2, ?E3; eassumption.
Qed.

Lemma observer_effect id send_ok now w : effect w (observer_finish cfg id send_ok now w).
Proof.
  unfold observer_finish.
  destruct (bool_decide (id ∈ observers w)); [|apply effect_refl].
  destruct (get_download id (db w)) as [download|] eqn:Hg;
    [|now apply eff_rows_kept].
  destruct (status download) eqn:Hs; try apply effect_refl;
    [|now apply eff_rows_kept].
  pose proof (select_by_id_In _ _ _ Hg) as [_ Hid].
  match goal with
  | |- effect _ (let '(d, w'') := _send_completed_download _ _ _ _ ?W in _) =>
      pose proof (send_completed_effect download send_ok now W) as He;
      destruct (_send_completed_download cfg download send_ok now W) as [d w''] eqn:EX
  end.
  assert (Hg' : get_download (download_id download) (db w) = Some download)
    by (now rewrite Hid).
  specialize (He Hg' Hs). simpl in He.
  eapply effect_ext; [..|exact He]; reflexivity.
Qed.

Lemma step_effect w e : effect w (step cfg w e).
Proof.
  destruct e; simpl.
  - apply eff_rows_kept; try reflexivity;
      unfold add_or_update_user; simpl; now destruct (users (db w) !! uid).
  - now apply eff_rows_kept.
  - pose proof (submit_effect r w) as H.
    destruct (handle_download_callback cfg r w) as [s w'] eqn:E. simpl in H.
    eapply effect_ext; [..|exact H]; reflexivity.
  - apply tick_effect.
  - apply progress_effect.
  - apply end_effect.
  - apply observer_effect.
  - unfold cleanup_caches. destruct (count_active_downloads (db w) =? 0);
      [now apply eff_rows_kept | apply effect_refl].
  - now apply eff_rows_kept.
Qed.
End Effects.

(** ** Invariants of the reachable worlds *)

Lemma Inv_initial : Inv initial_world.
Proof.
  constructor; simpl.
  - split; constructor.
  - discriminate.
  - constructor.
  - constructor.
Qed.

Lemma effect_moves w w' : Inv w -> effect w w' -> db_moves (db w) (db w').
Proof.
  intros I [Hr _ _ _ | uid url title fmt now Hd _ _ | id p speed eta Hd _ _
           | download s err now Hw Hin Hs Hd Hk _
           | download s path size err now Hw Hs Hd _ _
           | download now Hg Hs Hd _ _].
  - now apply db_moves_same_rows.
  - rewrite Hd. apply add_download_moves.
  - rewrite Hd. apply update_progress_moves.
  - rewrite Hd. apply update_status_moves. intros j Hj.
    rewrite (get_download_unique _ _ (inv_keys _ I) Hin) in Hj.
    inversion Hj; subst j. rewrite Hs.
    destruct Hk as [[-> _]|[-> _]]; reflexivity.
  - rewrite Hd. apply update_status_moves. intros j Hj.
    destruct (inv_worker _ I _ Hw) as (j0 & Hj0 & Hd0).
    rewrite Hj0 in Hj. inversion Hj; subst j. rewrite Hd0.
    destruct Hs as [->| ->]; reflexivity.
  - rewrite Hd. apply update_status_moves. intros j Hj.
    rewrite Hg in Hj. inversion Hj; subst j. now rewrite Hs.
Qed.

Lemma logged_moves d d' (log : list Z) :
  db_moves d d' ->
  Forall (fun id => exists j, get_download id d = Some j /\ status j <> pending) log ->
  Forall (fun id => exists j, get_download id d' = Some j /\ status j <> pending) log.
Proof.
  intros Hm Hl. eapply Forall_impl; [exact Hl|].
  intros id (j & Hj & Hp). destruct (Hm id j Hj) as (j' & Hj' & Hmv).
  exists j'. split; [exact Hj'|]. eapply status_move_not_pending; eassumption.
Qed.

Lemma effect_Inv w w' : Inv w -> effect w w' -> Inv w'.
Proof.
  intros I E. pose proof (effect_moves w w' I E) as Hm.
  destruct E as [Hr Hq Hwk Hl | uid url title fmt now Hd Hwk Hl
                | id p speed eta Hd Hwk Hl
                | download s err now Hw Hin Hs Hd Hk Hl
                | download s path size err now Hw Hs Hd Hwk Hl
                | download now Hg Hs Hd Hwk Hl].
  - (* the rows are the same *)
    constructor.
    + destruct (inv_keys _ I) as [K1 K2]. unfold keys_ok. now rewrite Hr, Hq.
    + intros d Hd. rewrite Hwk in Hd. destruct (inv_worker _ I d Hd) as (j & Hj & Hs).
      exists j. split; [|exact Hs]. unfold get_download in *. now rewrite Hr.
    + rewrite Hl. eapply logged_moves; [exact Hm | apply (inv_logged _ I)].
    + rewrite Hl. apply (inv_log_once _ I).
  - (* a row is inserted *)
    constructor.
    + rewrite Hd. apply keys_ok_add_download, (inv_keys _ I).
    + intros d Hd'. rewrite Hwk in Hd'.
      destruct (inv_worker _ I d Hd') as (j & Hj & Hs).
      exists j. split; [|exact Hs]. rewrite Hd. unfold get_download in *. simpl.
      now apply select_by_id_app.
    + rewrite Hl. eapply logged_moves; [exact Hm | apply (inv_logged _ I)].
    + rewrite Hl. apply (inv_log_once _ I).
  - (* progress is written *)
    constructor.
    + rewrite Hd. apply keys_ok_update_progress, (inv_keys _ I).
    + intros d Hd'. rewrite Hwk in Hd'.
      destruct (inv_worker _ I d Hd') as (j & Hj & Hs).
      rewrite Hd, get_download_update_progress, Hj.
      destruct (download_id d =? id); eexists; split; try reflexivity; exact Hs.
    + rewrite Hl. eapply logged_moves; [exact Hm | apply (inv_logged _ I)].
    + rewrite Hl. apply (inv_log_once _ I).
  - (* a pending job is handed to the executor *)
    pose proof (get_download_unique _ _ (inv_keys _ I) Hin) as Hg.
    assert (Hnew : exists j, get_download (download_id download) (db w') = Some j
                             /\ status j = s).
    { rewrite Hd, get_download_update_status_same, Hg. simpl.
      eexists; split; reflexivity. }
    constructor.
    + rewrite Hd. apply keys_ok_update_status, (inv_keys _ I).
    + intros d Hd'. destruct Hk as [[-> Hk]|[-> Hk]]; rewrite Hk in Hd'; [|discriminate].
      inversion Hd'; subst d. exact Hnew.
    + rewrite Hl. apply Forall_app. split.
      * eapply logged_moves; [exact Hm | apply (inv_logged _ I)].
      * constructor; [|constructor]. destruct Hnew as (j & Hj & Hsj).
        exists j. split; [exact Hj|]. rewrite Hsj.
        destruct Hk as [[-> _]|[-> _]]; discriminate.
    + rewrite Hl. apply NoDup_app. split; [apply (inv_log_once _ I)|]. split.
      * intros x Hx Hx'. apply list_elem_of_singleton in Hx'. subst x.
        pose proof (inv_logged _ I) as Hlg. rewrite Forall_forall in Hlg.
        destruct (Hlg _ Hx) as (j & Hj & Hp).
        rewrite Hg in Hj. inversion Hj; subst j. contradiction.
      * apply NoDup_singleton.
  - (* the executor writes the last status *)
    constructor.
    + rewrite Hd. apply keys_ok_update_status, (inv_keys _ I).
    + intros d Hd'. rewrite Hwk in Hd'. discriminate.
    + rewrite Hl. eapply logged_moves; [exact Hm | apply (inv_logged _ I)].
    + rewrite Hl. apply (inv_log_once _ I).
  - (* delivery marks a completed job as sending *)
    constructor.
    + rewrite Hd. apply keys_ok_update_status, (inv_keys _ I).
    + intros d Hd'. rewrite Hwk in Hd'.
      destruct (inv_worker _ I d Hd') as (j & Hj & Hsj).
      exists j. split; [|exact Hsj]. rewrite Hd.
      rewrite get_download_update_status_other; [exact Hj|].
      intros Heq. rewrite Heq, Hg in Hj. inversion Hj; subst j. congruence.
    + rewrite Hl. eapply logged_moves; [exact Hm | apply (inv_logged _ I)].
    + rewrite Hl. apply (inv_log_once _ I).
Qed.

Section Runs.
Context (cfg : Config).

Lemma run_cons w e es : run cfg w (e :: es) = run cfg (step cfg w e) es.
Proof. reflexivity. Qed.

Lemma Inv_step w e : Inv w -> Inv (step cfg w e).
Proof. intros I. eapply effect_Inv; [exact I | apply step_effect]. Qed.

Lemma Inv_run w es : Inv w -> Inv (run cfg w es).
Proof.
  revert w. induction es as [|e es IH]; intros w I; [exact I|].
  rewrite run_cons. apply IH, Inv_step, I.
Qed.

Lemma Inv_reachable w : reachable cfg w -> Inv w.
Proof. intros [es ->]. apply Inv_run, Inv_initial. Qed.

Lemma step_moves w e : Inv w -> db_moves (db w) (db (step cfg w e)).
Proof. intros I. apply effect_moves; [exact I | apply step_effect]. Qed.

(** A status that only moves to itself is kept along every run. *)
Lemma run_keeps_status (s : Status) :
  (forall b, status_move s b = true -> b = s) ->
  forall es w id j,
    Inv w -> get_download id (db w) = Some j -> status j = s ->
    exists j', get_download id (db (run cfg w es)) = Some j' /\ status j' = s.
Proof.
  intros Hs. induction es as [|e es IH]; intros w id j I Hj Hsj.
  - exists j. now split.
  - rewrite run_cons.
    destruct (step_moves w e I id j Hj) as (j1 & Hj1 & Hm).
    rewrite Hsj in Hm. apply Hs in Hm.
    eapply IH; [apply Inv_step, I | exact Hj1 | exact Hm].
Qed.
End Runs.

(** ** The jobs in flight *)

Lemma update_where_id_In id f rows r' :
  In r' (update_where_id id f rows) ->
  exists r, In r rows /\ ((download_id r <> id /\ r' = r) \/ (download_id r = id /\ r' = f r)).
Proof.
  unfold update_where_id. intros H. apply in_map_iff in H as (r & Hr & Hin).
  exists r. split; [exact Hin|].
  destruct (download_id r =? id) eqn:E.
  - apply Z.eqb_eq in E. right. now split.
  - apply Z.eqb_neq in E. left. now split.
Qed.

Lemma effect_in_flight w w' :
  Inv w -> only_worker_in_flight w -> effect w w' -> only_worker_in_flight w'.
Proof.
  intros I F E r' Hin' Hfl.
  destruct E as [Hr Hq Hwk Hl | uid url title fmt now Hd Hwk Hl
                | id p speed eta Hd Hwk Hl
                | download s err now Hw Hin Hs Hd Hk Hl
                | download s path size err now Hw Hs Hd Hwk Hl
                | download now Hg Hs Hd Hwk Hl].
  - rewrite Hr in Hin'. rewrite Hwk. now apply F.
  - rewrite Hd in Hin'. simpl in Hin'. apply in_app_iff in Hin' as [Hin'|[<-|[]]].
    + rewrite Hwk. now apply F.
    + discriminate Hfl.
  - rewrite Hd in Hin'. simpl in Hin'.
    apply update_where_id_In in Hin' as (r & Hin & [[_ ->]|[_ ->]]);
      simpl in *; rewrite Hwk; now apply F.
  - rewrite Hd in Hin'. simpl in Hin'.
    apply update_where_id_In in Hin' as (r & Hinr & [[_ ->]|[Hid ->]]).
    + destruct (F r Hinr Hfl) as (d & Hd' & _). congruence.
    + simpl in Hfl. destruct Hk as [[-> Hk]|[-> Hk]]; [|discriminate Hfl].
      exists download. split; [exact Hk|]. simpl. now rewrite Hid.
  - rewrite Hd in Hin'. simpl in Hin'.
    apply update_where_id_In in Hin' as (r & Hinr & [[Hne ->]|[_ ->]]).
    + destruct (F r Hinr Hfl) as (d & Hd' & Hid). congruence.
    + simpl in Hfl. destruct Hs as [-> | ->]; discriminate Hfl.
  - rewrite Hd in Hin'. simpl in Hin'.
    apply update_where_id_In in Hin' as (r & Hinr & [[_ ->]|[_ ->]]).
    + rewrite Hwk. now apply F.
    + discriminate Hfl.
Qed.

Lemma run_in_flight cfg es : only_worker_in_flight (run cfg initial_world es).
Proof.
  assert (G : forall es w, Inv w -> only_worker_in_flight w ->
                           only_worker_in_flight (run cfg w es)).
  { clear es. induction es as [|e es IH]; intros w I F; [exact F|].
    rewrite run_cons. apply IH; [apply Inv_step, I|].
    eapply effect_in_flight; [exact I | exact F | apply step_effect]. }
  apply G; [apply Inv_initial|]. intros r [].
Qed.

Lemma at_most_one_with_key (P : Job -> bool) (c : Z) rows :
  NoDup (List.map download_id rows) ->
  (forall r, In r rows -> P r = true -> download_id r = c) ->
  (List.length (List.filter P rows) <= 1)%nat.
Proof.
  induction rows as [|r rows IH]; simpl; intros Hn Hc; [lia|].
  apply NoDup_cons in Hn as [Hnotin Hn].
  destruct (P r) eqn:E; [|apply IH; auto].
  assert (Hnone : List.filter P rows = []).
  { destruct (List.filter P rows) as [|r2 l] eqn:Ef; [reflexivity|]. exfalso.
    assert (Hin2 : In r2 (List.filter P rows)) by (rewrite Ef; now left).
    apply filter_In in Hin2 as [Hin2 HP2].
    apply Hnotin. rewrite (Hc r (or_introl eq_refl) E), <- (Hc r2 (or_intror Hin2) HP2).
    apply list_elem_of_In, in_map, Hin2. }
  rewrite Hnone. simpl. lia.
Qed.

(** The part of the cap that does hold: the worker runs the executor
    itself, so in every reachable state at most one job is downloading or
    converting, whatever the configured cap. *)
Lemma in_flight_at_most_one (cfg : Config) (es : list Event) :
  (List.length (List.filter (fun r => in_flight (status r))
                  (downloads (db (run cfg initial_world es)))) <= 1)%nat.
Proof.
  pose proof (run_in_flight cfg es) as F.
  pose proof (Inv_run cfg initial_world es Inv_initial) as I.
  destruct (inv_keys _ I) as [Hn _].
  destruct (worker_job (run cfg initial_world es)) as [d|] eqn:Hw.
  - apply (at_most_one_with_key _ (download_id d)); [exact Hn|].
    intros r Hin Hfl. destruct (F r Hin Hfl) as (d' & Hd' & Hid). congruence.
  - apply (at_most_one_with_key _ 0); [exact Hn|].
    intros r Hin Hfl. destruct (F r Hin Hfl) as (d' & Hd' & _). congruence.
Qed.

(** No row ever has the status converting: the program writes this value
    nowhere. *)
Lemma never_converting (cfg : Config) (es : list Event) (r : Job) :
  In r (downloads (db (run cfg initial_world es))) -> status r <> converting.
Proof.
  intros Hin Hc.
  pose proof (run_in_flight cfg es) as F.
  pose proof (Inv_run cfg initial_world es Inv_initial) as I.
  destruct (F r Hin) as (d & Hd & Hid); [now rewrite Hc|].
  destruct (inv_worker _ I d Hd) as (j & Hj & Hs).
  rewrite Hid, (get_download_unique _ _ (inv_keys _ I) Hin) in Hj.
  inversion Hj; subst j. congruence.
Qed.

(** ** The result cache while the row is still completed *)

Lemma opt_text_ltb_false_leb a b :
  opt_text_ltb (Some a) (Some b) = false <-> String.leb b a = true.
Proof.
  simpl. unfold String.ltb, String.leb. rewrite (String.compare_antisym b a).
  destruct (String.compare a b); simpl; split; congruence.
Qed.

Lemma not_older_refl r : not_older r r.
Proof.
  unfold not_older. destruct (completed_at r) as [a|]; [|reflexivity].
  apply opt_text_ltb_false_leb, string_leb_refl.
Qed.

Lemma not_older_step b r r' :
  opt_text_ltb (completed_at b) (completed_at r) = true ->
  not_older b r' -> not_older r r'.
Proof.
  unfold not_older.
  destruct (completed_at b) as [x|], (completed_at r) as [y|], (completed_at r') as [z|];
    try reflexivity; try discriminate; intros H1 H2.
  apply opt_text_ltb_false_leb. apply opt_text_ltb_false_leb in H2.
  eapply string_leb_trans; [exact H2|].
  simpl in H1. unfold String.ltb in H1. unfold String.leb.
  destruct (String.compare x y); congruence.
Qed.

Lemma fold_newer_spec rows best :
  match List.fold_left newer rows best with
  | None => best = None /\ rows = []
  | Some r =>
      (best = Some r \/ In r rows)
      /\ (forall b, best = Some b -> not_older r b)
      /\ (forall r', In r' rows -> not_older r r')
  end.
Proof.
  revert best. induction rows as [|x rows IH]; intros best; simpl.
  - destruct best as [b|]; [|now split].
    split; [now left|]. split; [|intros ? []].
    intros b' E. inversion E; subst. apply not_older_refl.
  - specialize (IH (newer best x)).
    destruct (List.fold_left newer rows (newer best x)) as [r|].
    + destruct IH as (Hsrc & Hb & Hrows). unfold newer in Hsrc, Hb.
      destruct best as [b|].
      * destruct (opt_text_ltb (completed_at b) (completed_at x)) eqn:E.
        -- split; [destruct Hsrc as [Hs|Hs]; [inversion Hs; subst; auto | auto]|].
           split.
           ++ intros b' Eb. inversion Eb; subst b'.
              assert (Hx : not_older r x) by (apply Hb; reflexivity).
              unfold not_older in *.
              destruct (completed_at r) as [y|], (completed_at b) as [z|],
                       (completed_at x) as [u|]; try reflexivity; try discriminate.
              apply opt_text_ltb_false_leb. apply opt_text_ltb_false_leb in Hx.
              eapply string_leb_trans; [|exact Hx].
              simpl in E. unfold String.ltb in E. unfold String.leb.
              destruct (String.compare z u); congruence.
           ++ intros r' [<-|Hin]; [apply Hb; reflexivity | now apply Hrows].
        -- split; [destruct Hsrc as [Hs|Hs]; auto|].
           split; [exact Hb|].
           intros r' [<-|Hin]; [|now apply Hrows].
           assert (Hrb : not_older r b) by (apply Hb; reflexivity).
           unfold not_older in *.
           destruct (completed_at r) as [y|], (completed_at b) as [z|],
                    (completed_at x) as [u|]; try reflexivity; try discriminate.
           apply opt_text_ltb_false_leb. apply opt_text_ltb_false_leb in Hrb.
           apply opt_text_ltb_false_leb in E.
           eapply string_leb_trans; eassumption.
      * split; [destruct Hsrc as [Hs|Hs]; [inversion Hs; subst; auto | auto]|].
        split; [discriminate|].
        intros r' [<-|Hin]; [apply Hb; reflexivity | now apply Hrows].
    + destruct IH as [Hn _]. unfold newer in Hn.
      destruct best as [b|]; [|discriminate].
      destruct (opt_text_ltb (completed_at b) (completed_at x)); discriminate.
Qed.

(** The lookup returns a completed row for the locator and format that has
    a path, and no such row was completed later. *)
Lemma lookup_finds_newest_match url fmt d r :
  get_completed_download_by_url_format url fmt d = Some r ->
  In r (downloads d)
  /\ video_url r = url /\ format r = Some fmt /\ status r = completed
  /\ is_Some (file_path r)
  /\ (forall r', In r' (downloads d) -> cache_match url fmt r' = true -> not_older r r').
Proof.
  unfold get_completed_download_by_url_format. intros H.
  pose proof (fold_newer_spec (List.filter (cache_match url fmt) (downloads d)) None) as S.
  rewrite H in S. destruct S as ([S|S] & _ & Hmax); [discriminate|].
  apply filter_In in S as [Hin Hm]. split; [exact Hin|].
  unfold cache_match in Hm. repeat (apply andb_true_iff in Hm as [Hm ?]).
  apply String.eqb_eq in Hm.
  assert (Hf : format r = Some fmt).
  { destruct (format r) as [x|]; [|discriminate]. simpl in *.
    f_equal. now apply String.eqb_eq. }
  repeat split; auto.
  - now apply Status_eqb_eq.
  - eapply bool_decide_eq_true_1; eassumption.
  - intros r' Hin' Hm'. apply Hmax. apply filter_In. now split.
Qed.

(** A request that hits the cache leaves the whole state as it is: no row
    is added and none is changed. *)
Lemma cache_hit_adds_no_row cfg r w url cached p :
  req_from_user r = req_user_id r ->
  truthy (req_url r) = Some url ->
  get_completed_download_by_url_format url (req_format r) (db w) = Some cached ->
  truthy (file_path cached) = Some p ->
  path_exists w p = true ->
  handle_download_callback cfg r w
  = (from_cache cached (_send_cached_file cfg cached (req_send_ok r) w), w).
Proof.
  intros H1 H2 H3 H4 H5. unfold handle_download_callback.
  rewrite H1, Z.eqb_refl. simpl. rewrite H2, H3, H4, H5. reflexivity.
Qed.

(** * The claims *)

(** ** C1: admission *)

(** C1, as worded, fails: the update that admits a job is not guarded by the
    current status.  Applied to a completed job it succeeds as well, and the
    executor would run the job again. *)
Lemma admission_update_is_not_conditional :
  let w := world_with finished_job 60000000 in
  let w' := process_download_begin finished_job None "2026-11-03T09:06:00" w in
  status finished_job = completed
  /\ (status <$> get_download 1 (db w)) = Some completed
  /\ (status <$> get_download 1 (db w')) = Some downloading
  /\ (download_id <$> worker_job w') = Some 1
  /\ ~ (forall (d : Database) (id : Z) (now : string) (j : Job),
           get_download id d = Some j -> status j <> pending ->
           update_download_status id downloading None None None now d = d).
Proof.
  intros w w'. repeat split; try (vm_compute; reflexivity).
  intros H.
  specialize (H finished_db 1 "2026-11-03T09:06:00" finished_job eq_refl).
  assert (E : downloads (update_download_status 1 downloading None None None
                           "2026-11-03T09:06:00" finished_db) = downloads finished_db)
    by (rewrite H; [reflexivity | discriminate]).
  vm_compute in E. discriminate E.
Qed.

(** C1, amended.  The update that admits a job is unconditional: whatever
    the status of the row, it is downloading afterwards, so a second
    invocation on the same job is not refused; it finds the row downloading
    and only the first of two invocations on a pending job moves it from
    pending to downloading.  Admission is exactly-once because of the
    scheduler: its single loop hands only the head of the pending queue to
    the executor, and in every run no job is handed over twice. *)
Theorem admission_once_per_job :
  (forall (w : World) (download j : Job) (now : string),
      get_download (download_id download) (db w) = Some j ->
      status <$> get_download (download_id download)
                   (db (process_download_begin download None now w))
      = Some downloading)
  /\ (forall (w : World) (download j : Job) (now1 now2 : string),
         get_download (download_id download) (db w) = Some j ->
         status j = pending ->
         let w1 := process_download_begin download None now1 w in
         let w2 := process_download_begin download None now2 w1 in
         status <$> get_download (download_id download) (db w1) = Some downloading
         /\ status <$> get_download (download_id download) (db w2) = Some downloading)
  /\ (forall (cfg : Config) (es : list Event),
         NoDup (processing_log (run cfg initial_world es))).
Proof.
  assert (A : forall (w : World) (download j : Job) (now : string),
             get_download (download_id download) (db w) = Some j ->
             status <$> get_download (download_id download)
                          (db (process_download_begin download None now w))
             = Some downloading).
  { intros w download j now Hj. unfold process_download_begin. simpl.
    rewrite get_download_update_status_same, Hj. reflexivity. }
  split; [exact A|]. split.
  - intros w download j now1 now2 Hj Hs w1 w2.
    assert (H1 : status <$> get_download (download_id download) (db w1) = Some downloading)
      by (eapply A; exact Hj).
    split; [exact H1|].
    destruct (get_download (download_id download) (db w1)) as [j1|] eqn:Hj1;
      [|discriminate H1].
    eapply A; exact Hj1.
  - intros cfg es. apply inv_log_once, Inv_run, Inv_initial.
Qed.

Lemma admission_once_per_job_witness :
  let w := run config_2_50 initial_world trace_until_submitted in
  let w1 := process_download_begin job_1_pending None "2026-11-03T09:00:01" w in
  let w2 := process_download_begin job_1_pending None "2026-11-03T09:00:02" w1 in
  get_download 1 (db w) = Some job_1_pending
  /\ status <$> get_download 1 (db w1) = Some downloading
  /\ status <$> get_download 1 (db w2) = Some downloading.
Proof.
  intros w w1 w2.
  assert (Hj : get_download 1 (db w) = Some job_1_pending) by (vm_compute; reflexivity).
  split; [exact Hj|].
  destruct admission_once_per_job as (_ & H & _).
  exact (H w job_1_pending job_1_pending "2026-11-03T09:00:01" "2026-11-03T09:00:02"
           Hj eq_refl).
Defined.

(** ** C2: the concurrency cap *)

(** C2 at a failing input, with a cap of two.  Job 1 is delivered and stays
    in sending; job 2 finishes; while its observer has not run yet the
    scheduler sees one active job and admits job 3; then the observer of job
    2 moves it to sending: three jobs are counted as active. *)
Theorem cap_exceeded_through_delivery :
  let w := run config_2_50 initial_world trace_over_cap in
  List.map status (downloads (db w)) = [sending; sending; downloading]
  /\ count_active_downloads (db w) = 3
  /\ MAX_CONCURRENT_DOWNLOADS config_2_50 < count_active_downloads (db w).
Proof. vm_compute. repeat split; reflexivity. Qed.

(** ** C3: the order of the pending queue *)

(** C3, as the specification words it, fails: with a time-bounded user
    submitting before an unbounded one, the query returns the time-bounded
    user's job first, where three tiers would put the unbounded one first. *)
Lemma three_tier_order_refuted :
  get_all_pending_downloads (sqlite_datetime clock_now) timed_before_unbounded_db
  = [pending_job 1 3 "2026-11-03 12:00:00"; pending_job 2 2 "2026-11-03 12:00:10"]
  /\ spec_list_pending (sqlite_datetime clock_now) timed_before_unbounded_db
     = [pending_job 2 2 "2026-11-03 12:00:10"; pending_job 1 3 "2026-11-03 12:00:00"]
  /\ get_all_pending_downloads (sqlite_datetime clock_now) timed_before_unbounded_db
     <> spec_list_pending (sqlite_datetime clock_now) timed_before_unbounded_db.
Proof.
  assert (H1 : get_all_pending_downloads (sqlite_datetime clock_now)
                 timed_before_unbounded_db
               = [pending_job 1 3 "2026-11-03 12:00:00";
                  pending_job 2 2 "2026-11-03 12:00:10"]) by (vm_compute; reflexivity).
  assert (H2 : spec_list_pending (sqlite_datetime clock_now) timed_before_unbounded_db
               = [pending_job 2 2 "2026-11-03 12:00:10";
                  pending_job 1 3 "2026-11-03 12:00:00"]) by (vm_compute; reflexivity).
  split; [exact H1|]. split; [exact H2|].
  rewrite H1, H2. intros E. inversion E.
Qed.

(** C3, amended.  [get_all_pending_downloads] returns the pending jobs whose
    owner has a [users] row, ordered in two tiers: jobs of users with
    unbounded or unexpired time-bounded priority first (the two upper tiers
    of the specification share rank 0), then all others, and by creation
    time within a tier.  For three jobs submitted in this order by users
    with no priority, unbounded priority and unexpired time-bounded
    priority, the order is unbounded, time-bounded, none. *)
Theorem pending_queue_two_tiers :
  (forall now D,
      exists q,
        get_all_pending_downloads now D = List.map fst q
        /\ Permutation (pending_join D) q
        /\ StronglySorted (two_tier_le now) q)
  /\ (forall now u, priority_rank now u = if spec_tier now u <? 2 then 0 else 1)
  /\ (forall now us n j1 j2 j3 u1 u2 u3 p,
         status j1 = pending -> status j2 = pending -> status j3 = pending ->
         us !! user_id j1 = Some u1 -> us !! user_id j2 = Some u2 ->
         us !! user_id j3 = Some u3 ->
         u_priority_until u1 = None ->
         u_priority_until u2 = Some "INFINITE" ->
         u_priority_until u3 = Some p -> text_gtb p now = true ->
         String.leb (created_at j1) (created_at j2) = true ->
         String.leb (created_at j2) (created_at j3) = true ->
         get_all_pending_downloads now
           {| users := us; downloads := [j1; j2; j3]; seq_downloads := n |}
         = [j2; j3; j1]).
Proof.
  split; [|split].
  - intros now D. exists (order_by (order_le now) (pending_join D)).
    split; [reflexivity|]. split; [apply order_by_perm|].
    assert (S := order_by_sorted (order_le now) (order_le_total now)
                   (order_le_trans now) (pending_join D)).
    induction S as [|a l S IH Hall]; constructor; [exact IH|].
    eapply Forall_impl; [exact Hall|]. intros b Hb. now apply order_le_two_tier.
  - intros now u. unfold priority_rank, spec_tier.
    destruct (u_priority_until u) as [p|]; [|reflexivity].
    destruct (String.eqb p "INFINITE"); [reflexivity|].
    simpl. destruct (text_gtb p now); reflexivity.
  - intros now us n j1 j2 j3 u1 u2 u3 p S1 S2 S3 L1 L2 L3 P1 P2 P3 Hp C12 C23.
    assert (R1 : priority_rank now u1 = 1) by (unfold priority_rank; now rewrite P1).
    assert (R2 : priority_rank now u2 = 0) by (unfold priority_rank; now rewrite P2).
    assert (R3 : priority_rank now u3 = 0).
    { unfold priority_rank. rewrite P3, Hp. now rewrite orb_true_r. }
    assert (E23 : order_le now (j2, u2) (j3, u3) = true).
    { unfold order_le. simpl. rewrite R2, R3, C23. reflexivity. }
    assert (E12 : order_le now (j1, u1) (j2, u2) = false).
    { unfold order_le. simpl. rewrite R1, R2. reflexivity. }
    assert (E13 : order_le now (j1, u1) (j3, u3) = false).
    { unfold order_le. simpl. rewrite R1, R3. reflexivity. }
    unfold get_all_pending_downloads, pending_join. simpl.
    rewrite S1, S2, S3, L1, L2, L3. simpl.
    rewrite E23. cbn iota. cbn [insert_row]. rewrite E12. cbn iota.
    cbn [insert_row]. rewrite E13. reflexivity.
Qed.

Lemma pending_queue_two_tiers_witness :
  get_all_pending_downloads (sqlite_datetime clock_now) three_users_db
  = [pending_job 2 2 "2026-11-03 12:00:10";
     pending_job 3 3 "2026-11-03 12:00:20";
     pending_job 1 1 "2026-11-03 12:00:00"].
Proof.
  destruct pending_queue_two_tiers as (_ & _ & H).
  apply (H (sqlite_datetime clock_now) (users three_users_db) 3
           (pending_job 1 1 "2026-11-03 12:00:00")
           (pending_job 2 2 "2026-11-03 12:00:10")
           (pending_job 3 3 "2026-11-03 12:00:20")
           (user_with 1 None) (user_with 2 (Some "INFINITE"))
           (user_with 3 (Some (isoformat five_days_later)))
           (isoformat five_days_later));
    vm_compute; reflexivity.
Defined.

(** ** C4: the order of the statuses *)

Lemma status_move_cases a b :
  status_move a b = true <->
  a = b
  \/ (a = pending /\ b = downloading) \/ (a = pending /\ b = failed)
  \/ (a = downloading /\ b = completed) \/ (a = downloading /\ b = failed)
  \/ (a = completed /\ b = sending).
Proof.
  split.
  - destruct a, b; simpl; intros H; try discriminate H; tauto.
  - intros [->|[[-> ->]|[[-> ->]|[[-> ->]|[[-> ->]|[-> ->]]]]]];
      [apply status_move_refl | reflexivity ..].
Qed.

(** C4 at a failing input.  Job 1 is fetched and completed; the delivery
    step then writes sending on the completed row, a step backwards along
    the sequence pending, downloading, converting, sending, completed.  The
    job is from then on counted among the active ones, as a job that has
    not been completed yet. *)
Theorem completed_job_moves_to_sending :
  let before := run config_2_50 initial_world trace_until_completed in
  let after := step config_2_50 before (ev_observer 1 true "2026-11-03T09:05:01") in
  (status <$> get_download 1 (db before)) = Some completed
  /\ (status <$> get_download 1 (db after)) = Some sending
  /\ spec_status_move completed sending = false
  /\ spec_status_rank sending < spec_status_rank completed
  /\ count_active_downloads (db before) = 0
  /\ count_active_downloads (db after) = 1.
Proof. vm_compute. repeat split; reflexivity. Qed.

(** X22.  The moves the program makes.  In every reachable state a stored
    job is never converting, and an event leaves it stored and either keeps
    its status or makes one of the moves pending to downloading, pending to
    failed, downloading to completed, downloading to failed, completed to
    sending.  Along every run the status of a job never moves backwards in
    the order pending, downloading, converting, completed, sending, failed:
    no job returns to pending, and a failed job stays failed. *)
Theorem status_moves_forward :
  forall (cfg : Config) (es : list Event) (id : Z) (j : Job),
    let w := run cfg initial_world es in
    get_download id (db w) = Some j ->
    status j <> converting
    /\ (forall e, exists j',
           get_download id (db (step cfg w e)) = Some j'
           /\ (status j' = status j
               \/ (status j = pending /\ status j' = downloading)
               \/ (status j = pending /\ status j' = failed)
               \/ (status j = downloading /\ status j' = completed)
               \/ (status j = downloading /\ status j' = failed)
               \/ (status j = completed /\ status j' = sending)))
    /\ (forall es', exists j',
           get_download id (db (run cfg w es')) = Some j'
           /\ status_rank (status j) <= status_rank (status j')).
Proof.
  intros cfg es id j w Hj.
  assert (I : Inv w) by (apply Inv_run, Inv_initial).
  split; [|split].
  - apply (never_converting cfg es). now apply select_by_id_In in Hj.
  - intros e. destruct (step_moves cfg w e I id j Hj) as (j' & Hj' & Hm).
    exists j'. split; [exact Hj'|].
    apply status_move_cases in Hm. intuition congruence.
  - intros es'. clearbody w. revert w j I Hj.
    induction es' as [|e es' IH]; intros w j I Hj.
    + exists j. split; [exact Hj | lia].
    + rewrite run_cons.
      destruct (step_moves cfg w e I id j Hj) as (j1 & Hj1 & Hm).
      destruct (IH (step cfg w e) j1 (Inv_step cfg w e I) Hj1) as (j' & Hj' & Hr).
      exists j'. split; [exact Hj'|].
      apply status_move_forward in Hm. lia.
Qed.

Lemma status_moves_forward_witness :
  exists j',
    get_download 1 (db (step config_2_50 (run config_2_50 initial_world trace_until_submitted)
                          (ev_tick "2026-11-03 09:00:01" None "2026-11-03T09:00:01")))
    = Some j'
    /\ status j' = downloading.
Proof.
  destruct (status_moves_forward config_2_50 trace_until_submitted 1 job_1_pending)
    as (_ & H & _).
  - vm_compute; reflexivity.
  - destruct (H (ev_tick "2026-11-03 09:00:01" None "2026-11-03T09:00:01"))
      as (j' & Hj' & _).
    exists j'. split; [exact Hj'|].
    vm_compute in Hj'. inversion Hj'; reflexivity.
Defined.

(** ** C5: a priority that expired earlier today *)

(** On the day of expiry the ISO text of the instant is greater than the
    text of [datetime('now')] whatever the two times of day are: they agree
    on the date and then [T] is compared with a space. *)
Lemma same_day_rank (u : User) (until now : DateTime) :
  u_priority_until u = Some (isoformat until) ->
  date_text until = date_text now ->
  priority_rank (sqlite_datetime now) u = 0.
Proof.
  intros Hu Hd. unfold priority_rank. rewrite Hu.
  replace (text_gtb (isoformat until) (sqlite_datetime now)) with true;
    [now rewrite orb_true_r|].
  unfold text_gtb, String.ltb, isoformat, sqlite_datetime.
  rewrite Hd, string_compare_app. reflexivity.
Qed.

(** C5 at a failing input.  User 2 holds a priority that ran out at 09:00
    today.  At 13:00 this is an instant in the past, yet the later job of
    user 2 is ordered before the earlier job of user 1, who has no priority;
    with NULL in the column of user 2 the earlier job comes first. *)
Theorem expired_today_still_ranks_first :
  (u_priority_until <$> users expired_db !! 2) = Some (Some "2026-11-03T09:00:00")
  /\ dt_ltb earlier_today clock_now = true
  /\ get_all_pending_downloads (sqlite_datetime clock_now) expired_db
     = [pending_job 2 2 "2026-11-03 12:30:00"; pending_job 1 1 "2026-11-03 12:00:00"]
  /\ get_all_pending_downloads (sqlite_datetime clock_now)
       (admin_remove_priority 2 expired_db)
     = [pending_job 1 1 "2026-11-03 12:00:00"; pending_job 2 2 "2026-11-03 12:30:00"].
Proof. repeat split; vm_compute; reflexivity. Qed.

(** ** C6: the result cache after delivery *)

(** C6 at a failing input.  Job 1 for L in 720p finishes with a 60 MB
    artifact.  Asked again before the observer of job 1 has run, the lookup
    finds job 1 and no row is added.  Once the observer has handed out the
    link the artifact is still on disk, but the row of job 1 no longer
    matches the lookup (its status is sending and its path is NULL): the
    same request misses the cache and a second row is inserted. *)
Theorem cache_lost_after_link_delivery :
  let again := ev_submit (request_720p "https://example.org/L" 101 "2026-11-03 09:06:00") in
  let before := run config_2_50 initial_world trace_until_completed in
  let after := run config_2_50 initial_world trace_until_delivered in
  (* before delivery: a hit *)
  (exists j d, submissions (step config_2_50 before again) = [queued 1; from_cache j d]
               /\ download_id j = 1)
  /\ List.length (downloads (db (step config_2_50 before again))) = 1%nat
  (* after delivery: the file is there, the lookup misses *)
  /\ deliveries after = [(1, delivered_link "storage/7/L.mp4")]
  /\ files after !! "storage/7/L.mp4" = Some 60000000
  /\ get_completed_download_by_url_format "https://example.org/L" "720p" (db after) = None
  /\ submissions (step config_2_50 after again) = [queued 1; queued 2]
  /\ List.length (downloads (db (step config_2_50 after again))) = 2%nat.
Proof.
  vm_compute. repeat split; try reflexivity.
  eexists _, _. split; reflexivity.
Qed.

(** ** C7: a failed fetch *)

(** The classes [download_video] assigns are the categories the observer
    reads back from the stored text; the text of the handler for
    [subprocess.TimeoutExpired] is read back as a timeout. *)
Lemma download_video_classes :
  friendly_error "video_geo_blocked" "video_geo_blocked" = geo_restricted
  /\ friendly_error "video_private" "video_private" = private_video
  /\ friendly_error "video_unavailable" "video_unavailable" = unavailable
  /\ friendly_error "Download timeout" "download timeout" = timeout
  /\ friendly_error "Download failed" "download failed" = other.
Proof. vm_compute. repeat split; reflexivity. Qed.

Lemma download_error_geo msg m :
  contains "geo" m || contains "blocked" m = true ->
  fetch_error (download_video (yt_download_error msg m)) = Some "video_geo_blocked".
Proof. intros H. unfold download_video. now rewrite H. Qed.

(** An exception in the executor itself, before the fetch: the handlers mark
    the job as failed with the text of the exception. *)
Lemma executor_exception_ends_failed download e now w j :
  get_download (download_id download) (db w) = Some j ->
  exists j',
    get_download (download_id download)
      (db (process_download_begin download (Some e) now w)) = Some j'
    /\ status j' = failed /\ error_message j' = Some (exc_message e)
    /\ worker_job (process_download_begin download (Some e) now w) = worker_job w.
Proof.
  intros Hj. unfold process_download_begin. simpl.
  rewrite get_download_update_status_same, Hj. simpl.
  eexists; repeat split; reflexivity.
Qed.

(** X23.  When the fetch of an admitted job does not succeed (the download
    fails, no file is found, or any exception is raised inside
    [download_video]), the executor's last write leaves the job failed, with
    no artifact and with this text stored on it: the class
    [download_video] chose, the text of the exception, or Download failed
    when no file was found.  The worker is free again, and after every
    further sequence of events the job is still failed, so it is neither
    downloading nor converting nor pending again. *)
Theorem failed_fetch_ends_failed :
  forall (cfg : Config) (es : list Event) (download : Job) (y : YtDlp) (now : string),
    let w := run cfg initial_world es in
    worker_job w = Some download ->
    fetch_success (download_video y) = false ->
    let w' := step cfg w (ev_fetched y now) in
    let msg := default "Download failed" (fetch_error (download_video y)) in
    (exists j,
        get_download (download_id download) (db w') = Some j
        /\ status j = failed
        /\ error_message j = Some msg
        /\ file_path j = None /\ file_size_bytes j = None /\ completed_at j = None)
    /\ msg = match y with
             | yt_done _ => "Download failed"
             | yt_download_error text m =>
                 if contains "geo" m || contains "blocked" m then "video_geo_blocked"
                 else if contains "private" m then "video_private"
                 else if contains "unavailable" m then "video_unavailable"
                 else text
             | yt_exception text => text
             end
    /\ worker_job w' = None
    /\ (forall es', exists j',
           get_download (download_id download) (db (run cfg w' es')) = Some j'
           /\ status j' = failed).
Proof.
  intros cfg es download y now w Hw Hf w' msg.
  assert (I : Inv w) by (apply Inv_run, Inv_initial).
  destruct (inv_worker _ I _ Hw) as (j0 & Hj0 & Hs0).
  assert (Hw' : w' = with_worker_job
                       (with_db w (update_download_status (download_id download) failed
                                     None None (Some msg) now (db w))) None).
  { subst w' msg. simpl. unfold process_download_end. rewrite Hw, Hf. simpl.
    destruct y as [[[p sz]|]| |]; [discriminate Hf | reflexivity ..]. }
  assert (Hj : exists j,
             get_download (download_id download) (db w') = Some j
             /\ status j = failed /\ error_message j = Some msg
             /\ file_path j = None /\ file_size_bytes j = None /\ completed_at j = None).
  { rewrite Hw'. simpl. rewrite get_download_update_status_same, Hj0. simpl.
    eexists; repeat split; reflexivity. }
  split; [exact Hj|]. split.
  - subst msg. destruct y as [[[p sz]|]|text m|text]; try reflexivity.
    unfold download_video.
    destruct (contains "geo" m || contains "blocked" m); [reflexivity|].
    destruct (contains "private" m); [reflexivity|].
    destruct (contains "unavailable" m); reflexivity.
  - split; [now rewrite Hw'|].
    intros es'. destruct Hj as (j & Hj & Hs & _).
    eapply (run_keeps_status cfg failed status_move_failed); eauto.
    subst w'. apply Inv_step, I.
Qed.

Lemma failed_fetch_ends_failed_witness :
  exists j,
    get_download 1
      (db (step config_2_50 (run config_2_50 initial_world trace_until_admitted)
             (ev_fetched (yt_exception "Read timeout") "2026-11-03T09:10:00"))) = Some j
    /\ status j = failed
    /\ error_message j = Some "Read timeout".
Proof.
  destruct (failed_fetch_ends_failed config_2_50 trace_until_admitted job_1_pending
              (yt_exception "Read timeout") "2026-11-03T09:10:00") as [(j & H1 & H2 & H3 & _) _].
  - vm_compute; reflexivity.
  - reflexivity.
  - exists j. repeat split; assumption.
Defined.

(** C7 at a failing input.  The fetch of job 1 times out: yt-dlp raises a
    [DownloadError] whose text says that the read operation timed out.  The
    job ends failed, but what is stored on it is the raw text of the error,
    not a classification, and the category read back from that text is
    other, not timeout: a timeout is recognised only by the word timeout in
    the text.  The text that the executor's own handler for
    [subprocess.TimeoutExpired] stores is read back as a timeout. *)
Theorem fetch_timeout_is_shown_as_other :
  let text := "ERROR: unable to download video data: The read operation timed out" in
  let text_lower := "error: unable to download video data: the read operation timed out" in
  let w := run config_2_50 initial_world trace_until_admitted in
  let w' := step config_2_50 w (ev_fetched (yt_download_error text text_lower)
                                  "2026-11-03T09:10:00") in
  (status <$> get_download 1 (db w)) = Some downloading
  /\ (status <$> get_download 1 (db w')) = Some failed
  /\ (error_message <$> get_download 1 (db w')) = Some (Some text)
  /\ friendly_error text text_lower = other
  /\ friendly_error "Download timeout" "download timeout" = timeout.
Proof. vm_compute. repeat split; reflexivity. Qed.

(** ** C8: the delivery path *)

(** C8, as worded, fails for an empty artifact.  The job completes with a
    file of zero bytes; the size does not exceed the threshold, yet the
    delivery step hands nothing over inline, the file stays and the job is
    still completed. *)
Lemma empty_artifact_is_not_sent_inline :
  let w := run config_2_50 initial_world trace_empty_artifact in
  let w' := step config_2_50 w (ev_observer 1 true "2026-11-03T09:05:01") in
  (status <$> get_download 1 (db w)) = Some completed
  /\ (file_size_bytes <$> get_download 1 (db w)) = Some (Some 0)
  /\ 0 <= inline_threshold config_2_50
  /\ deliveries w' = [(1, not_delivered_empty_file)]
  /\ files w' !! "storage/7/L.mp4" = Some 0
  /\ (status <$> get_download 1 (db w')) = Some completed.
Proof. vm_compute. repeat split; congruence. Qed.

(** C8, amended.  For a completed job whose artifact exists, whose
    recorded size is not zero and whose progress message is registered, the
    delivery step chooses by the size: above the threshold (so at
    threshold + 1) it hands out a link and leaves the file where it is;
    otherwise it sends the file inline and, when the sending succeeds,
    removes the file; when the sending fails the file stays.  For a job
    without a path, for a missing file and for a recorded size of zero the
    delivery step delivers nothing and changes nothing: no write, no file
    removed. *)
Theorem delivery_by_size_threshold :
  forall (cfg : Config) (w : World) (download : Job) (send_ok : bool) (now : string),
    let r := _send_completed_download cfg download send_ok now w in
    (forall p size,
        file_path download = Some p -> p <> "" ->
        path_exists w p = true ->
        file_size_bytes download = Some size -> size <> 0 ->
        is_Some (progress_messages w !! download_id download) ->
        (inline_threshold cfg < size ->
           fst r = delivered_link p /\ files (snd r) = files w
           /\ path_exists (snd r) p = true)
        /\ (size = inline_threshold cfg + 1 -> fst r = delivered_link p)
        /\ (size <= inline_threshold cfg -> send_ok = true ->
              fst r = delivered_inline p /\ files (snd r) = delete p (files w)
              /\ path_exists (snd r) p = false)
        /\ (size <= inline_threshold cfg -> send_ok = false ->
              fst r = inline_failed p /\ files (snd r) = files w))
    /\ (file_path download = None \/ file_path download = Some "" ->
        r = (not_delivered_file_missing, w))
    /\ (forall p,
           file_path download = Some p -> path_exists w p = false ->
           r = (not_delivered_file_missing, w))
    /\ (forall p,
           file_path download = Some p -> p <> "" -> path_exists w p = true ->
           file_size_bytes download = Some 0 ->
           r = (not_delivered_empty_file, w)).
Proof.
  intros cfg w download send_ok now r.
  assert (Ht : forall p, p <> "" -> truthy (Some p) = Some p)
    by (intros p Hne; destruct p; [congruence | reflexivity]).
  split; [|split; [|split]].
  - intros p size Hp Hne Hex Hsz Hnz [m Hm].
    assert (Hr : r = if size >? inline_threshold cfg
                     then (delivered_link p,
                           with_db w (update_download_status (download_id download)
                                        sending None None None now (db w)))
                     else if send_ok
                     then (delivered_inline p,
                           with_files
                             (with_db w (update_download_status (download_id download)
                                           sending None None None now (db w)))
                             (delete p (files w)))
                     else (inline_failed p,
                           with_db w (update_download_status (download_id download)
                                        sending None None None now (db w)))).
    { subst r. unfold _send_completed_download. rewrite Hp.
      rewrite (Ht p Hne), Hex, Hsz. simpl negb. cbv iota.
      rewrite bool_decide_eq_false_2 by congruence.
      simpl progress_messages. rewrite Hm. reflexivity. }
    rewrite Hr. repeat split.
    + destruct (Z.gtb_spec size (inline_threshold cfg)); [reflexivity | lia].
    + destruct (Z.gtb_spec size (inline_threshold cfg)); [reflexivity | lia].
    + destruct (Z.gtb_spec size (inline_threshold cfg)); [exact Hex | lia].
    + intros ->. destruct (Z.gtb_spec (inline_threshold cfg + 1) (inline_threshold cfg));
        [reflexivity | lia].
    + destruct (Z.gtb_spec size (inline_threshold cfg)); [lia|]. now subst send_ok.
    + destruct (Z.gtb_spec size (inline_threshold cfg)); [lia|]. now subst send_ok.
    + destruct (Z.gtb_spec size (inline_threshold cfg)); [lia|]. subst send_ok.
      unfold path_exists. simpl. apply bool_decide_eq_false_2.
      rewrite lookup_delete_eq. intros [? ?]; discriminate.
    + destruct (Z.gtb_spec size (inline_threshold cfg)); [lia|]. now subst send_ok.
    + destruct (Z.gtb_spec size (inline_threshold cfg)); [lia|]. now subst send_ok.
  - intros [Hp|Hp]; subst r; unfold _send_completed_download; now rewrite Hp.
  - intros p Hp Hex. subst r. unfold _send_completed_download. rewrite Hp.
    destruct p as [|c p]; [reflexivity|].
    rewrite (Ht (String c p)) by discriminate. now rewrite Hex.
  - intros p Hp Hne Hex Hsz. subst r. unfold _send_completed_download.
    rewrite Hp, (Ht p Hne), Hex, Hsz. reflexivity.
Qed.

Lemma delivery_by_size_threshold_witness :
  let download := finished_job_of_size (50 * 1024 * 1024 + 1) in
  let w := world_with download (50 * 1024 * 1024 + 1) in
  let r := _send_completed_download config_2_50 download true "2026-11-03T09:05:01" w in
  fst r = delivered_link "storage/7/L.mp4"
  /\ files (snd r) !! "storage/7/L.mp4" = Some (50 * 1024 * 1024 + 1).
Proof.
  intros download w r.
  destruct (delivery_by_size_threshold config_2_50 w download true "2026-11-03T09:05:01")
    as (H & _).
  destruct (H "storage/7/L.mp4" (50 * 1024 * 1024 + 1)) as (H1 & _).
  - reflexivity.
  - discriminate.
  - vm_compute; reflexivity.
  - reflexivity.
  - lia.
  - vm_compute. eexists; reflexivity.
  - destruct H1 as (E1 & E2 & _).
    + vm_compute; reflexivity.
    + split; [exact E1|]. fold r in E2. rewrite E2. vm_compute; reflexivity.
Defined.

(** ** C9: columns left out of [update_download_status] are cleared *)

(** C9.  For every stored job and every status [s], the call
    [update_download_status(id, s)] with the path, size and error arguments
    left out stores NULL in [file_path], [file_size_bytes] and
    [error_message], and NULL in [completed_at] unless [s] is completed
    (then the clock value); the status becomes [s] and every other column
    keeps its value. *)
Theorem update_download_status_clears_omitted :
  forall (d : Database) (id : Z) (s : Status) (now : string) (j : Job),
    get_download id d = Some j ->
    exists j',
      get_download id (update_download_status id s None None None now d) = Some j'
      /\ status j' = s
      /\ file_path j' = None
      /\ file_size_bytes j' = None
      /\ error_message j' = None
      /\ completed_at j' = (if decide (s = completed) then Some now else None)
      /\ download_id j' = download_id j /\ user_id j' = user_id j
      /\ video_url j' = video_url j /\ video_title j' = video_title j
      /\ format j' = format j /\ progress j' = progress j
      /\ speed_mbps j' = speed_mbps j /\ eta_seconds j' = eta_seconds j
      /\ created_at j' = created_at j.
Proof.
  intros d id s now j Hj.
  rewrite get_download_update_status_same, Hj. simpl.
  eexists; split; [reflexivity|]. simpl.
  repeat split; try reflexivity.
  destruct s; reflexivity.
Qed.

Lemma update_download_status_clears_omitted_witness :
  get_download 1 finished_db = Some finished_job /\
  exists j',
    get_download 1 (update_download_status 1 sending None None None
                      "2026-11-03T09:05:01" finished_db) = Some j'
    /\ status j' = sending /\ file_path j' = None /\ file_size_bytes j' = None.
Proof.
  split; [reflexivity|].
  destruct (update_download_status_clears_omitted finished_db 1 sending
              "2026-11-03T09:05:01" finished_job eq_refl)
    as (j' & H1 & H2 & H3 & H4 & _).
  exists j'. repeat split; assumption.
Defined.

(** ** C10: sending is never left *)

(** C10.  Once a job has the status sending, it has this status after every
    further sequence of events: no operation writes the row's status again.
    The job is therefore counted by [count_active_downloads] in every later
    state. *)
Theorem sending_is_absorbing :
  forall (cfg : Config) (es es' : list Event) (id : Z) (j : Job),
    let w := run cfg initial_world es in
    get_download id (db w) = Some j -> status j = sending ->
    exists j',
      get_download id (db (run cfg w es')) = Some j'
      /\ status j' = sending
      /\ is_active (status j') = true
      /\ 1 <= count_active_downloads (db (run cfg w es')).
Proof.
  intros cfg es es' id j w Hj Hs.
  assert (I : Inv w) by (apply Inv_run, Inv_initial).
  destruct (run_keeps_status cfg sending status_move_sending es' w id j I Hj Hs)
    as (j' & Hj' & Hs').
  exists j'. split; [exact Hj'|]. split; [exact Hs'|]. split; [now rewrite Hs'|].
  apply select_by_id_In in Hj' as [Hin _].
  unfold count_active_downloads.
  assert (Hf : In j' (List.filter (fun r => is_active (status r))
                        (downloads (db (run cfg w es'))))).
  { apply filter_In. split; [exact Hin | now rewrite Hs']. }
  destruct (List.filter (fun r => is_active (status r))
              (downloads (db (run cfg w es')))); [contradiction | simpl; lia].
Qed.

Lemma sending_is_absorbing_witness :
  exists j',
    get_download 1 (db (run config_2_50 (run config_2_50 initial_world trace_until_delivered)
                          trace_afterwards)) = Some j'
    /\ status j' = sending.
Proof.
  destruct (sending_is_absorbing config_2_50 trace_until_delivered trace_afterwards 1
              job_1_sending) as (j' & H1 & H2 & _).
  - vm_compute; reflexivity.
  - reflexivity.
  - exists j'. split; assumption.
Defined.

(** * Further properties of the code *)

(** ** The [downloads] table *)

Lemma select_by_id_none id rows :
  Forall (fun r => download_id r <> id) rows -> select_by_id id rows = None.
Proof.
  induction 1 as [|r rows Hr _ IH]; simpl; [reflexivity|].
  destruct (download_id r =? id) eqn:E; [apply Z.eqb_eq in E; contradiction | exact IH].
Qed.

Lemma select_by_id_app_r id rows extra :
  select_by_id id rows = None -> select_by_id id (rows ++ extra) = select_by_id id extra.
Proof.
  induction rows as [|r rows IH]; simpl; [reflexivity|].
  destruct (download_id r =? id); [discriminate | exact IH].
Qed.

Lemma update_where_id_missing id f rows :
  select_by_id id rows = None -> update_where_id id f rows = rows.
Proof.
  induction rows as [|r rows IH]; simpl; [reflexivity|].
  destruct (download_id r =? id); [discriminate|].
  intros H. now rewrite IH.
Qed.

Lemma count_active_app d extra :
  Z.of_nat (List.length (List.filter (fun r => is_active (status r)) (downloads d ++ extra)))
  = count_active_downloads d
    + Z.of_nat (List.length (List.filter (fun r => is_active (status r)) extra)).
Proof. unfold count_active_downloads. rewrite List.filter_app, List.length_app. lia. Qed.

(** X1.  [add_download] hands out an id that no stored job has, stores a
    pending job with exactly the given user, locator, title and format, no
    artifact, no error and progress 0, and leaves every other job and the
    number of active jobs as they were. *)
Theorem add_download_round_trip :
  forall (d : Database) (uid : Z) (url : string) (title fmt : option string) (now : string),
    keys_ok d ->
    let id := fst (add_download uid url title fmt now d) in
    let d' := snd (add_download uid url title fmt now d) in
    id = seq_downloads d + 1
    /\ get_download id d = None
    /\ get_download id d' = Some (new_job id uid url title fmt now)
    /\ (forall id' j, get_download id' d = Some j -> get_download id' d' = Some j)
    /\ keys_ok d'
    /\ count_active_downloads d' = count_active_downloads d.
Proof.
  intros d uid url title fmt now K id d'.
  assert (Hnone : get_download (seq_downloads d + 1) d = None).
  { apply select_by_id_none. destruct K as [_ Hf].
    eapply Forall_impl; [exact Hf|]. intros r Hr. simpl in *. lia. }
  split; [reflexivity|]. split; [exact Hnone|]. split; [|split; [|split]].
  - unfold get_download in *. subst id d'. simpl.
    rewrite select_by_id_app_r by exact Hnone. simpl. now rewrite Z.eqb_refl.
  - intros id' j Hj. unfold get_download in *. subst d'. simpl.
    now apply select_by_id_app.
  - apply keys_ok_add_download, K.
  - subst d'. unfold add_download. cbv zeta. unfold snd.
    unfold count_active_downloads at 1. simpl downloads.
    rewrite count_active_app. simpl. lia.
Qed.

Lemma add_download_round_trip_witness :
  get_download 2 (snd (add_download 7 "https://example.org/M" None (Some "mp3")
                         "2026-11-03 09:10:00" finished_db))
  = Some (new_job 2 7 "https://example.org/M" None (Some "mp3") "2026-11-03 09:10:00").
Proof.
  assert (K : keys_ok finished_db).
  { split; simpl; [apply NoDup_singleton | repeat constructor; simpl; lia]. }
  destruct (add_download_round_trip finished_db 7 "https://example.org/M" None
              (Some "mp3") "2026-11-03 09:10:00" K) as (_ & _ & H & _).
  exact H.
Defined.

(** X2.  Marking a stored job completed with an artifact and reading it
    back gives status completed, that path, that size, no error and the
    clock value as completion time; in the state this write leaves, the
    result cache has an answer for the job's locator and format, and that
    answer is a completed job for them with a path. *)
Theorem completed_status_round_trip :
  forall (d : Database) (id : Z) (j : Job) (path : string) (size : Z) (now fmt : string),
    get_download id d = Some j ->
    format j = Some fmt ->
    let d' := update_download_status id completed (Some path) (Some size) None now d in
    (exists j',
        get_download id d' = Some j'
        /\ status j' = completed /\ file_path j' = Some path
        /\ file_size_bytes j' = Some size /\ error_message j' = None
        /\ completed_at j' = Some now
        /\ video_url j' = video_url j /\ user_id j' = user_id j)
    /\ (exists c,
           get_completed_download_by_url_format (video_url j) fmt d' = Some c
           /\ video_url c = video_url j /\ format c = Some fmt
           /\ status c = completed /\ is_Some (file_path c)).
Proof.
  intros d id j path size now fmt Hj Hf d'.
  assert (Hg : get_download id d'
               = Some (set_status completed (Some path) (Some size) None (Some now) j)).
  { subst d'. now rewrite get_download_update_status_same, Hj. }
  split.
  - eexists. split; [exact Hg|]. simpl. repeat split; reflexivity.
  - destruct (get_completed_download_by_url_format (video_url j) fmt d') as [c|] eqn:Hc.
    + exists c. split; [reflexivity|].
      apply lookup_finds_newest_match in Hc. tauto.
    + exfalso. unfold get_completed_download_by_url_format in Hc.
      pose proof (fold_newer_spec
                    (List.filter (cache_match (video_url j) fmt) (downloads d')) None) as S.
      rewrite Hc in S. destruct S as [_ Hnil].
      apply select_by_id_In in Hg as [Hin _].
      assert (Hin' : In (set_status completed (Some path) (Some size) None (Some now) j)
                        (List.filter (cache_match (video_url j) fmt) (downloads d'))).
      { apply filter_In. split; [exact Hin|]. unfold cache_match. simpl.
        rewrite String.eqb_refl, Hf. simpl. rewrite String.eqb_refl. reflexivity. }
      rewrite Hnil in Hin'. contradiction.
Qed.

Lemma completed_status_round_trip_witness :
  exists c,
    get_completed_download_by_url_format "https://example.org/L" "720p"
      (update_download_status 1 completed (Some "storage/7/L.mp4") (Some 5) None
         "2026-11-03T10:00:00" finished_db) = Some c
    /\ status c = completed.
Proof.
  destruct (completed_status_round_trip finished_db 1 finished_job "storage/7/L.mp4" 5
              "2026-11-03T10:00:00" "720p" eq_refl eq_refl) as (_ & c & H1 & _ & _ & H2 & _).
  exists c. split; assumption.
Defined.

(** X3.  An update for an id that no row has changes nothing: neither
    [update_download_status] nor [update_download_progress] creates a row or
    touches another one. *)
Theorem update_of_missing_job_changes_nothing :
  forall (d : Database) (id : Z),
    get_download id d = None ->
    (forall s path size err now, update_download_status id s path size err now d = d)
    /\ (forall p speed eta, update_download_progress id p speed eta d = d).
Proof.
  intros d id H. unfold get_download in H. split; intros.
  - unfold update_download_status, with_downloads.
    rewrite update_where_id_missing by exact H. now destruct d.
  - unfold update_download_progress, with_downloads.
    rewrite update_where_id_missing by exact H. now destruct d.
Qed.

Lemma update_of_missing_job_changes_nothing_witness :
  update_download_status 9 failed None None (Some "x") "2026-11-03T10:00:00" finished_db
  = finished_db.
Proof.
  destruct (update_of_missing_job_changes_nothing finished_db 9 eq_refl) as [H _].
  apply H.
Defined.

(** ** Sorting a list whose rows were rewritten *)

Section OrderByMap.
Context {A B : Type} (f : A -> B) (leA : A -> A -> bool) (leB : B -> B -> bool).
Hypothesis le_f : forall a b, leB (f a) (f b) = leA a b.

Lemma insert_row_map x l :
  insert_row leB (f x) (List.map f l) = List.map f (insert_row leA x l).
Proof using le_f.
  induction l as [|y l IH]; simpl; [reflexivity|].
  rewrite le_f. destruct (leA x y); simpl; [reflexivity | now rewrite IH].
Qed.

Lemma order_by_map l : order_by leB (List.map f l) = List.map f (order_by leA l).
Proof using le_f.
  induction l as [|x l IH]; simpl; [reflexivity|].
  now rewrite IH, insert_row_map.
Qed.
End OrderByMap.

Lemma pending_join_rewrite (g : Job -> Job) (h : Job -> User -> User) (d d' : Database) :
  downloads d' = List.map g (downloads d) ->
  (forall r, status (g r) = status r /\ user_id (g r) = user_id r) ->
  (forall r, users d' !! user_id r = h r <$> users d !! user_id r) ->
  (forall r u, h (g r) u = h r u) ->
  pending_join d' = List.map (fun p => (g (fst p), h (fst p) (snd p))) (pending_join d).
Proof.
  intros Hd Hg Hu Hh. unfold pending_join. rewrite Hd. clear Hd.
  induction (downloads d) as [|r rows IH]; simpl; [reflexivity|].
  rewrite map_app, <- IH. f_equal.
  destruct (Hg r) as [Hs Hid]. rewrite Hs, Hid.
  destruct (Status_eqb (status r) pending); [|reflexivity].
  rewrite Hu. destruct (users d !! user_id r); reflexivity.
Qed.

Lemma fold_newer_map (g : Job -> Job) (cm : Job -> bool) rows best :
  (forall r, cm (g r) = cm r) ->
  (forall r, completed_at (g r) = completed_at r) ->
  List.fold_left newer (List.filter cm (List.map g rows)) (g <$> best)
  = g <$> List.fold_left newer (List.filter cm rows) best.
Proof.
  intros Hcm Hc. revert best.
  induction rows as [|r rows IH]; intros best; simpl; [reflexivity|].
  rewrite Hcm. destruct (cm r); simpl; [|apply IH].
  rewrite <- IH. f_equal.
  destruct best as [b|]; simpl; [|reflexivity].
  rewrite !Hc. now destruct (opt_text_ltb (completed_at b) (completed_at r)).
Qed.

(** X4.  A progress write changes nothing the scheduler or the result cache
    look at: the number of active jobs, the order of the pending queue, the
    status and artifact of every job, and the job the cache lookup answers
    with stay the same. *)
Theorem progress_write_leaves_scheduling_alone :
  forall (d : Database) (id p : Z) (speed : option Q) (eta : option Z)
         (now url fmt : string),
    let d' := update_download_progress id p speed eta d in
    count_active_downloads d' = count_active_downloads d
    /\ List.map download_id (get_all_pending_downloads now d')
       = List.map download_id (get_all_pending_downloads now d)
    /\ List.map status (downloads d') = List.map status (downloads d)
    /\ List.map file_path (downloads d') = List.map file_path (downloads d)
    /\ download_id <$> get_completed_download_by_url_format url fmt d'
       = download_id <$> get_completed_download_by_url_format url fmt d.
Proof.
  intros d id p speed eta now url fmt d'.
  set (g := fun r : Job => if download_id r =? id then set_progress p speed eta r else r).
  assert (Hd : downloads d' = List.map g (downloads d)) by reflexivity.
  assert (Hs : forall r, status (g r) = status r)
    by (intros r; unfold g; now destruct (download_id r =? id)).
  assert (Hi : forall r, download_id (g r) = download_id r)
    by (intros r; unfold g; now destruct (download_id r =? id)).
  split; [|split; [|split; [|split]]].
  - unfold count_active_downloads. rewrite Hd. apply (f_equal Z.of_nat).
    generalize (downloads d). intros rows.
    induction rows as [|r rows IH]; simpl; [reflexivity|].
    rewrite Hs. destruct (is_active (status r)); simpl; now rewrite IH.
  - unfold get_all_pending_downloads.
    rewrite (pending_join_rewrite g (fun _ u => u) d d' Hd).
    + rewrite (order_by_map (fun p0 : Job * User => (g (fst p0), snd p0))
                 (order_le now) (order_le now)).
      * rewrite !map_map. apply map_ext. intros [r u]. simpl. apply Hi.
      * intros [a ua] [b ub]. unfold order_le, g. simpl.
        destruct (download_id a =? id), (download_id b =? id); reflexivity.
    + intros r. split; [apply Hs|]. unfold g. now destruct (download_id r =? id).
    + intros r. simpl. now destruct (users d !! user_id r).
    + reflexivity.
  - rewrite Hd, map_map. apply map_ext. exact Hs.
  - rewrite Hd, map_map. apply map_ext. intros r. unfold g.
    now destruct (download_id r =? id).
  - unfold get_completed_download_by_url_format. rewrite Hd.
    change (@None Job) with (g <$> @None Job) at 1.
    rewrite fold_newer_map.
    + destruct (List.fold_left newer (List.filter (cache_match url fmt) (downloads d)) None);
        simpl; [now rewrite Hi | reflexivity].
    + intros r. unfold cache_match, g. now destruct (download_id r =? id).
    + intros r. unfold g. now destruct (download_id r =? id).
Qed.

(** ** Users and grants *)

Lemma alter_missing {V} (f : V -> V) (k : Z) (m : gmap Z V) :
  m !! k = None -> alter f k m = m.
Proof.
  intros H. apply map_eq. intros i. rewrite lookup_alter.
  case_decide; [|reflexivity]. subst. now rewrite H.
Qed.

Lemma priority_rank_rename now un fn u :
  priority_rank now (rename_user un fn u) = priority_rank now u.
Proof. reflexivity. Qed.

(** X5.  Seeing a known user again keeps the user's priority, counters and
    join date, changes a name only when a new one is given, touches no
    other user and no job, and leaves the pending queue in the same order. *)
Theorem known_user_keeps_priority :
  forall (d : Database) (uid : Z) (username first_name : option string)
         (now : string) (u : User),
    get_user uid d = Some u ->
    let d' := add_or_update_user uid username first_name now d in
    get_user uid d' = Some (rename_user username first_name u)
    /\ u_priority_until (rename_user username first_name u) = u_priority_until u
    /\ u_username (rename_user None first_name u) = u_username u
    /\ (forall other, other <> uid -> get_user other d' = get_user other d)
    /\ downloads d' = downloads d
    /\ (forall t, get_all_pending_downloads t d' = get_all_pending_downloads t d).
Proof.
  intros d uid un fn now u Hu d'. unfold get_user in *.
  assert (Hd' : d' = with_users d (<[uid := rename_user un fn u]> (users d))).
  { subst d'. unfold add_or_update_user. now rewrite Hu. }
  split; [rewrite Hd'; simpl; apply lookup_insert_eq|].
  split; [reflexivity|]. split; [reflexivity|]. split; [|split].
  - intros other Hne. rewrite Hd'. simpl. now apply lookup_insert_ne.
  - now rewrite Hd'.
  - intros t. unfold get_all_pending_downloads.
    rewrite (pending_join_rewrite (fun r => r)
               (fun r v => if user_id r =? uid then rename_user un fn v else v) d d').
    + rewrite (order_by_map
                 (fun p0 : Job * User =>
                    (fst p0, if user_id (fst p0) =? uid
                             then rename_user un fn (snd p0) else snd p0))
                 (order_le t) (order_le t)).
      * rewrite map_map. apply map_ext. now intros [r v].
      * intros [a ua] [b ub]. unfold order_le. simpl.
        destruct (user_id a =? uid), (user_id b =? uid);
          now rewrite ?priority_rank_rename.
    + rewrite Hd'. simpl. now rewrite map_id.
    + now intros r.
    + intros r. rewrite Hd'. simpl.
      destruct (user_id r =? uid) eqn:E.
      * apply Z.eqb_eq in E. rewrite E, lookup_insert_eq, Hu. reflexivity.
      * apply Z.eqb_neq in E. rewrite lookup_insert_ne by congruence.
        now destruct (users d !! user_id r).
    + reflexivity.
Qed.

Lemma known_user_keeps_priority_witness :
  u_priority_until
    <$> get_user 2 (add_or_update_user 2 (Some "bob") None "2026-11-03 13:00:00"
                      three_users_db)
  = Some (Some "INFINITE").
Proof.
  destruct (known_user_keeps_priority three_users_db 2 (Some "bob") None
              "2026-11-03 13:00:00" (user_with 2 (Some "INFINITE")))
    as (H & _).
  - vm_compute; reflexivity.
  - rewrite H. reflexivity.
Defined.

Lemma admin_give_priority_cases uid days until now d :
  admin_give_priority uid days until now d
  = if negb (fits_sqlite_integer uid) then (false, d)
    else match (if days <? 0 then Some "INFINITE" else isoformat <$> until) with
         | Some p =>
             (true, update_priority_until uid (Some p) (add_or_update_user uid None None now d))
         | None => (false, add_or_update_user uid None None now d)
         end.
Proof.
  unfold admin_give_priority. destruct (negb (fits_sqlite_integer uid)); [reflexivity|].
  destruct (days <? 0) eqn:E; [reflexivity|].
  destruct until as [t|]; [|reflexivity].
  unfold set_priority. now rewrite E.
Qed.

Lemma granted_row uid p un fn now d :
  exists u0,
    users (update_priority_until uid (Some p) (add_or_update_user uid un fn now d)) !! uid
    = Some (set_priority_until (Some p) u0).
Proof.
  assert (exists u0, users (add_or_update_user uid un fn now d) !! uid = Some u0)
    as [u0 Hu0].
  { unfold add_or_update_user. destruct (users d !! uid); simpl;
      rewrite lookup_insert_eq; eauto. }
  exists u0. unfold update_priority_until. simpl.
  rewrite lookup_alter. case_decide; [|congruence]. now rewrite Hu0.
Qed.

Lemma admin_give_priority_downloads uid days until now d :
  downloads (snd (admin_give_priority uid days until now d)) = downloads d.
Proof.
  rewrite admin_give_priority_cases.
  destruct (negb (fits_sqlite_integer uid)); [reflexivity|].
  destruct (if days <? 0 then Some "INFINITE" else isoformat <$> until);
    unfold update_priority_until, add_or_update_user; now destruct (users d !! uid).
Qed.

(** X6.  [admin_give_priority] answers [True] and stores the grant exactly
    when the user id fits SQLite's 64-bit INTEGER and the text to store can
    be computed: the sentinel for a negative number of days, else the
    expiry, unless computing it overflows.  A stored grant creates the
    user's row when there is none; with the sentinel the user ranks first
    at every time, and [admin_remove_priority] takes the grant away again.
    In the other cases the answer is [False] and no priority is written:
    for an id that does not fit nothing changes at all, and for an expiry
    that overflows the row made by [add_or_update_user] stays.  No job is
    touched, and [set_priority] alone does nothing for a user without a
    row. *)
Theorem admin_grant_is_stored :
  forall (d : Database) (uid days : Z) (until : option DateTime) (now : string),
    let r := admin_give_priority uid days until now d in
    let text := if days <? 0 then Some "INFINITE" else isoformat <$> until in
    (fst r = true <-> fits_sqlite_integer uid = true /\ text <> None)
    /\ (forall p,
           fits_sqlite_integer uid = true -> text = Some p ->
           (exists u,
               get_user uid (snd r) = Some u
               /\ u_priority_until u = Some p
               /\ (days < 0 -> forall t, priority_rank t u = 0))
           /\ (exists u,
                  get_user uid (admin_remove_priority uid (snd r)) = Some u
                  /\ u_priority_until u = None /\ forall t, priority_rank t u = 1))
    /\ (fits_sqlite_integer uid = false -> snd r = d)
    /\ (fits_sqlite_integer uid = true -> text = None ->
        snd r = add_or_update_user uid None None now d)
    /\ downloads (snd r) = downloads d
    /\ (get_user uid d = None -> forall t, set_priority uid days t d = d).
Proof.
  intros d uid days until now r text.
  assert (Hr : r = if negb (fits_sqlite_integer uid) then (false, d)
                   else match text with
                        | Some p =>
                            (true, update_priority_until uid (Some p)
                                     (add_or_update_user uid None None now d))
                        | None => (false, add_or_update_user uid None None now d)
                        end)
    by (subst r text; apply admin_give_priority_cases).
  split; [|split; [|split; [|split; [|split]]]].
  - rewrite Hr. destruct (fits_sqlite_integer uid); simpl.
    + destruct text as [p|]; simpl.
      * split; [intros _; split; [reflexivity | discriminate] | reflexivity].
      * split; [discriminate | intros [_ H]; now contradiction H].
    + split; [discriminate | intros [H _]; discriminate].
  - intros p Hfit Ht. rewrite Hr, Hfit, Ht. simpl.
    destruct (granted_row uid p None None now d) as [u0 Hu0]. unfold get_user. split.
    + eexists. split; [exact Hu0|]. split; [reflexivity|].
      intros Hneg t. subst text. destruct (Z.ltb_spec days 0); [|lia].
      inversion Ht; subst p. reflexivity.
    + change (users (admin_remove_priority uid
                       (update_priority_until uid (Some p)
                          (add_or_update_user uid None None now d))))
        with (alter (set_priority_until None) uid
                (users (update_priority_until uid (Some p)
                          (add_or_update_user uid None None now d)))).
      rewrite lookup_alter. case_decide; [|congruence]. rewrite Hu0. simpl.
      eexists. split; [reflexivity|]. split; reflexivity.
  - intros Hfit. now rewrite Hr, Hfit.
  - intros Hfit Ht. now rewrite Hr, Hfit, Ht.
  - subst r. apply admin_give_priority_downloads.
  - intros Hnone t. unfold set_priority, update_priority_until, with_users.
    unfold get_user in Hnone. rewrite alter_missing by exact Hnone. now destruct d.
Qed.

Lemma admin_grant_is_stored_witness :
  fst (admin_give_priority 5 (-1) None "2026-11-03 13:00:00" empty_db) = true
  /\ fst (admin_give_priority 5 4000000 None "2026-11-03 13:00:00" empty_db) = false
  /\ exists u, get_user 5 (snd (admin_give_priority 5 (-1) None "2026-11-03 13:00:00"
                                  empty_db)) = Some u
               /\ priority_rank "9999-12-31 23:59:59" u = 0.
Proof.
  destruct (admin_grant_is_stored empty_db 5 (-1) None "2026-11-03 13:00:00")
    as (H1 & H2 & _).
  destruct (admin_grant_is_stored empty_db 5 4000000 None "2026-11-03 13:00:00")
    as (G1 & _).
  split; [apply H1; split; [reflexivity | discriminate]|].
  split.
  - apply not_true_is_false. intros E. apply G1 in E as [_ E]. apply E. reflexivity.
  - destruct (H2 "INFINITE" eq_refl eq_refl) as ((u & Hu & _ & Hr) & _).
    exists u. split; [exact Hu|]. apply Hr. lia.
Defined.

(** ** The head of the queue *)




(** ** What the events keep *)

Section StepShape.
Context (cfg : Config).

Lemma send_completed_shape download send_ok now w :
  let w' := snd (_send_completed_download cfg download send_ok now w) in
  processing_log w' = processing_log w
  /\ deliveries w' = deliveries w
  /\ observers w' = observers w
  /\ seq_downloads (db w') = seq_downloads (db w).
Proof.
  unfold _send_completed_download.
  destruct (truthy (file_path download)) as [p|]; [|now simpl].
  destruct (negb (path_exists w p)); [now simpl|].
  destruct (bool_decide (file_size_bytes download = Some 0)); [now simpl|].
  simpl progress_messages.
  destruct (progress_messages w !! download_id download); [|now simpl].
  destruct (file_size_bytes download) as [file_size|]; [|now simpl].
  destruct (file_size >? inline_threshold cfg); [now simpl|].
  destruct send_ok; now simpl.
Qed.

Lemma submit_shape r w :
  let w' := snd (handle_download_callback cfg r w) in
  processing_log w' = processing_log w
  /\ deliveries w' = deliveries w
  /\ seq_downloads (db w) <= seq_downloads (db w')
  /\ (observers w' = observers w
      \/ observers w' = {[seq_downloads (db w) + 1]} ∪ observers w
         /\ seq_downloads (db w') = seq_downloads (db w) + 1).
Proof.
  unfold handle_download_callback.
  destruct (negb (req_from_user r =? req_user_id r));
    [simpl; repeat split; auto; lia|].
  destruct (truthy (req_url r)) as [url|]; [|simpl; repeat split; auto; lia].
  destruct (get_completed_download_by_url_format url (req_format r) (db w)) as [cached|];
    [destruct (truthy (file_path cached)) as [p|];
     [destruct (path_exists w p)|]|];
    simpl; repeat split; auto; lia.
Qed.

Lemma observer_shape id send_ok now w :
  let w' := observer_finish cfg id send_ok now w in
  processing_log w' = processing_log w
  /\ seq_downloads (db w') = seq_downloads (db w)
  /\ (deliveries w' = deliveries w /\ observers w' ⊆ observers w
      \/ exists d, id ∈ observers w /\ is_Some (get_download id (db w))
                   /\ deliveries w' = (deliveries w ++ [(id, d)])%list
                   /\ observers w' = observers w ∖ {[id]}).
Proof.
  unfold observer_finish.
  assert (Same : forall w1 : World,
             processing_log w1 = processing_log w ->
             seq_downloads (db w1) = seq_downloads (db w) ->
             deliveries w1 = deliveries w -> observers w1 ⊆ observers w ->
             processing_log w1 = processing_log w
             /\ seq_downloads (db w1) = seq_downloads (db w)
             /\ (deliveries w1 = deliveries w /\ observers w1 ⊆ observers w
                 \/ exists d, id ∈ observers w /\ is_Some (get_download id (db w))
                              /\ deliveries w1 = (deliveries w ++ [(id, d)])%list
                              /\ observers w1 = observers w ∖ {[id]})) by tauto.
  destruct (bool_decide (id ∈ observers w)) eqn:Hin;
    [|apply Same; reflexivity].
  apply bool_decide_eq_true_1 in Hin.
  destruct (get_download id (db w)) as [download|] eqn:Hg;
    [|apply Same; simpl; try reflexivity; apply subseteq_difference_l; reflexivity].
  clear Same.
  destruct (status download) eqn:Hst;
    try (split; [reflexivity|]; split; [reflexivity|]; left;
         split; [reflexivity | simpl; solve [reflexivity
                                            | apply subseteq_difference_l; reflexivity]]).
  match goal with
  | |- context [_send_completed_download cfg download send_ok now ?W] =>
      pose proof (send_completed_shape download send_ok now W) as H;
      destruct (_send_completed_download cfg download send_ok now W) as [d w''] eqn:EX
  end.
  simpl in H. destruct H as (H1 & H2 & H3 & H4).
  simpl. repeat split; auto.
  right. exists d. rewrite H2, H3. repeat split; auto.
Qed.

Lemma begin_shape download exc now w :
  let w' := process_download_begin download exc now w in
  deliveries w' = deliveries w /\ observers w' = observers w
  /\ seq_downloads (db w') = seq_downloads (db w).
Proof. unfold process_download_begin. destruct exc; now simpl. Qed.

Lemma end_shape y now w :
  let w' := process_download_end y now w in
  processing_log w' = processing_log w
  /\ deliveries w' = deliveries w /\ observers w' = observers w
  /\ seq_downloads (db w') = seq_downloads (db w).
Proof.
  unfold process_download_end.
  destruct (worker_job w) as [download|]; [|now simpl].
  set (w1 := match y with
             | yt_done (Some (p, size)) => with_files w (<[p:=size]> (files w))
             | _ => w
             end).
  assert (H1 : processing_log w1 = processing_log w
               /\ deliveries w1 = deliveries w /\ observers w1 = observers w
               /\ db w1 = db w)
    by (subst w1; destruct y as [[[p sz]|]| |]; now simpl).
  destruct H1 as (L & D & O & B).
  destruct (negb (fetch_success (download_video y))); [simpl; now rewrite L, D, O, B|].
  destruct (truthy (fetch_path (download_video y))) as [p|];
    [destruct (files w1 !! p)|]; simpl; now rewrite L, D, O, B.
Qed.

(** The executor's log grows only in a tick that found room under the cap. *)
Lemma step_log w e :
  processing_log (step cfg w e) = processing_log w
  \/ count_active_downloads (db w) < MAX_CONCURRENT_DOWNLOADS cfg.
Proof.
  destruct e; simpl.
  - now left.
  - now left.
  - pose proof (submit_shape r w) as H.
    destruct (handle_download_callback cfg r w) as [s w']. simpl in *. left. tauto.
  - unfold run_loop_tick. destruct (worker_job w); [now left|].
    destruct (Z.ltb_spec (count_active_downloads (db w)) (MAX_CONCURRENT_DOWNLOADS cfg));
      [now right | now left].
  - unfold progress_callback. destruct (worker_job w); now left.
  - left. apply end_shape.
  - left. apply observer_shape.
  - unfold cleanup_caches. destruct (count_active_downloads (db w) =? 0); now left.
  - now left.
Qed.

Lemma step_delivered_once w e : Inv w -> DeliveredOnce w -> DeliveredOnce (step cfg w e).
Proof.
  intros I [Hn Hd].
  assert (Keep : forall w', deliveries w' = deliveries w ->
                            seq_downloads (db w) <= seq_downloads (db w') ->
                            (observers w' ⊆ observers w
                             \/ observers w' = {[seq_downloads (db w) + 1]} ∪ observers w) ->
                            DeliveredOnce w').
  { intros w' E1 E2 E3. constructor; unfold delivered_ids in *; rewrite E1; [exact Hn|].
    eapply Forall_impl; [exact Hd|]. intros id [H1 H2]. split; [|lia].
    destruct E3 as [E3|E3]; [intros Hin; apply H1, E3, Hin|]. rewrite E3.
    intros Hin. apply elem_of_union in Hin as [Hin|Hin]; [|contradiction].
    apply elem_of_singleton in Hin. lia. }
  destruct e; simpl.
  - apply Keep; [reflexivity | | left; reflexivity].
    simpl. unfold add_or_update_user. destruct (users (db w) !! uid); simpl; lia.
  - apply Keep; [reflexivity | simpl; lia | left; reflexivity].
  - pose proof (submit_shape r w) as H.
    destruct (handle_download_callback cfg r w) as [s w']. simpl in H.
    destruct H as (_ & H2 & H3 & H4).
    apply Keep; [exact H2 | exact H3 |].
    destruct H4 as [H4|[H4 _]]; [left; simpl; now rewrite H4 | right; exact H4].
  - unfold run_loop_tick. destruct (worker_job w); [now constructor|].
    destruct (count_active_downloads (db w) <? MAX_CONCURRENT_DOWNLOADS cfg);
      [|now constructor].
    destruct (get_all_pending_downloads now_sql (db w)) as [|download rest];
      [now constructor|].
    destruct (begin_shape download mkdir_exc now w) as (E1 & E2 & E3).
    apply Keep; [exact E1 | rewrite E3; lia | left; now rewrite E2].
  - unfold progress_callback. destruct (worker_job w); [|now constructor].
    apply Keep; [reflexivity | simpl; lia | left; reflexivity].
  - destruct (end_shape y now w) as (_ & E1 & E2 & E3).
    apply Keep; [exact E1 | rewrite E3; lia | left; now rewrite E2].
  - destruct (observer_shape id send_ok now w)
      as (_ & E2 & [[E3 E4]|(d & Hin & Hrow & E3 & E4)]).
    + apply Keep; [exact E3 | rewrite E2; lia | left; exact E4].
    + constructor; unfold delivered_ids in *; rewrite E3, map_app; simpl.
      * apply NoDup_app. split; [exact Hn|]. split; [|apply NoDup_singleton].
        intros x Hx Hx'. apply list_elem_of_singleton in Hx'. subst x.
        rewrite Forall_forall in Hd. destruct (Hd _ Hx). contradiction.
      * apply Forall_app. split.
        -- eapply Forall_impl; [exact Hd|]. intros x [H1 H2]. split; [|lia].
           rewrite E4. intros Hx. apply elem_of_difference in Hx as [Hx _]. contradiction.
        -- constructor; [|constructor]. split.
           ++ rewrite E4. intros Hx. apply elem_of_difference in Hx as [_ Hx].
              apply Hx. now apply elem_of_singleton.
           ++ destruct Hrow as [j Hj]. apply select_by_id_In in Hj as [Hj Hid].
              destruct (inv_keys _ I) as [_ Hf]. rewrite Forall_forall in Hf.
              apply list_elem_of_In, Hf in Hj. lia.
  - unfold cleanup_caches. destruct (count_active_downloads (db w) =? 0);
      [|now constructor].
    apply Keep; [reflexivity | simpl; lia | left; reflexivity].
  - apply Keep; [reflexivity | simpl; lia | left; reflexivity].
Qed.
End StepShape.

(** X8.  The delivery step of the observer runs at most once for a job: in
    every run the log of deliveries names no job twice. *)
Theorem job_is_delivered_at_most_once :
  forall (cfg : Config) (es : list Event),
    NoDup (List.map fst (deliveries (run cfg initial_world es))).
Proof.
  intros cfg es.
  assert (G : forall es w, Inv w -> DeliveredOnce w -> DeliveredOnce (run cfg w es)).
  { clear es. induction es as [|e es IH]; intros w I D; [exact D|].
    rewrite run_cons. apply IH; [apply Inv_step, I | now apply step_delivered_once]. }
  apply delivered_nodup, G; [apply Inv_initial|].
  constructor; constructor.
Qed.

(** ** The jobs that stay in sending *)

Lemma filter_length_map_ge {A} (P : A -> bool) (g : A -> A) (rows : list A) :
  (forall r, In r rows -> P r = true -> P (g r) = true) ->
  (List.length (List.filter P rows) <= List.length (List.filter P (List.map g rows)))%nat.
Proof.
  induction rows as [|r rows IH]; intros H; simpl; [lia|].
  assert (IH' := IH (fun x Hx => H x (or_intror Hx))).
  destruct (P r) eqn:E.
  - rewrite (H r (or_introl eq_refl) E). simpl. lia.
  - destruct (P (g r)); simpl; lia.
Qed.

Lemma count_sending_update id s path size err now d :
  keys_ok d ->
  (forall j, get_download id d = Some j -> status j <> sending \/ s = sending) ->
  count_sending d <= count_sending (update_download_status id s path size err now d).
Proof.
  intros K H. unfold count_sending, update_download_status. simpl.
  apply inj_le. unfold update_where_id. apply filter_length_map_ge.
  intros r Hin Hs. apply Status_eqb_eq in Hs.
  destruct (download_id r =? id) eqn:E; [|now rewrite Hs].
  apply Z.eqb_eq in E. subst id.
  destruct (H r (get_download_unique _ _ K Hin)) as [Hn| ->]; [contradiction|].
  reflexivity.
Qed.

Lemma count_sending_le_active d : count_sending d <= count_active_downloads d.
Proof.
  unfold count_sending, count_active_downloads. apply inj_le.
  induction (downloads d) as [|r rows IH]; simpl; [lia|].
  destruct (status r); simpl; lia.
Qed.

Lemma effect_sending w w' :
  Inv w -> effect w w' -> count_sending (db w) <= count_sending (db w').
Proof.
  intros I [Hr _ _ _ | uid url title fmt now Hd _ _ | id p speed eta Hd _ _
           | download s err now Hw Hin Hs Hd Hk _
           | download s path size err now Hw Hs Hd _ _
           | download now Hg Hs Hd _ _].
  - unfold count_sending. rewrite Hr. lia.
  - rewrite Hd. unfold count_sending. simpl.
    rewrite List.filter_app, List.length_app. lia.
  - rewrite Hd. unfold count_sending, update_download_progress. simpl.
    apply inj_le. unfold update_where_id. apply filter_length_map_ge.
    intros r _ Hs. now destruct (download_id r =? id).
  - rewrite Hd. apply count_sending_update; [apply (inv_keys _ I)|].
    intros j Hj. rewrite (get_download_unique _ _ (inv_keys _ I) Hin) in Hj.
    inversion Hj; subst j. left. congruence.
  - rewrite Hd. apply count_sending_update; [apply (inv_keys _ I)|].
    intros j Hj. destruct (inv_worker _ I _ Hw) as (j0 & Hj0 & Hd0).
    rewrite Hj0 in Hj. inversion Hj; subst j. left. congruence.
  - rewrite Hd. apply count_sending_update; [apply (inv_keys _ I)|]. now right.
Qed.

Lemma effect_keeps_pending w w' :
  Inv w -> effect w w' -> processing_log w' = processing_log w ->
  forall id j, get_download id (db w) = Some j -> status j = pending ->
    exists j', get_download id (db w') = Some j' /\ status j' = pending.
Proof.
  intros I E Hlog id j Hj Hp.
  destruct E as [Hr _ _ _ | uid url title fmt now Hd _ _ | id0 p speed eta Hd _ _
                | download s err now Hw Hin Hs Hd Hk Hl
                | download s path size err now Hw Hs Hd _ _
                | download now Hg Hs Hd _ _].
  - exists j. split; [|exact Hp]. unfold get_download in *. now rewrite Hr.
  - exists j. split; [|exact Hp]. rewrite Hd. unfold get_download in *. simpl.
    now apply select_by_id_app.
  - rewrite Hd, get_download_update_progress, Hj.
    destruct (id =? id0); eexists; split; try reflexivity; exact Hp.
  - exfalso. rewrite Hl in Hlog. apply (f_equal (@List.length Z)) in Hlog.
    rewrite List.length_app in Hlog. simpl in Hlog. lia.
  - destruct (inv_worker _ I _ Hw) as (j0 & Hj0 & Hd0).
    exists j. split; [|exact Hp]. rewrite Hd.
    rewrite get_download_update_status_other; [exact Hj|].
    intros ->. rewrite Hj0 in Hj. inversion Hj; subst. congruence.
  - exists j. split; [|exact Hp]. rewrite Hd.
    rewrite get_download_update_status_other; [exact Hj|].
    intros ->. rewrite Hg in Hj. inversion Hj; subst. congruence.
Qed.

(** X9.  Delivered jobs use up the cap for good.  Once as many jobs are in
    sending as the cap allows, no later tick hands a job to the executor
    whatever happens afterwards: the executor's log stays as it is and every
    pending job stays pending. *)
Theorem queue_stops_when_cap_is_sending :
  forall (cfg : Config) (es es' : list Event),
    let w := run cfg initial_world es in
    MAX_CONCURRENT_DOWNLOADS cfg <= count_sending (db w) ->
    let w' := run cfg w es' in
    processing_log w' = processing_log w
    /\ (forall id j, get_download id (db w) = Some j -> status j = pending ->
          exists j', get_download id (db w') = Some j' /\ status j' = pending).
Proof.
  intros cfg es es' w Hcap.
  assert (I : Inv w) by (apply Inv_run, Inv_initial).
  clearbody w. revert w I Hcap.
  induction es' as [|e es' IH]; intros w I Hcap w'.
  - split; [reflexivity|]. intros id j Hj Hp. exists j. now split.
  - subst w'. rewrite run_cons.
    pose proof (step_effect cfg w e) as E.
    assert (Hlog : processing_log (step cfg w e) = processing_log w).
    { destruct (step_log cfg w e) as [H|H]; [exact H|].
      pose proof (count_sending_le_active (db w)). lia. }
    assert (Hcap' : MAX_CONCURRENT_DOWNLOADS cfg <= count_sending (db (step cfg w e))).
    { pose proof (effect_sending _ _ I E). lia. }
    destruct (IH (step cfg w e) (Inv_step cfg w e I) Hcap') as [L P].
    split; [now rewrite L|].
    intros id j Hj Hp.
    destruct (effect_keeps_pending _ _ I E Hlog id j Hj Hp) as (j1 & Hj1 & Hp1).
    exact (P id j1 Hj1 Hp1).
Qed.

Lemma queue_stops_when_cap_is_sending_witness :
  processing_log (run config_1_50 (run config_1_50 initial_world trace_until_delivered)
                    trace_afterwards)
  = processing_log (run config_1_50 initial_world trace_until_delivered).
Proof.
  destruct (queue_stops_when_cap_is_sending config_1_50 trace_until_delivered
              trace_afterwards) as [H _].
  - vm_compute. discriminate.
  - exact H.
Defined.

(** X10.  [cleanup_caches] forgets the progress messages when no job is
    active, also those of completed jobs whose observer has not run yet.
    When such a job is delivered afterwards, the delivery step marks it as
    sending, hands nothing over and leaves the file where it is. *)
Theorem delivery_after_cleanup_hands_nothing_over :
  forall (cfg : Config) (w : World) (download : Job) (send_ok : bool) (now p : string),
    count_active_downloads (db w) = 0 ->
    get_download (download_id download) (db w) = Some download ->
    truthy (file_path download) = Some p ->
    path_exists w p = true ->
    file_size_bytes download <> Some 0 ->
    let r := _send_completed_download cfg download send_ok now (cleanup_caches w) in
    progress_messages (cleanup_caches w) = ∅
    /\ fst r = not_delivered_no_progress_message
    /\ files (snd r) = files w
    /\ status <$> get_download (download_id download) (db (snd r)) = Some sending.
Proof.
  intros cfg w download send_ok now p H0 Hg Ht Hex Hsz r.
  assert (Hc : cleanup_caches w
               = {| db := db w; files := files w; progress_messages := ∅;
                    observers := observers w; worker_job := worker_job w;
                    deliveries := deliveries w; submissions := submissions w;
                    processing_log := processing_log w |}).
  { unfold cleanup_caches. now rewrite H0. }
  split; [now rewrite Hc|].
  subst r. rewrite Hc. unfold _send_completed_download. rewrite Ht.
  unfold path_exists in *. simpl files. rewrite Hex. simpl negb. cbv iota.
  rewrite bool_decide_eq_false_2 by exact Hsz.
  simpl. rewrite lookup_empty. simpl.
  split; [reflexivity|]. split; [reflexivity|].
  now rewrite get_download_update_status_same, Hg.
Qed.

Lemma delivery_after_cleanup_hands_nothing_over_witness :
  let w := world_with finished_job 60000000 in
  fst (_send_completed_download config_2_50 finished_job true "2026-11-03T09:05:01"
         (cleanup_caches w))
  = not_delivered_no_progress_message.
Proof.
  intros w.
  destruct (delivery_after_cleanup_hands_nothing_over config_2_50 w finished_job true
              "2026-11-03T09:05:01" "storage/7/L.mp4") as (_ & H & _).
  - reflexivity.
  - reflexivity.
  - reflexivity.
  - vm_compute; reflexivity.
  - discriminate.
  - exact H.
Defined.

(** ** Priority purchases *)

Lemma find_update_purchase pid f rows :
  (forall p, purchase_id (f p) = purchase_id p) ->
  List.find (fun p => purchase_id p =? pid) (update_purchase pid f rows)
  = f <$> List.find (fun p => purchase_id p =? pid) rows.
Proof.
  intros Hf. induction rows as [|p rows IH]; simpl; [reflexivity|].
  destruct (purchase_id p =? pid) eqn:E; simpl.
  - now rewrite Hf, E.
  - now rewrite E.
Qed.

Lemma update_purchase_In pid f rows q :
  In q (update_purchase pid f rows) ->
  exists p, In p rows /\ ((purchase_id p <> pid /\ q = p) \/ (purchase_id p = pid /\ q = f p)).
Proof.
  unfold update_purchase. intros H. apply in_map_iff in H as (p & Hp & Hin).
  exists p. split; [exact Hin|].
  destruct (purchase_id p =? pid) eqn:E.
  - apply Z.eqb_eq in E. right. now split.
  - apply Z.eqb_neq in E. left. now split.
Qed.

(** X11.  Confirming a stored purchase marks it confirmed, with the clock
    value and the expiry on the row, and writes the same expiry text, never
    the sentinel, to the buyer's row; the purchase is no longer listed as
    pending.  If the buyer has no row in [users] the purchase is confirmed
    all the same and nobody gains priority.  No job is touched. *)
Theorem confirmed_purchase_grants_priority :
  forall (l : Ledger) (pid : Z) (found : Purchase) (until : DateTime) (now : string),
    get_priority_purchase pid l = Some found ->
    exists l',
      confirm_priority_purchase pid until now l = Some l'
      /\ (exists p', get_priority_purchase pid l' = Some p'
                     /\ p_status p' = purchase_confirmed
                     /\ p_confirmed_at p' = Some now
                     /\ p_priority_until p' = Some (isoformat until)
                     /\ p_user_id p' = p_user_id found
                     /\ amount_usd p' = amount_usd found)
      /\ (forall u, get_user (p_user_id found) (ledger_db l) = Some u ->
            exists u', get_user (p_user_id found) (ledger_db l') = Some u'
                       /\ u_priority_until u' = Some (isoformat until)
                       /\ u_priority_until u' <> Some "INFINITE")
      /\ (get_user (p_user_id found) (ledger_db l) = None -> ledger_db l' = ledger_db l)
      /\ downloads (ledger_db l') = downloads (ledger_db l)
      /\ (forall q, In q (get_pending_priority_purchases l') -> purchase_id q <> pid).
Proof.
  intros l pid found until now Hf.
  unfold confirm_priority_purchase. rewrite Hf. eexists. split; [reflexivity|].
  split; [|split; [|split; [|split]]].
  - unfold get_priority_purchase in *. simpl.
    rewrite find_update_purchase by reflexivity. rewrite Hf. simpl.
    eexists. split; [reflexivity|]. simpl. repeat split; reflexivity.
  - intros u Hu. unfold get_user in *. simpl.
    rewrite lookup_alter. case_decide; [|congruence]. rewrite Hu. simpl.
    eexists. split; [reflexivity|]. split; [reflexivity|].
    simpl. intros E.
    assert (isoformat until = "INFINITE") as E' by congruence.
    pose proof (isoformat_not_sentinel until) as N. rewrite E' in N. discriminate N.
  - intros Hn. unfold get_user in Hn. simpl.
    unfold update_priority_until, with_users. rewrite alter_missing by exact Hn.
    now destruct (ledger_db l).
  - reflexivity.
  - intros q Hq. unfold get_pending_priority_purchases in Hq. simpl in Hq.
    eapply Permutation_in in Hq; [|symmetry; apply order_by_perm].
    apply filter_In in Hq as [Hq Hp].
    apply update_purchase_In in Hq as (p & _ & [[Hne ->]|[_ ->]]); [exact Hne|].
    discriminate Hp.
Qed.

Lemma confirmed_purchase_grants_priority_witness :
  get_priority_purchase 1 ledger_one_request = Some the_request
  /\ exists l',
      confirm_priority_purchase 1 five_days_later "2026-11-03T13:00:00" ledger_one_request
      = Some l'
      /\ (exists p', get_priority_purchase 1 l' = Some p'
                     /\ p_status p' = purchase_confirmed
                     /\ p_confirmed_at p' = Some "2026-11-03T13:00:00"
                     /\ p_priority_until p' = Some (isoformat five_days_later)
                     /\ p_user_id p' = p_user_id the_request
                     /\ amount_usd p' = amount_usd the_request)
      /\ (forall u, get_user (p_user_id the_request) (ledger_db ledger_one_request) = Some u ->
            exists u', get_user (p_user_id the_request) (ledger_db l') = Some u'
                       /\ u_priority_until u' = Some (isoformat five_days_later)
                       /\ u_priority_until u' <> Some "INFINITE")
      /\ (get_user (p_user_id the_request) (ledger_db ledger_one_request) = None ->
          ledger_db l' = ledger_db ledger_one_request)
      /\ downloads (ledger_db l') = downloads (ledger_db ledger_one_request)
      /\ (forall q, In q (get_pending_priority_purchases l') -> purchase_id q <> 1).
Proof.
  split; [reflexivity|].
  apply (confirmed_purchase_grants_priority ledger_one_request 1 the_request
           five_days_later "2026-11-03T13:00:00").
  reflexivity.
Defined.

(** X12.  Neither outcome of a purchase is final.  Rejecting a purchase
    that was confirmed marks the row rejected, but the row keeps its
    confirmation time and expiry and the buyer keeps the priority;
    confirming a purchase that was rejected marks it confirmed and grants
    the priority. *)
Theorem purchase_resolution_is_not_final :
  forall (l : Ledger) (pid : Z) (found : Purchase) (u : User) (until : DateTime)
         (now : string),
    get_priority_purchase pid l = Some found ->
    get_user (p_user_id found) (ledger_db l) = Some u ->
    (exists l1,
        confirm_priority_purchase pid until now l = Some l1
        /\ (exists p2,
               get_priority_purchase pid (reject_priority_purchase pid l1) = Some p2
               /\ p_status p2 = purchase_rejected
               /\ p_confirmed_at p2 = Some now
               /\ p_priority_until p2 = Some (isoformat until))
        /\ (exists u2,
               get_user (p_user_id found) (ledger_db (reject_priority_purchase pid l1))
               = Some u2
               /\ u_priority_until u2 = Some (isoformat until)))
    /\ (exists l3,
           confirm_priority_purchase pid until now (reject_priority_purchase pid l) = Some l3
           /\ (exists p3, get_priority_purchase pid l3 = Some p3
                          /\ p_status p3 = purchase_confirmed)
           /\ (exists u3, get_user (p_user_id found) (ledger_db l3) = Some u3
                          /\ u_priority_until u3 = Some (isoformat until))).
Proof.
  intros l pid found u until now Hf Hu. split.
  - unfold confirm_priority_purchase. rewrite Hf. eexists. split; [reflexivity|]. split.
    + unfold get_priority_purchase in *. simpl.
      rewrite find_update_purchase by reflexivity.
      rewrite find_update_purchase by reflexivity. rewrite Hf. simpl.
      eexists. split; [reflexivity|]. simpl. repeat split; reflexivity.
    + unfold get_user in *. simpl. rewrite lookup_alter.
      case_decide; [|congruence]. rewrite Hu. simpl.
      eexists. split; reflexivity.
  - assert (get_priority_purchase pid (reject_priority_purchase pid l)
            = Some (mkPurchase (purchase_id found) (p_user_id found) (amount_usd found)
                      purchase_rejected (p_confirmed_at found) (p_priority_until found)
                      (p_created_at found))) as Hr.
    { unfold get_priority_purchase in *. simpl.
      rewrite find_update_purchase by reflexivity. now rewrite Hf. }
    unfold confirm_priority_purchase. rewrite Hr. eexists. split; [reflexivity|]. split.
    + unfold get_priority_purchase in *. simpl.
      rewrite find_update_purchase by reflexivity.
      rewrite find_update_purchase by reflexivity. rewrite Hf. simpl.
      eexists. split; reflexivity.
    + unfold get_user in *. simpl. rewrite lookup_alter.
      case_decide; [|congruence]. rewrite Hu. simpl.
      eexists. split; reflexivity.
Qed.

Lemma purchase_resolution_is_not_final_witness :
  (exists l1,
      confirm_priority_purchase 1 five_days_later "2026-11-03T13:00:00" ledger_one_request
      = Some l1
      /\ (exists p2,
             get_priority_purchase 1 (reject_priority_purchase 1 l1) = Some p2
             /\ p_status p2 = purchase_rejected
             /\ p_confirmed_at p2 = Some "2026-11-03T13:00:00"
             /\ p_priority_until p2 = Some (isoformat five_days_later))
      /\ (exists u2,
             get_user (p_user_id the_request) (ledger_db (reject_priority_purchase 1 l1))
             = Some u2
             /\ u_priority_until u2 = Some (isoformat five_days_later)))
  /\ (exists l3,
         confirm_priority_purchase 1 five_days_later "2026-11-03T13:00:00"
           (reject_priority_purchase 1 ledger_one_request) = Some l3
         /\ (exists p3, get_priority_purchase 1 l3 = Some p3
                        /\ p_status p3 = purchase_confirmed)
         /\ (exists u3, get_user (p_user_id the_request) (ledger_db l3) = Some u3
                        /\ u_priority_until u3 = Some (isoformat five_days_later))).
Proof.
  apply (purchase_resolution_is_not_final ledger_one_request 1 the_request
           (user_with 1 None) five_days_later "2026-11-03T13:00:00").
  - reflexivity.
  - vm_compute. reflexivity.
Defined.

(** ** Grants by the administrator *)

(** X13.  [process_give_priority] changes nothing for a sender other than
    the administrator, for a message without text, for a text that is not
    two numbers, and for zero days.  Otherwise it passes the grant on, as the unbounded one exactly
    when the number of days is negative or the administrator names their
    own id, and the texts sent announce an unbounded priority in exactly
    those cases.  The grant is stored when the user id fits SQLite's 64-bit
    INTEGER and, for a bounded grant, the expiry can be computed; when
    [admin_give_priority] answers [False] the failure text is sent and no
    priority is written.  No job is touched. *)
Theorem administrator_grant_decision :
  forall (ADMIN_ID from_user : Z) (input : GrantInput) (until : option DateTime)
         (now : string) (d : Database),
    let r := process_give_priority ADMIN_ID from_user input until now d in
    (from_user <> ADMIN_ID -> r = (grant_ignored, d))
    /\ (forall uid days,
           from_user = ADMIN_ID -> input = grant_numbers uid days ->
           (days = 0 -> r = (grant_rejected_zero, d))
           /\ (days <> 0 ->
               let unbounded := (days <? 0) || (uid =? ADMIN_ID) in
               let passed_on := if (uid =? ADMIN_ID) && (days >? 0) then -1 else days in
               (fits_sqlite_integer uid = false -> r = (grant_failed, d))
               /\ (fits_sqlite_integer uid = true -> unbounded = true ->
                   fst r = grant_given uid passed_on true
                   /\ exists u, get_user uid (snd r) = Some u
                                /\ u_priority_until u = Some "INFINITE")
               /\ (fits_sqlite_integer uid = true -> unbounded = false ->
                   forall t, until = Some t ->
                     fst r = grant_given uid days false
                     /\ exists u, get_user uid (snd r) = Some u
                                  /\ u_priority_until u = Some (isoformat t))
               /\ (fits_sqlite_integer uid = true -> unbounded = false ->
                   until = None ->
                   r = (grant_failed, add_or_update_user uid None None now d))
               /\ downloads (snd r) = downloads d))
    /\ ((forall uid days, input <> grant_numbers uid days) -> snd r = d).
Proof.
  intros ADMIN_ID from_user input until now d r. subst r.
  unfold process_give_priority. split; [|split].
  - intros Hne. apply Z.eqb_neq in Hne. now rewrite Hne.
  - intros uid days -> ->. rewrite Z.eqb_refl. cbn [negb]. split.
    + intros ->. reflexivity.
    + intros Hnz. apply Z.eqb_neq in Hnz. rewrite Hnz. cbv zeta.
      set (passed_on := if (uid =? ADMIN_ID) && (days >? 0) then -1 else days).
      assert (Hann : (if (uid =? ADMIN_ID) && (days >? 0) then (-1, true)
                      else (days, days <? 0))
                     = (passed_on, (days <? 0) || (uid =? ADMIN_ID))).
      { subst passed_on. apply Z.eqb_neq in Hnz.
        destruct (uid =? ADMIN_ID), (Z.gtb_spec days 0), (Z.ltb_spec days 0);
          simpl; try reflexivity; lia. }
      rewrite Hann.
      assert (Hneg : (passed_on <? 0) = (days <? 0) || (uid =? ADMIN_ID)).
      { subst passed_on. apply Z.eqb_neq in Hnz.
        destruct (uid =? ADMIN_ID), (Z.gtb_spec days 0), (Z.ltb_spec days 0);
          simpl; try reflexivity; lia. }
      pose proof (admin_give_priority_downloads uid passed_on until now d) as Hd.
      rewrite admin_give_priority_cases in *. rewrite Hneg in *.
      destruct (fits_sqlite_integer uid); cbn [negb] in *.
      * destruct ((days <? 0) || (uid =? ADMIN_ID)) eqn:U.
        -- split; [discriminate|]. split; [|split; [discriminate|split; [discriminate|]]].
           ++ intros _ _. split; [reflexivity|]. cbn [snd].
              destruct (granted_row uid "INFINITE" None None now d) as [u0 Hu0].
              unfold get_user. rewrite Hu0. eexists. split; reflexivity.
           ++ exact Hd.
        -- assert (passed_on = days) as Ep.
           { subst passed_on. apply orb_false_iff in U as [_ ->]. reflexivity. }
           split; [discriminate|]. split; [discriminate|]. split; [|split].
           ++ intros _ _ t ->. simpl. split; [now rewrite Ep|].
              destruct (granted_row uid (isoformat t) None None now d) as [u0 Hu0].
              unfold get_user. rewrite Hu0. eexists. split; reflexivity.
           ++ intros _ _ ->. reflexivity.
           ++ destruct until as [t|]; exact Hd.
      * split; [reflexivity|]. repeat split; discriminate.
  - intros Hin. destruct (negb (from_user =? ADMIN_ID)); [reflexivity|].
    destruct input as [| | |uid days]; try reflexivity.
    exfalso. exact (Hin uid days eq_refl).
Qed.

Lemma administrator_grant_decision_witness :
  let r := process_give_priority 2 2 (grant_numbers 2 30) (Some five_days_later)
             "2026-11-03 13:00:00" two_users_db in
  fst r = grant_given 2 (-1) true
  /\ (exists u, get_user 2 (snd r) = Some u /\ u_priority_until u = Some "INFINITE").
Proof.
  pose proof (administrator_grant_decision 2 2 (grant_numbers 2 30) (Some five_days_later)
                "2026-11-03 13:00:00" two_users_db) as (_ & H & _).
  destruct (H 2 30 eq_refl eq_refl) as (_ & G).
  destruct G as (_ & G & _); [lia|].
  apply G; reflexivity.
Defined.

(** ** The status text and the queue *)

Lemma string_length_app (a b : string) :
  String.length (a ++ b) = (String.length a + String.length b)%nat.
Proof.
  induction a as [|c a IH]; [reflexivity|].
  rewrite string_cons_app. simpl. now rewrite IH.
Qed.

Lemma isoformat_truthy (t : DateTime) : truthy (Some (isoformat t)) = Some (isoformat t).
Proof.
  assert (0 < String.length (isoformat t))%nat as H.
  { unfold isoformat. rewrite !string_length_app. simpl. lia. }
  destruct (isoformat t); [simpl in H; lia | reflexivity].
Qed.

Lemma later_date_rank (u : User) (until now : DateTime) :
  u_priority_until u = Some (isoformat until) ->
  printable_date until -> printable_date now ->
  lex_ltb (dt_date now) (dt_date until) = true ->
  priority_rank (sqlite_datetime now) u = 0.
Proof.
  intros Hu Pu Pn Hlt. unfold priority_rank. rewrite Hu.
  replace (text_gtb (isoformat until) (sqlite_datetime now)) with true;
    [now rewrite orb_true_r|].
  unfold text_gtb, String.ltb, isoformat, sqlite_datetime.
  now rewrite (date_text_compare now until).
Qed.

(** X14.  For a user whose priority is a stored expiry, [has_priority]
    compares the expiry with the clock to the microsecond, while the pending
    queue decides by the calendar date alone whenever the dates differ and
    favours the user for the whole day of the expiry.  So on that day, once
    the expiry has passed, [has_priority] says no and the queue still ranks
    the user first. *)
Theorem has_priority_and_queue_rank :
  forall (fromisoformat : string -> option DateTime) (uid : Z) (u : User)
         (until now_local now_utc : DateTime) (d : Database),
    get_user uid d = Some u ->
    u_priority_until u = Some (isoformat until) ->
    fromisoformat (isoformat until) = Some until ->
    printable_date until -> printable_date now_utc ->
    has_priority fromisoformat uid now_local d = dt_ltb now_local until
    /\ (lex_ltb (dt_date until) (dt_date now_utc) = true ->
        priority_rank (sqlite_datetime now_utc) u = 1)
    /\ (lex_ltb (dt_date now_utc) (dt_date until) = true ->
        priority_rank (sqlite_datetime now_utc) u = 0)
    /\ (date_text until = date_text now_utc ->
        priority_rank (sqlite_datetime now_utc) u = 0
        /\ (dt_ltb now_local until = false ->
            has_priority fromisoformat uid now_local d = false)).
Proof.
  intros fromisoformat uid u until now_local now_utc d Hg Hu Hf Pu Pn.
  assert (has_priority fromisoformat uid now_local d = dt_ltb now_local until) as Hh.
  { unfold has_priority. unfold get_user in Hg. rewrite Hg, Hu, isoformat_truthy.
    now rewrite isoformat_not_sentinel, Hf. }
  split; [exact Hh|]. split; [|split].
  - intros Hlt. now apply (expired_before_today_rank u until now_utc).
  - intros Hlt. now apply (later_date_rank u until now_utc).
  - intros Hd. split; [now apply (same_day_rank u until now_utc)|].
    intros Hp. now rewrite Hh.
Qed.

Lemma has_priority_and_queue_rank_witness :
  has_priority (reads_only earlier_today) 2 clock_now expired_today_db = false
  /\ priority_rank (sqlite_datetime clock_now) (user_with 2 (Some (isoformat earlier_today)))
     = 0.
Proof.
  assert (printable_date earlier_today) as P1 by (unfold printable_date; simpl; lia).
  assert (printable_date clock_now) as P2 by (unfold printable_date; simpl; lia).
  destruct (has_priority_and_queue_rank (reads_only earlier_today) 2
              (user_with 2 (Some (isoformat earlier_today)))
              earlier_today clock_now clock_now expired_today_db
              eq_refl eq_refl eq_refl P1 P2) as (_ & _ & _ & H).
  destruct (H eq_refl) as [R N]. split; [apply N; reflexivity | exact R].
Defined.

(** ** The category of an error *)

Lemma prefix_app_l (n1 n2 s : string) :
  String.prefix (n1 ++ n2) s = true -> String.prefix n1 s = true.
Proof.
  revert s. induction n1 as [|a n1 IH]; intros s H.
  - now destruct s.
  - rewrite string_cons_app in H. destruct s as [|b s]; [discriminate H|].
    cbn [String.prefix] in *. destruct (ascii_dec a b); [now apply IH | discriminate H].
Qed.

Lemma contains_app_l (n1 n2 s : string) :
  contains (n1 ++ n2) s = true -> contains n1 s = true.
Proof.
  induction s as [|b s IH]; cbn [contains]; intros H.
  - rewrite orb_false_r in *. now apply (prefix_app_l n1 n2).
  - apply orb_true_iff in H as [H|H]; apply orb_true_iff.
    + left. now apply (prefix_app_l n1 n2).
    + right. now apply IH.
Qed.

Lemma friendly_error_lowered (e m : string) :
  (forall word, In word ["geo"; "private"; "unavailable"] ->
                contains word e = true -> contains word m = true) ->
  friendly_error e m
  = if contains "geo" m then geo_restricted
    else if contains "private" m then private_video
    else if contains "unavailable" m then unavailable
    else if contains "timeout" m then timeout
    else other.
Proof.
  intros H. unfold friendly_error.
  assert (forall word, In word ["geo"; "private"; "unavailable"] ->
                       contains word m = false -> contains word e = false) as N.
  { intros word Hin Hm. destruct (contains word e) eqn:E; [|reflexivity].
    apply (H word Hin) in E. congruence. }
  destruct (contains "geo" m) eqn:G; [now rewrite orb_true_r|].
  assert (contains "geo_blocked" e = false) as ->.
  { destruct (contains "geo_blocked" e) eqn:E; [|reflexivity].
    apply (contains_app_l "geo" "_blocked") in E.
    rewrite (N "geo") in E; [discriminate E | simpl; tauto | exact G]. }
  cbn [orb].
  destruct (contains "private" m) eqn:P; [now rewrite orb_true_r|].
  rewrite (N "private") by (simpl; tauto). cbn [orb].
  destruct (contains "unavailable" m) eqn:U; [now rewrite orb_true_r|].
  rewrite (N "unavailable") by (simpl; tauto). reflexivity.
Qed.

(** X15.  Take a text and its lowered form such that each of the words
    geo, private and unavailable, when it occurs in the text, occurs in the
    lowered form.  Then the category shown for that error text is decided
    by the lowered form alone: the case-sensitive tests add nothing.  And
    for a [DownloadError] with that text, the category read back from what
    the executor stores is the class [download_video] chose from the
    lowered form, where the word blocked alone already means a region
    block, and a text of none of the three classes is a timeout exactly
    when its lowered form contains that word.  The three stored class
    names are their own lowered forms. *)
Theorem error_category_follows_lowered_text :
  forall msg m : string,
    (forall word, In word ["geo"; "private"; "unavailable"] ->
                  contains word msg = true -> contains word m = true) ->
    friendly_error msg m
    = (if contains "geo" m then geo_restricted
       else if contains "private" m then private_video
       else if contains "unavailable" m then unavailable
       else if contains "timeout" m then timeout
       else other)
    /\ (let stored :=
          default "Download failed"
            (fetch_error (download_video (yt_download_error msg m))) in
        let stored_lower := if String.eqb stored msg then m else stored in
        friendly_error stored stored_lower
        = (if contains "geo" m || contains "blocked" m then geo_restricted
           else if contains "private" m then private_video
           else if contains "unavailable" m then unavailable
           else if contains "timeout" m then timeout
           else other)).
Proof.
  intros msg m H. split; [now apply friendly_error_lowered|].
  unfold download_video.
  destruct (contains "geo" m || contains "blocked" m) eqn:G.
  { cbv zeta. unfold friendly_error.
    change (default "Download failed"
              (fetch_error (mkFetch false None (Some "video_geo_blocked"))))
      with "video_geo_blocked".
    change (contains "geo_blocked" "video_geo_blocked") with true. reflexivity. }
  apply orb_false_iff in G as [G _].
  destruct (contains "private" m) eqn:P.
  { cbv zeta. unfold friendly_error.
    change (default "Download failed"
              (fetch_error (mkFetch false None (Some "video_private"))))
      with "video_private".
    change (contains "geo_blocked" "video_private") with false.
    change (contains "private" "video_private") with true.
    destruct (String.eqb "video_private" msg); [now rewrite G|reflexivity]. }
  destruct (contains "unavailable" m) eqn:U.
  { cbv zeta. unfold friendly_error.
    change (default "Download failed"
              (fetch_error (mkFetch false None (Some "video_unavailable"))))
      with "video_unavailable".
    change (contains "geo_blocked" "video_unavailable") with false.
    change (contains "private" "video_unavailable") with false.
    change (contains "unavailable" "video_unavailable") with true.
    destruct (String.eqb "video_unavailable" msg); [now rewrite G, P|reflexivity]. }
  cbv zeta.
  change (default "Download failed" (fetch_error (mkFetch false None (Some msg)))) with msg.
  rewrite String.eqb_refl, friendly_error_lowered by exact H.
  now rewrite G, P, U.
Qed.

Lemma error_category_follows_lowered_text_witness :
  friendly_error "ERROR: Video unavailable" "error: video unavailable" = unavailable
  /\ friendly_error "video_unavailable" "video_unavailable" = unavailable.
Proof.
  destruct (error_category_follows_lowered_text "ERROR: Video unavailable"
              "error: video unavailable") as [H1 H2].
  - intros word [<-|[<-|[<-|[]]]]; vm_compute; exact (fun E => E).
  - split; [exact H1 | exact H2].
Defined.

(** ** Jobs and the rows of their users *)

Lemma add_or_update_user_row uid un fn now d :
  exists u, users (add_or_update_user uid un fn now d) !! uid = Some u.
Proof.
  unfold add_or_update_user. destruct (users d !! uid); simpl;
    rewrite lookup_insert_eq; eauto.
Qed.

Lemma add_or_update_user_downloads uid un fn now d :
  downloads (add_or_update_user uid un fn now d) = downloads d.
Proof. unfold add_or_update_user. now destruct (users d !! uid). Qed.

Lemma get_all_pending_In now D j :
  In j (get_all_pending_downloads now D) <->
  In j (downloads D) /\ status j = pending /\ exists u, users D !! user_id j = Some u.
Proof.
  unfold get_all_pending_downloads. rewrite in_map_iff. split.
  - intros ([j' u] & E & Hin). simpl in E. subst j'.
    eapply Permutation_in in Hin; [|symmetry; apply order_by_perm].
    apply pending_join_In in Hin as (H1 & H2 & H3). eauto.
  - intros (H1 & H2 & u & H3). exists (j, u). split; [reflexivity|].
    eapply Permutation_in; [apply order_by_perm|]. now apply pending_join_In.
Qed.

(** X16.  The pending queue joins the jobs with the rows of their users.
    A job added for a user who has no row is stored and shows among the
    user's own unfinished jobs, but the queue never offers it, at any time;
    as soon as [add_or_update_user] has run for that user, the queue offers
    it. *)
Theorem job_without_user_row_is_not_queued :
  forall (d : Database) (uid : Z) (url : string) (title fmt : option string)
         (now : string),
    keys_ok d ->
    get_user uid d = None ->
    let id := fst (add_download uid url title fmt now d) in
    let d' := snd (add_download uid url title fmt now d) in
    In (new_job id uid url title fmt now) (get_user_active_downloads uid d')
    /\ (forall t j, In j (get_all_pending_downloads t d') -> download_id j <> id)
    /\ (forall un fn t2 t,
           In (new_job id uid url title fmt now)
              (get_all_pending_downloads t (add_or_update_user uid un fn t2 d'))).
Proof.
  intros d uid url title fmt now K Hu id d'.
  assert (Hrow : In (new_job id uid url title fmt now) (downloads d')).
  { subst id d'. simpl. apply in_or_app. right. now left. }
  split; [|split].
  - unfold get_user_active_downloads.
    eapply Permutation_in; [apply order_by_perm|].
    apply filter_In. split; [exact Hrow|]. simpl. now rewrite Z.eqb_refl.
  - intros t j Hj Hid. apply get_all_pending_In in Hj as (Hin & _ & u & Hrow').
    subst d'. simpl in Hin, Hrow'. apply in_app_or in Hin as [Hin|[<-|[]]].
    + destruct K as [_ Hall]. rewrite Forall_forall in Hall.
      apply list_elem_of_In, Hall in Hin. subst id. simpl in Hid. lia.
    + simpl in Hrow'. unfold get_user in Hu. congruence.
  - intros un fn t2 t. apply get_all_pending_In.
    rewrite add_or_update_user_downloads. split; [exact Hrow|]. split; [reflexivity|].
    apply add_or_update_user_row.
Qed.

Lemma job_without_user_row_is_not_queued_witness :
  let id := fst (add_download 7 "https://example.org/M" None (Some "mp3")
                   "2026-11-03 09:10:00" finished_db) in
  let d' := snd (add_download 7 "https://example.org/M" None (Some "mp3")
                   "2026-11-03 09:10:00" finished_db) in
  In (new_job id 7 "https://example.org/M" None (Some "mp3") "2026-11-03 09:10:00")
     (get_user_active_downloads 7 d')
  /\ (forall t j, In j (get_all_pending_downloads t d') -> download_id j <> id)
  /\ (forall un fn t2 t,
         In (new_job id 7 "https://example.org/M" None (Some "mp3") "2026-11-03 09:10:00")
            (get_all_pending_downloads t (add_or_update_user 7 un fn t2 d'))).
Proof.
  assert (K : keys_ok finished_db).
  { split; simpl; [apply NoDup_singleton | repeat constructor; simpl; lia]. }
  exact (job_without_user_row_is_not_queued finished_db 7 "https://example.org/M" None
           (Some "mp3") "2026-11-03 09:10:00" K eq_refl).
Defined.

(** ** Listing the users with priority *)

Lemma text_desc_total a b : text_desc a b = true \/ text_desc b a = true.
Proof.
  destruct a as [x|], b as [y|]; simpl; auto.
  destruct (String.leb_total x y); auto.
Qed.

Lemma text_desc_trans a b c :
  text_desc a b = true -> text_desc b c = true -> text_desc a c = true.
Proof.
  destruct a as [x|], b as [y|], c as [z|]; simpl; try easy.
  intros H1 H2. eapply string_leb_trans; eassumption.
Qed.

Lemma priority_list_le_total a b :
  priority_list_le a b = true \/ priority_list_le b a = true.
Proof.
  unfold priority_list_le.
  destruct (Z.lt_trichotomy (sentinel_rank (u_priority_until a))
              (sentinel_rank (u_priority_until b))) as [H|[H|H]].
  - left. apply orb_true_iff. left. now apply Z.ltb_lt.
  - rewrite H, Z.eqb_refl. simpl.
    destruct (text_desc_total (u_priority_until a) (u_priority_until b)) as [L|L];
      rewrite L; [left|right]; apply orb_true_r.
  - right. apply orb_true_iff. left. now apply Z.ltb_lt.
Qed.

Lemma priority_list_le_trans a b c :
  priority_list_le a b = true -> priority_list_le b c = true ->
  priority_list_le a c = true.
Proof.
  unfold priority_list_le. intros H1 H2.
  apply orb_true_iff in H1. apply orb_true_iff in H2. apply orb_true_iff.
  destruct H1 as [H1|H1], H2 as [H2|H2];
    rewrite ?andb_true_iff, ?Z.ltb_lt, ?Z.eqb_eq in *.
  - left. lia.
  - left. lia.
  - left. lia.
  - right. destruct H1 as [E1 L1], H2 as [E2 L2]. split; [lia|].
    eapply text_desc_trans; eassumption.
Qed.

Lemma scan_users_In d u : In u (scan_users d) <-> exists uid, users d !! uid = Some u.
Proof.
  unfold scan_users. rewrite in_map_iff. split.
  - intros ([uid u'] & E & H). simpl in E. subst u'.
    eapply Permutation_in in H; [|symmetry; apply order_by_perm].
    apply list_elem_of_In, elem_of_map_to_list in H. eauto.
  - intros [uid H]. exists (uid, u). split; [reflexivity|].
    eapply Permutation_in; [apply order_by_perm|].
    now apply list_elem_of_In, elem_of_map_to_list.
Qed.

Lemma priority_rows_In d u :
  In u (priority_rows d) <->
  (exists uid, get_user uid d = Some u) /\ u_priority_until u <> None.
Proof.
  unfold priority_rows, get_user. split.
  - intros H. eapply Permutation_in in H; [|symmetry; apply order_by_perm].
    apply filter_In in H as [H Hp]. apply scan_users_In in H.
    split; [exact H|]. now destruct (u_priority_until u).
  - intros [H Hp]. eapply Permutation_in; [apply order_by_perm|].
    apply filter_In. split; [now apply scan_users_In|].
    now destruct (u_priority_until u).
Qed.

Lemma strongly_sorted_weaken {A} (R R' : A -> A -> Prop) (P : A -> Prop) l :
  (forall a b, P a -> P b -> R a b -> R' a b) ->
  Forall P l -> StronglySorted R l -> StronglySorted R' l.
Proof.
  intros HR HP HS. induction HS as [|a l HS IH Hall]; [constructor|].
  apply Forall_cons in HP as [Pa Pl]. constructor; [now apply IH|].
  rewrite Forall_forall in *. intros b Hb. apply HR; auto.
Qed.

(** X17.  [get_users_with_priority] lists every user whose priority column
    is not NULL, whether or not the expiry has passed: the query reads no
    clock.  The users with the unbounded priority come first, the others
    follow by falling expiry text; the sentinel is shown as the infinity
    text and every other value as stored. *)
Theorem priority_listing_ignores_expiry :
  forall d : Database,
    (forall u, In u (priority_rows d) <->
               (exists uid, get_user uid d = Some u) /\ u_priority_until u <> None)
    /\ StronglySorted
         (fun a b => exists x y,
              u_priority_until a = Some x /\ u_priority_until b = Some y
              /\ (x = "INFINITE" \/ (y <> "INFINITE" /\ String.leb y x = true)))
         (priority_rows d)
    /\ (forall uid u until,
           get_user uid d = Some u -> u_priority_until u = Some (isoformat until) ->
           In (priority_entry u) (get_users_with_priority d)
           /\ pe_priority_until (priority_entry u) = Some (isoformat until))
    /\ (forall u, u_priority_until u = Some "INFINITE" ->
                  pe_priority_until (priority_entry u) = Some "∞ Бесконечный").
Proof.
  intros d. split; [intros u; apply priority_rows_In|]. split; [|split].
  - eapply (strongly_sorted_weaken (fun a b => priority_list_le a b = true) _
              (fun u => u_priority_until u <> None)).
    + intros a b Pa Pb H. unfold priority_list_le in H.
      destruct (u_priority_until a) as [x|]; [|congruence].
      destruct (u_priority_until b) as [y|]; [|congruence].
      exists x, y. split; [reflexivity|]. split; [reflexivity|].
      simpl in H. destruct (String.eqb_spec x "INFINITE") as [Ex|Ex]; [now left|].
      right. destruct (String.eqb_spec y "INFINITE") as [Ey|Ey]; [discriminate H|].
      split; [exact Ey|]. exact H.
    + rewrite Forall_forall. intros u Hu. apply list_elem_of_In in Hu.
      now apply priority_rows_In in Hu.
    + apply order_by_sorted; [apply priority_list_le_total | apply priority_list_le_trans].
  - intros uid u until Hg Hp. split.
    + unfold get_users_with_priority. apply in_map. apply priority_rows_In.
      split; [eauto | congruence].
    + unfold priority_entry. simpl. now rewrite Hp, isoformat_not_sentinel.
  - intros u Hp. unfold priority_entry. simpl. now rewrite Hp.
Qed.

(** ** Labels and heights *)

Lemma last_char_app_one (s : string) (c : ascii) :
  last_char (s ++ String c "") = Some c.
Proof.
  induction s as [|a s IH]; [reflexivity|].
  rewrite string_cons_app. cbn [last_char]. rewrite IH.
  destruct (s ++ String c "") eqn:E; [|reflexivity].
  destruct s; discriminate E.
Qed.

Lemma drop_last_app_one (s : string) (c : ascii) :
  drop_last (s ++ String c "") = s.
Proof.
  induction s as [|a s IH]; [reflexivity|].
  rewrite string_cons_app. cbn [drop_last]. rewrite IH.
  destruct (s ++ String c "") eqn:E; [|reflexivity].
  destruct s; discriminate E.
Qed.

Lemma eqb_app_one_false (s t : string) (c : ascii) :
  last_char t <> Some c -> String.eqb (s ++ String c "") t = false.
Proof.
  intros H. apply String.eqb_neq. intros E. apply H. rewrite <- E.
  apply last_char_app_one.
Qed.

(** X18.  The quality buttons.  Whatever height yt-dlp lists, the height
    that [download_video] requests for the label of that height is the
    largest of 2160, 1440, 1080, 720, 480, 360, 240 and 144 that does not
    exceed it, and the height itself below 144.  So the request never
    exceeds the listed height, and it is lower exactly for a height of 144
    or more that is not one of the eight. *)
Theorem button_requests_standard_height :
  forall (int : string -> option Z) (height : Z),
    0 < height ->
    (forall n, In n [1080; 720; 480; 360; 240; 144; height] -> int (py_str n) = Some n) ->
    let floor :=
      if height >=? 2160 then 2160
      else if height >=? 1440 then 1440
      else if height >=? 1080 then 1080
      else if height >=? 720 then 720
      else if height >=? 480 then 480
      else if height >=? 360 then 360
      else if height >=? 240 then 240
      else if height >=? 144 then 144
      else height in
    requested_height int (label_of_height height) = Some floor
    /\ floor <= height
    /\ (floor < height <->
        144 <= height /\ ~ In height [2160; 1440; 1080; 720; 480; 360; 240; 144]).
Proof.
  intros int height Hpos Hint floor.
  assert (forall n, In n [1080; 720; 480; 360; 240; 144] ->
                    int (py_str n) = Some n) as Hstd.
  { intros n Hn. apply Hint. simpl in *. tauto. }
  assert (int "1080" = Some 1080) as H1080 by (apply (Hstd 1080); simpl; tauto).
  assert (int "720" = Some 720) as H720 by (apply (Hstd 720); simpl; tauto).
  assert (int "480" = Some 480) as H480 by (apply (Hstd 480); simpl; tauto).
  assert (int "360" = Some 360) as H360 by (apply (Hstd 360); simpl; tauto).
  assert (int "240" = Some 240) as H240 by (apply (Hstd 240); simpl; tauto).
  assert (int "144" = Some 144) as H144 by (apply (Hstd 144); simpl; tauto).
  assert (int (py_str height) = Some height) as Hh by (apply Hint; simpl; tauto).
  subst floor. unfold label_of_height.
  destruct (Z.geb_spec height 2160);
    [split; [reflexivity|]; split; [lia|]; simpl; lia|].
  destruct (Z.geb_spec height 1440);
    [split; [reflexivity|]; split; [lia|]; simpl; lia|].
  destruct (Z.geb_spec height 1080);
    [split; [unfold requested_height; simpl; now rewrite H1080|];
     split; [lia|]; simpl; lia|].
  destruct (Z.geb_spec height 720);
    [split; [unfold requested_height; simpl; now rewrite H720|];
     split; [lia|]; simpl; lia|].
  destruct (Z.geb_spec height 480);
    [split; [unfold requested_height; simpl; now rewrite H480|];
     split; [lia|]; simpl; lia|].
  destruct (Z.geb_spec height 360);
    [split; [unfold requested_height; simpl; now rewrite H360|];
     split; [lia|]; simpl; lia|].
  destruct (Z.geb_spec height 240);
    [split; [unfold requested_height; simpl; now rewrite H240|];
     split; [lia|]; simpl; lia|].
  destruct (Z.geb_spec height 144);
    [split; [unfold requested_height; simpl; now rewrite H144|];
     split; [lia|]; simpl; lia|].
  split; [|split; [lia|simpl; lia]].
  unfold requested_height.
  rewrite !eqb_app_one_false by (simpl; congruence).
  now rewrite last_char_app_one, drop_last_app_one, Hh.
Qed.

Lemma button_requests_standard_height_witness :
  requested_height read_decimal (label_of_height 2000) = Some 1440
  /\ 1440 <= 2000
  /\ (1440 < 2000 <->
      144 <= 2000 /\ ~ In 2000 [2160; 1440; 1080; 720; 480; 360; 240; 144]).
Proof.
  apply (button_requests_standard_height read_decimal 2000).
  - lia.
  - intros n Hn. simpl in Hn.
    destruct Hn as [<-|[<-|[<-|[<-|[<-|[<-|[<-|[]]]]]]]]; reflexivity.
Defined.

(** ** The progress bar *)

(** X19.  The progress bar is never shorter than twenty cells, and it has
    exactly twenty when the stored progress lies strictly between -5 and
    105; for a progress from 0 to 100 one cell is filled for every full
    five per cent.  A progress of NULL draws the empty bar. *)
Theorem progress_bar_has_twenty_cells :
  forall p : Z,
    (20 <= List.length (progress_bar (Some p)))%nat
    /\ (List.length (progress_bar (Some p)) = 20%nat <-> -5 < p < 105)
    /\ (0 <= p <= 100 ->
        progress_bar (Some p)
        = (List.repeat full_block (Z.to_nat (p / 5))
           ++ List.repeat light_shade (20 - Z.to_nat (p / 5)))%list)
    /\ progress_bar None = List.repeat light_shade 20.
Proof.
  intros p.
  assert (progress_bar (Some p)
          = (List.repeat full_block (Z.to_nat (Z.quot p 5))
             ++ List.repeat light_shade (Z.to_nat (20 - Z.quot p 5)))%list) as E
    by (unfold progress_bar; now destruct p).
  rewrite E, List.length_app, !List.repeat_length.
  assert (p = 5 * Z.quot p 5 + Z.rem p 5 /\ -5 < Z.rem p 5 < 5
          /\ (0 <= p -> 0 <= Z.rem p 5) /\ (p <= 0 -> Z.rem p 5 <= 0)) as (Hq & Hb & Hp & Hn).
  { split; [apply Z.quot_rem'|]. split; [|split].
    - pose proof (Z.rem_bound_abs p 5). lia.
    - intros H. apply Z.rem_nonneg; lia.
    - intros H. apply Z.rem_nonpos; lia. }
  split; [lia|]. split; [|split; [|reflexivity]].
  - lia.
  - intros Hr. rewrite Z.quot_div_nonneg by lia.
    assert (0 <= p / 5 <= 20) by (split; [apply Z.div_pos | apply Z.div_le_upper_bound]; lia).
    f_equal. f_equal. lia.
Qed.

(** ** Durations *)

Lemma py_02d_digits (n : Z) :
  0 <= n < 100 -> py_02d n = String (digit (n / 10)) (String (digit n) "").
Proof.
  intros H.
  assert (forallb (fun k => String.eqb (py_02d (Z.of_nat k))
                              (String (digit (Z.of_nat k / 10))
                                 (String (digit (Z.of_nat k)) "")))
            (List.seq 0 100) = true) as Hall by (vm_compute; reflexivity).
  rewrite forallb_forall in Hall.
  specialize (Hall (Z.to_nat n)). rewrite Z2Nat.id in Hall by lia.
  apply String.eqb_eq, Hall, in_seq. lia.
Qed.

Lemma digit_inj (a b : Z) : digit a = digit b -> a mod 10 = b mod 10.
Proof.
  intros E. apply (f_equal N_of_ascii) in E. rewrite !digit_code in E.
  pose proof (Z.mod_pos_bound a 10). pose proof (Z.mod_pos_bound b 10). lia.
Qed.

Lemma py_02d_inj (a b : Z) : 0 <= a < 100 -> 0 <= b < 100 -> py_02d a = py_02d b -> a = b.
Proof.
  intros Ha Hb E. rewrite !py_02d_digits in E by assumption.
  inversion E as [[E1 E2]]. apply digit_inj in E1, E2.
  assert (0 <= a / 10 < 10) by (split; [apply Z.div_pos | apply Z.div_lt_upper_bound]; lia).
  assert (0 <= b / 10 < 10) by (split; [apply Z.div_pos | apply Z.div_lt_upper_bound]; lia).
  rewrite !(Z.mod_small (_ / 10)) in E1 by lia.
  pose proof (Z.div_mod a 10). pose proof (Z.div_mod b 10). lia.
Qed.

Lemma two_digits_app (n : Z) (s : string) :
  0 <= n < 100 -> py_02d n ++ s = String (digit (n / 10)) (String (digit n) s).
Proof. intros H. now rewrite py_02d_digits. Qed.

(** X20.  Below a hundred hours [format_duration] writes eight characters
    and different durations give different texts.  [format_eta] writes the
    same text from one hour on; below one hour it leaves the hours out, so
    that the duration text is the ETA text after [00:], and a negative
    number of seconds is shown as the non-negative remainder modulo one
    hour. *)
Theorem duration_text_is_faithful :
  forall s t : Z,
    0 <= s < 360000 -> 0 <= t < 360000 ->
    String.length (format_duration s) = 8%nat
    /\ (format_duration s = format_duration t -> s = t)
    /\ (3600 <= s -> format_eta s = format_duration s)
    /\ (s < 3600 -> format_duration s = "00:" ++ format_eta s)
    /\ (forall n, n < 3600 -> format_eta n = format_eta (n mod 3600)).
Proof.
  intros s t Hs Ht.
  assert (forall x, 0 <= x < 360000 ->
            0 <= x / 3600 < 100 /\ 0 <= (x mod 3600) / 60 < 100 /\ 0 <= x mod 60 < 100) as B.
  { intros x Hx. pose proof (Z.mod_pos_bound x 3600). pose proof (Z.mod_pos_bound x 60).
    repeat split; try (apply Z.div_pos; lia); try (apply Z.div_lt_upper_bound; lia); lia. }
  assert (forall x, 0 <= x < 360000 ->
            format_duration x
            = String (digit (x / 3600 / 10)) (String (digit (x / 3600))
                (String ":" (String (digit ((x mod 3600) / 60 / 10))
                   (String (digit ((x mod 3600) / 60))
                      (String ":" (String (digit (x mod 60 / 10))
                         (String (digit (x mod 60)) "")))))))) as F.
  { intros x Hx. destruct (B x Hx) as (B1 & B2 & B3). unfold format_duration.
    rewrite (two_digits_app (x / 3600)) by exact B1. rewrite !string_cons_app.
    rewrite (two_digits_app ((x mod 3600) / 60)) by exact B2.
    rewrite !string_nil_app. now rewrite (py_02d_digits (x mod 60)) by exact B3. }
  split; [now rewrite F|]. split; [|split; [|split]].
  - intros E. destruct (B s Hs) as (S1 & S2 & S3). destruct (B t Ht) as (T1 & T2 & T3).
    unfold format_duration in E.
    rewrite (two_digits_app (s / 3600)), (two_digits_app (t / 3600)) in E by assumption.
    inversion E as [[E1 E2 E3]]. clear E.
    rewrite (two_digits_app ((s mod 3600) / 60)), (two_digits_app ((t mod 3600) / 60))
      in E3 by assumption.
    rewrite !string_cons_app, !string_nil_app in E3.
    inversion E3 as [[E4 E5 E6]]. clear E3.
    apply py_02d_inj in E6; [|assumption..].
    assert (s / 3600 = t / 3600) as Eh.
    { apply py_02d_inj; [assumption..|]. rewrite !py_02d_digits by assumption. congruence. }
    assert ((s mod 3600) / 60 = (t mod 3600) / 60) as Em.
    { apply py_02d_inj; [assumption..|]. rewrite !py_02d_digits by assumption. congruence. }
    clear - Hs Ht Eh Em E6. Z.to_euclidean_division_equations. lia.
  - intros H. unfold format_eta, format_duration.
    assert ((s / 3600 >? 0) = true) as ->; [|reflexivity].
    apply Z.gtb_lt. apply Z.div_str_pos. lia.
  - intros H. unfold format_eta, format_duration.
    assert (s / 3600 = 0) as -> by (apply Z.div_small; lia). reflexivity.
  - intros n Hn. unfold format_eta.
    assert (n / 3600 <= 0) as H1.
    { destruct (Z.le_gt_cases 0 n); [rewrite Z.div_small by lia; lia|].
      apply Z.lt_le_incl, Z.div_lt_upper_bound; lia. }
    pose proof (Z.mod_pos_bound n 3600).
    assert ((n / 3600 >? 0) = false) as -> by lia.
    assert ((n mod 3600 / 3600 >? 0) = false) as ->
      by (rewrite Z.div_small by lia; reflexivity).
    rewrite Z.mod_mod by lia.
    replace ((n mod 3600) mod 60) with (n mod 60); [reflexivity|].
    clear. Z.to_euclidean_division_equations. lia.
Qed.

Lemma duration_text_is_faithful_witness :
  String.length (format_duration 3725) = 8%nat
  /\ (format_duration 3725 = format_duration 59 -> 3725 = 59)
  /\ (3600 <= 3725 -> format_eta 3725 = format_duration 3725)
  /\ (3725 < 3600 -> format_duration 3725 = "00:" ++ format_eta 3725)
  /\ (forall n, n < 3600 -> format_eta n = format_eta (n mod 3600)).
Proof.
  apply (duration_text_is_faithful 3725 59); lia.
Defined.

(** ** The statistics columns *)

Section Statistics.
Context (cfg : Config).

Lemma send_completed_users download send_ok now w :
  users (db (snd (_send_completed_download cfg download send_ok now w))) = users (db w).
Proof.
  unfold _send_completed_download.
  destruct (truthy (file_path download)) as [p|]; [|reflexivity].
  destruct (negb (path_exists w p)); [reflexivity|].
  destruct (bool_decide (file_size_bytes download = Some 0)); [reflexivity|].
  simpl progress_messages.
  destruct (progress_messages w !! download_id download); [|reflexivity].
  destruct (file_size_bytes download) as [file_size|]; [|reflexivity].
  destruct (file_size >? inline_threshold cfg); [reflexivity|].
  destruct send_ok; reflexivity.
Qed.

(** Only the two statements on [users] change that table. *)
Lemma step_users w e :
  users (db (step cfg w e))
  = match e with
    | ev_user uid username first_name now =>
        users (add_or_update_user uid username first_name now (db w))
    | ev_priority uid p => alter (set_priority_until p) uid (users (db w))
    | _ => users (db w)
    end.
Proof.
  destruct e; simpl; try reflexivity.
  - unfold handle_download_callback.
    destruct (negb (req_from_user r =? req_user_id r)); [reflexivity|].
    destruct (truthy (req_url r)) as [url|]; [|reflexivity].
    destruct (get_completed_download_by_url_format url (req_format r) (db w)) as [cached|];
      [destruct (truthy (file_path cached)) as [p|];
       [destruct (path_exists w p)|]|]; reflexivity.
  - unfold run_loop_tick. destruct (worker_job w); [reflexivity|].
    destruct (count_active_downloads (db w) <? MAX_CONCURRENT_DOWNLOADS cfg);
      [|reflexivity].
    destruct (get_all_pending_downloads now_sql (db w)); [reflexivity|].
    unfold process_download_begin. destruct mkdir_exc; reflexivity.
  - unfold progress_callback. destruct (worker_job w); reflexivity.
  - unfold process_download_end. destruct (worker_job w) as [download|]; [|reflexivity].
    set (w1 := match y with
               | yt_done (Some (p, size)) => with_files w (<[p:=size]> (files w))
               | _ => w
               end).
    assert (B : db w1 = db w) by (subst w1; destruct y as [[[p sz]|]| |]; reflexivity).
    destruct (negb (fetch_success (download_video y))); [simpl; now rewrite B|].
    destruct (truthy (fetch_path (download_video y))) as [p|];
      [destruct (files w1 !! p)|]; simpl; now rewrite B.
  - unfold observer_finish. destruct (bool_decide (id ∈ observers w)); [|reflexivity].
    destruct (get_download id (db w)) as [download|]; [|reflexivity].
    destruct (status download); try reflexivity.
    match goal with
    | |- context [_send_completed_download cfg download send_ok now ?W] =>
        pose proof (send_completed_users download send_ok now W) as H;
        destruct (_send_completed_download cfg download send_ok now W) as [d w'']
    end.
    exact H.
  - unfold cleanup_caches. destruct (count_active_downloads (db w) =? 0); reflexivity.
Qed.

Lemma step_statistics w e :
  statistics_untouched (db w) -> statistics_untouched (db (step cfg w e)).
Proof.
  unfold statistics_untouched. intros H. rewrite step_users.
  destruct e; try exact H.
  - unfold add_or_update_user.
    destruct (users (db w) !! uid) as [u|] eqn:L; simpl.
    + apply map_Forall_insert_2; [|exact H]. apply H in L. exact L.
    + apply map_Forall_insert_2; [|exact H]. repeat split.
  - intros k u. rewrite lookup_alter. case_decide as E.
    + subst k. destruct (users (db w) !! uid) as [u0|] eqn:L; [|discriminate].
      intros [= <-]. apply H in L. exact L.
    + apply H.
Qed.

Lemma run_statistics es :
  forall w, statistics_untouched (db w) -> statistics_untouched (db (run cfg w es)).
Proof.
  induction es as [|e es IH]; intros w H; [exact H|].
  simpl. apply IH, step_statistics, H.
Qed.

End Statistics.

(** X21.  No statement of the program writes the two counters of a user's
    row.  In every run, whatever was fetched and delivered, every user has
    [total_downloads] and [total_bytes_downloaded] at their default 0, and
    the listing of the users with priority reports 0 downloads for each of
    them. *)
Theorem statistics_are_never_counted :
  forall (cfg : Config) (es : list Event) (uid : Z) (u : User),
    get_user uid (db (run cfg initial_world es)) = Some u ->
    u_user_id u = uid
    /\ u_total_downloads u = 0
    /\ u_total_bytes_downloaded u = 0
    /\ Forall (fun e => pe_total_downloads e = 0)
         (get_users_with_priority (db (run cfg initial_world es))).
Proof.
  intros cfg es uid u Hu.
  assert (statistics_untouched (db (run cfg initial_world es))) as S.
  { apply run_statistics. intros k v L. simpl in L. now rewrite lookup_empty in L. }
  destruct (S uid u Hu) as (H1 & H2 & H3). repeat split; try assumption.
  rewrite Forall_forall. intros e He. apply list_elem_of_In in He.
  unfold get_users_with_priority in He. apply in_map_iff in He as (v & <- & Hv).
  apply priority_rows_In in Hv as [[k Hk] _]. simpl. now destruct (S k v Hk) as (_ & ? & _).
Qed.

Lemma statistics_are_never_counted_witness :
  u_total_downloads (mkUser 7 (Some "alice") (Some "Alice") "2026-11-03 08:59:00" None 0 0)
  = 0
  /\ Forall (fun e => pe_total_downloads e = 0)
       (get_users_with_priority (db (run config_2_50 initial_world trace_over_cap))).
Proof.
  destruct (statistics_are_never_counted config_2_50 trace_over_cap 7
              (mkUser 7 (Some "alice") (Some "Alice") "2026-11-03 08:59:00" None 0 0))
    as (_ & H & _ & F).
  - vm_compute. reflexivity.
  - split; [exact H | exact F].
Defined.
